(** * PodGen-AI: the HeyGen proxy functions

    A shallow embedding of the three variants of the video-generation proxy
    of the repository and of the helper [pollVideoStatus] they share:

    - [Vercel.handler]      api/heygen-proxy.ts, audio given as a public URL;
    - [VercelBlob.handler]  api/heygen-proxy.ts, audio staged in Vercel Blob
                            storage and deleted in a [finally] block;
    - [Supabase.serve]      supabase/functions/heygen-proxy/index.ts.

    The code is asynchronous JavaScript that talks to the outside world
    (HeyGen, the blob store, the clock, the console).  It is embedded as a
    state-and-exception monad over a [Store] that holds the chronological
    trace of the external calls and the one mutable variable that outlives a
    [try] block, [publicAudioUrl].  The outside world is a [World]: a record
    of the answers the collaborators give. *)

From Stdlib Require Import String List ZArith Lia Bool Arith DecimalString Ascii.
Import ListNotations.
Local Open Scope list_scope.
Local Open Scope string_scope.
Set Warnings "-register-all".

(* ===================================================================== *)
(** * JavaScript values and exceptions *)
(* ===================================================================== *)

(** What the runtime can throw.  The code itself only throws [new Error(msg)];
    the others come from the runtime and from the libraries. *)
Inductive exn : Type :=
| Error (message : string)       (* new Error(message) *)
| TypeError (detail : string)    (* raised by the runtime; [detail] names the operation *)
| SyntaxError                    (* .json() on a body that is not JSON *)
| Foreign (message : string).    (* rejection raised inside fetch / put / del / Buffer.from *)

Module JS.

(** The values that [JSON.parse] produces, plus [undefined] (the result of
    reading an absent property).  A number is kept as the two observations
    the proxy makes of one: its truthiness and its string image. *)
Inductive value : Type :=
| Undefined
| Null
| Bool (b : bool)
| Num (nonzero : bool) (shown : string)
| Str (s : string)
| Arr (items : list value)
| Obj (props : list (string * value)).

(** ToBoolean, as used by [!x], [x || y] and [if (x)]. *)
Definition truthy (v : value) : bool :=
  match v with
  | Undefined | Null => false
  | Bool b => b
  | Num nz _ => nz
  | Str s => negb (s =? "")
  | Arr _ | Obj _ => true
  end.

(** [a || b] *)
Definition or (a b : value) : value := if truthy a then a else b.

(** [v === 'lit'] for a string literal. *)
Definition is_str (v : value) (lit : string) : bool :=
  match v with
  | Str s => s =? lit
  | _ => false
  end.

Fixpoint lookup (props : list (string * value)) (key : string) : value :=
  match props with
  | [] => Undefined
  | (k, v) :: rest => if k =? key then v else lookup rest key
  end.

(** [v.key] for the property names the proxy reads ([data], [status],
    [video_url], [error], [message], [avatar_id], [video_id], and the fields
    of the request body): none of them is defined on a primitive or on an
    array, reading from [undefined] or [null] throws. *)
Definition get (v : value) (key : string) : exn + value :=
  match v with
  | Undefined | Null => inl (TypeError ("Cannot read properties: " ++ key))
  | Obj props => inr (lookup props key)
  | _ => inr Undefined
  end.

(** [v?.key] *)
Definition get_opt (v : value) (key : string) : exn + value :=
  match v with
  | Undefined | Null => inr Undefined
  | _ => get v key
  end.

Definition has_own (props : list (string * value)) (key : string) : bool :=
  existsb (fun kv => fst kv =? key) props.

(** ToString, as applied by a template literal.  An object answers
    "[object Object]" unless an own [toString] property (a JSON value, so not
    callable) hides the inherited method; an array joins its items. *)
Fixpoint to_string (v : value) : exn + string :=
  match v with
  | Undefined => inr "undefined"
  | Null => inr "null"
  | Bool true => inr "true"
  | Bool false => inr "false"
  | Num _ shown => inr shown
  | Str s => inr s
  | Arr items =>
      (fix join (l : list value) : exn + string :=
         match l with
         | [] => inr ""
         | x :: rest =>
             match (match x with
                    | Undefined | Null => inr ""
                    | _ => to_string x
                    end) with
             | inl e => inl e
             | inr s =>
                 match rest with
                 | [] => inr s
                 | _ :: _ =>
                     match join rest with
                     | inl e => inl e
                     | inr r => inr (s ++ "," ++ r)
                     end
                 end
             end
         end) items
  | Obj props =>
      if has_own props "toString"
      then inl (TypeError "Cannot convert object to primitive value")
      else inr "[object Object]"
  end.

End JS.

(* ===================================================================== *)
(** * The outside world *)
(* ===================================================================== *)

(** A settled promise. *)
Inductive settled (A : Type) : Type :=
| Fulfilled (a : A)
| Rejected (e : exn).
Arguments Fulfilled {A} a.
Arguments Rejected {A} e.

(** The part of a fetch [Response] the proxy looks at. *)
Record HttpResponse : Type := {
  ok : bool;
  statusText : string;
  text : settled string;        (* await response.text() *)
  json : settled JS.value       (* await response.json() *)
}.

Definition Buffer : Type := list N.

(** The three HeyGen endpoints; the status endpoint is asked once per
    attempt, and may answer differently each time. *)
Inductive endpoint : Type :=
| AvatarFromImage
| VideoGenerate
| VideoStatusGet (attempt : nat).

Record World : Type := {
  env_HEYGEN_API_KEY : option string;          (* process.env.HEYGEN_API_KEY *)
  env_BLOB_READ_WRITE_TOKEN : option string;   (* process.env.BLOB_READ_WRITE_TOKEN *)
  Date_now : nat -> Z;                         (* the n-th reading of Date.now() *)
  heygen : endpoint -> settled HttpResponse;   (* what fetch settles to *)
  Buffer_from : JS.value -> exn + Buffer;      (* Buffer.from(x, 'base64') *)
  blob_put : settled string;                   (* put(...) settles to a blob whose .url is this *)
  blob_del : settled unit                      (* del(url) *)
}.

(** The inbound request: its verb and what [await req.json()] settles to. *)
Record Request : Type := {
  method : string;
  req_json : settled JS.value
}.

(** What the proxy answers.  A JSON body is kept as the value handed to
    [JSON.stringify]; [{ error: error.message }] is kept as the exception
    whose message it carries. *)
Inductive Body : Type :=
| BodyText (s : string)
| BodyJson (v : JS.value)
| BodyError (e : exn).

Record Response : Type := {
  status : Z;
  headers : list (string * string);
  body : Body
}.

(** Everything the proxy does to the outside world, in order. *)
Inductive Call : Type :=
| Fetch (url meth : string) (hdrs : list (string * JS.value)) (payload : option JS.value)
| Put (pathname : string) (data : Buffer) (access contentType : string)
| Del (url : string)
| SetTimeout (ms : Z)
| ConsoleError (label : string) (e : exn).

Definition is_network (c : Call) : bool :=
  match c with
  | Fetch _ _ _ _ | Put _ _ _ _ | Del _ => true
  | SetTimeout _ | ConsoleError _ _ => false
  end.

(* ===================================================================== *)
(** * The monad of the proxy *)
(* ===================================================================== *)

Record Store : Type := {
  trace : list Call;
  publicAudioUrl : string      (* [let publicAudioUrl = ''] of the blob variant *)
}.

Definition initial : Store := {| trace := []; publicAudioUrl := "" |}.

(** How a computation ends: it returns, it throws, or the model ran out of
    loop fuel (which [pollVideoStatus_terminates] shows never happens). *)
Inductive outcome (A : Type) : Type :=
| Return (a : A)
| Throw (e : exn)
| OutOfFuel.
Arguments Return {A} a.
Arguments Throw {A} e.
Arguments OutOfFuel {A}.

Definition M (A : Type) : Type := Store -> outcome A * Store.

Definition ret {A} (a : A) : M A := fun s => (Return a, s).
Definition throw {A} (e : exn) : M A := fun s => (Throw e, s).
Definition out_of_fuel {A} : M A := fun s => (OutOfFuel, s).

Definition bind {A B} (m : M A) (k : A -> M B) : M B :=
  fun s =>
    match m s with
    | (Return a, s') => k a s'
    | (Throw e, s') => (Throw e, s')
    | (OutOfFuel, s') => (OutOfFuel, s')
    end.

Declare Scope proxy_scope.
Delimit Scope proxy_scope with proxy.
Notation "x <- m ;; k" := (bind m (fun x => k))
  (at level 61, m at next level, right associativity) : proxy_scope.
Notation "m ;; k" := (bind m (fun _ => k))
  (at level 61, right associativity) : proxy_scope.
Local Open Scope proxy_scope.

(** [try { m } catch (error) { h error }] *)
Definition try_catch {A} (m : M A) (h : exn -> M A) : M A :=
  fun s =>
    match m s with
    | (Throw e, s') => h e s'
    | r => r
    end.

(** [try { m } finally { f }]: [f] runs on every exit of [m]; the exit of
    [m] is kept unless [f] itself exits abruptly. *)
Definition try_finally {A} (m : M A) (f : M unit) : M A :=
  fun s =>
    match m s with
    | (OutOfFuel, s') => (OutOfFuel, s')
    | (r, s') =>
        match f s' with
        | (Return _, s'') => (r, s'')
        | (Throw e, s'') => (Throw e, s'')
        | (OutOfFuel, s'') => (OutOfFuel, s'')
        end
    end.

(** The store after the calls [cs] have been issued. *)
Definition record (s : Store) (cs : list Call) : Store :=
  {| trace := (trace s ++ cs)%list; publicAudioUrl := publicAudioUrl s |}.

Definition emit (c : Call) : M unit :=
  fun s => (Return tt, record s [c]).

Definition set_publicAudioUrl (u : string) : M unit :=
  fun s => (Return tt, {| trace := trace s; publicAudioUrl := u |}).

Definition get_publicAudioUrl : M string :=
  fun s => (Return (publicAudioUrl s), s).

(** [await p] *)
Definition await {A} (p : settled A) : M A :=
  match p with
  | Fulfilled a => ret a
  | Rejected e => throw e
  end.

(** Lifting of the partial operations on values. *)
Definition lift {A} (r : exn + A) : M A :=
  match r with
  | inr a => ret a
  | inl e => throw e
  end.

Definition run {A} (m : M A) : outcome A * Store := m initial.

(* ===================================================================== *)
(** * Constants and primitives shared by the three variants *)
(* ===================================================================== *)

Definition HEYGEN_API_BASE_URL : string := "https://api.heygen.com/v2".
Definition HEYGEN_API_V1_URL : string := "https://api.heygen.com/v1".

(** [export const config = { maxDuration: 300 }], in seconds. *)
Module config.
Definition maxDuration : Z := 300.
End config.

(** [const maxAttempts = 30] and the [setTimeout(resolve, 10000)] delay of
    [pollVideoStatus]. *)
Definition maxAttempts : nat := 30.
Definition pollDelay : Z := 10000.

(** The decimal image of an integer inside a template literal. *)
Definition show_Z (z : Z) : string := NilZero.string_of_int (Z.to_int z).

(** [process.env.NAME] as a value. *)
Definition env_value (o : option string) : JS.value :=
  match o with
  | Some s => JS.Str s
  | None => JS.Undefined
  end.

Definition json_headers (apiKey : JS.value) : list (string * JS.value) :=
  [("X-Api-Key", apiKey); ("Content-Type", JS.Str "application/json")].

(** The body of [POST /avatar/from_image]. *)
Definition avatar_payload (imageBase64 : JS.value) (now : Z) : JS.value :=
  JS.Obj [("base64", imageBase64);
          ("name", JS.Str ("podgen-avatar-" ++ show_Z now))].

(** The body of [POST /video/generate]. *)
Definition generate_payload (avatarId audioUrl : JS.value) : JS.value :=
  JS.Obj
    [("video_inputs",
      JS.Arr [JS.Obj
        [("character", JS.Obj [("type", JS.Str "avatar");
                               ("avatar_id", avatarId);
                               ("avatar_style", JS.Str "normal")]);
         ("voice", JS.Obj [("type", JS.Str "audio");
                           ("audio_url", audioUrl)])]]);
     ("test", JS.Bool true);
     ("dimension", JS.Obj [("width", JS.Num true "1280");
                           ("height", JS.Num true "720")])].

Definition status_url (videoId : string) : string :=
  HEYGEN_API_V1_URL ++ "/video_status.get?video_id=" ++ videoId.

(** The call [pollVideoStatus] issues on every attempt. *)
Definition status_call (videoId : string) (apiKey : JS.value) : Call :=
  Fetch (status_url videoId) "GET" [("X-Api-Key", apiKey)] None.

Section Proxy.

Variable w : World.

(** [await fetch(url, { method, headers, body })] against endpoint [ep]. *)
Definition fetch (ep : endpoint) (url meth : string)
    (hdrs : list (string * JS.value)) (payload : option JS.value)
  : M HttpResponse :=
  emit (Fetch url meth hdrs payload) ;;
  await (heygen w ep).

(** [await new Promise(resolve => setTimeout(resolve, ms))] *)
Definition sleep (ms : Z) : M unit := emit (SetTimeout ms).

(* ===================================================================== *)
(** * pollVideoStatus *)
(* ===================================================================== *)

(** The [while] loop of [pollVideoStatus].  It returns the values of
    [status] and [videoUrl] on leaving the loop (by the test or by [break]).
    [fuel] bounds the iterations of the model only. *)
Fixpoint poll_loop (fuel : nat) (videoId apiKey : JS.value)
    (status videoUrl : JS.value) (attempt : nat) : M (JS.value * JS.value) :=
  if negb (JS.is_str status "succeeded") && (attempt <? maxAttempts)%nat then
    match fuel with
    | O => out_of_fuel
    | S fuel' =>
        let attempt := S attempt in
        id <- lift (JS.to_string videoId) ;;
        response <- fetch (VideoStatusGet attempt) (status_url id) "GET"
                          [("X-Api-Key", apiKey)] None ;;
        if negb (ok response) then
          errorBody <- await (json response) ;;
          message <- lift (JS.get errorBody "message") ;;
          shown <- lift (JS.to_string
                           (JS.or message (JS.Str (statusText response)))) ;;
          throw (Error ("HeyGen status check failed: " ++ shown))
        else
          data <- await (json response) ;;
          data_data <- lift (JS.get data "data") ;;
          status <- lift (JS.get data_data "status") ;;
          if JS.is_str status "succeeded" then
            videoUrl <- lift (JS.get data_data "video_url") ;;
            ret (status, videoUrl)                                  (* break *)
          else if JS.is_str status "failed" then
            error <- lift (JS.get data_data "error") ;;
            message <- lift (JS.get_opt error "message") ;;
            shown <- lift (JS.to_string
                             (JS.or message (JS.Str "Unknown error"))) ;;
            throw (Error ("HeyGen video generation failed: " ++ shown))
          else
            sleep pollDelay ;;
            poll_loop fuel' videoId apiKey status videoUrl attempt
    end
  else ret (status, videoUrl).

Definition pollVideoStatus (videoId apiKey : JS.value) : M JS.value :=
  let status := JS.Str "" in
  let videoUrl := JS.Str "" in
  let attempt := O in
  r <- poll_loop maxAttempts videoId apiKey status videoUrl attempt ;;
  let '(status, videoUrl) := r in
  if negb (JS.is_str status "succeeded") then
    throw (Error "HeyGen video generation timed out.")
  else ret videoUrl.

(** Steps 1 to 3, which the three handlers contain word for word (but for
    the name of the variable that holds the audio URL): create the avatar,
    submit the video, poll.  [nowIdx] is the ordinal of the [Date.now()]
    reading used for the avatar name. *)
Definition generate_video (imageBase64 audioUrl apiKey : JS.value)
    (nowIdx : nat) : M JS.value :=
  (* Step 1: Create Avatar from image *)
  avatarResponse <- fetch AvatarFromImage
      (HEYGEN_API_BASE_URL ++ "/avatar/from_image") "POST"
      (json_headers apiKey)
      (Some (avatar_payload imageBase64 (Date_now w nowIdx))) ;;
  (if negb (ok avatarResponse) then
     errorText <- await (text avatarResponse) ;;
     throw (Error ("HeyGen avatar creation failed: " ++ errorText))
   else ret tt) ;;
  avatarData <- await (json avatarResponse) ;;
  avatarData_data <- lift (JS.get avatarData "data") ;;
  avatarId <- lift (JS.get avatarData_data "avatar_id") ;;
  (* Step 2: Generate video with avatar and audio *)
  videoGenResponse <- fetch VideoGenerate
      (HEYGEN_API_BASE_URL ++ "/video/generate") "POST"
      (json_headers apiKey)
      (Some (generate_payload avatarId audioUrl)) ;;
  (if negb (ok videoGenResponse) then
     errorText <- await (text videoGenResponse) ;;
     throw (Error ("HeyGen video generation failed: " ++ errorText))
   else ret tt) ;;
  videoGenData <- await (json videoGenResponse) ;;
  videoGenData_data <- lift (JS.get videoGenData "data") ;;
  videoId <- lift (JS.get videoGenData_data "video_id") ;;
  (* Step 3: Poll for video status and get URL *)
  pollVideoStatus videoId apiKey.

End Proxy.

(* ===================================================================== *)
(** * The three variants of the proxy *)
(* ===================================================================== *)

(** Every [new Response(...)] of the source is written out where it stands;
    the status of a [Response] defaults to 200. *)

(** ** api/heygen-proxy.ts, audio given as a URL *)
Module Vercel.

Definition missing_key : string :=
  "HeyGen API key is not configured on the server. Please set the HEYGEN_API_KEY environment variable in your Vercel project.".

Definition missing_input : string := "Missing imageBase64 or audioUrl".

Definition handler (w : World) (req : Request) : M Response :=
  if method req =? "OPTIONS" then
    ret {| status := 200;
           headers := [("Access-Control-Allow-Origin", "*");
                       ("Access-Control-Allow-Methods", "POST, OPTIONS");
                       ("Access-Control-Allow-Headers", "Content-Type")];
           body := BodyText "ok" |}
  else if negb (method req =? "POST") then
    ret {| status := 405;
           headers := [("Content-Type", "application/json");
                       ("Access-Control-Allow-Origin", "*")];
           body := BodyJson (JS.Obj [("error", JS.Str "Method not allowed")]) |}
  else
    try_catch
      (reqBody <- await (req_json req) ;;
       imageBase64 <- lift (JS.get reqBody "imageBase64") ;;
       audioUrl <- lift (JS.get reqBody "audioUrl") ;;
       let apiKey := env_value (env_HEYGEN_API_KEY w) in
       if negb (JS.truthy apiKey) then
         ret {| status := 500;
                headers := [("Content-Type", "application/json");
                            ("Access-Control-Allow-Origin", "*")];
                body := BodyJson (JS.Obj [("error", JS.Str missing_key)]) |}
       else if negb (JS.truthy imageBase64) || negb (JS.truthy audioUrl) then
         ret {| status := 400;
                headers := [("Content-Type", "application/json");
                            ("Access-Control-Allow-Origin", "*")];
                body := BodyJson (JS.Obj [("error", JS.Str missing_input)]) |}
       else
         finalVideoUrl <- generate_video w imageBase64 audioUrl apiKey 0 ;;
         ret {| status := 200;
                headers := [("Content-Type", "application/json");
                            ("Access-Control-Allow-Origin", "*")];
                body := BodyJson (JS.Obj [("videoUrl", finalVideoUrl)]) |})
      (fun error =>
         emit (ConsoleError "Error in Vercel function:" error) ;;
         ret {| status := 500;
                headers := [("Content-Type", "application/json");
                            ("Access-Control-Allow-Origin", "*")];
                body := BodyError error |}).

End Vercel.

(** ** api/heygen-proxy.ts, audio staged in Vercel Blob storage *)
Module VercelBlob.

Definition missing_key : string :=
  "HeyGen API key is not configured. Set HEYGEN_API_KEY in Vercel environment variables.".

Definition missing_blob : string :=
  "Vercel Blob storage is not configured. Please enable it for your project.".

Definition missing_input : string := "Missing imageBase64 or audioBase64".

(** The [try] block. *)
Definition attempt (w : World) (req : Request) : M Response :=
  reqBody <- await (req_json req) ;;
  imageBase64 <- lift (JS.get reqBody "imageBase64") ;;
  audioBase64 <- lift (JS.get reqBody "audioBase64") ;;
  let apiKey := env_value (env_HEYGEN_API_KEY w) in
  if negb (JS.truthy apiKey) then
    ret {| status := 500;
           headers := [("Content-Type", "application/json");
                       ("Access-Control-Allow-Origin", "*")];
           body := BodyJson (JS.Obj [("error", JS.Str missing_key)]) |}
  else if negb (JS.truthy (env_value (env_BLOB_READ_WRITE_TOKEN w))) then
    ret {| status := 500;
           headers := [("Content-Type", "application/json");
                       ("Access-Control-Allow-Origin", "*")];
           body := BodyJson (JS.Obj [("error", JS.Str missing_blob)]) |}
  else if negb (JS.truthy imageBase64) || negb (JS.truthy audioBase64) then
    ret {| status := 400;
           headers := [("Content-Type", "application/json");
                       ("Access-Control-Allow-Origin", "*")];
           body := BodyJson (JS.Obj [("error", JS.Str missing_input)]) |}
  else
    (* Step 0: Upload audio to a public URL using Vercel Blob *)
    audioBuffer <- lift (Buffer_from w audioBase64) ;;
    emit (Put ("podcast-audio-" ++ show_Z (Date_now w 0) ++ ".wav")
              audioBuffer "public" "audio/wav") ;;
    audioBlob_url <- await (blob_put w) ;;
    set_publicAudioUrl audioBlob_url ;;
    publicAudioUrl <- get_publicAudioUrl ;;
    finalVideoUrl <- generate_video w imageBase64 (JS.Str publicAudioUrl) apiKey 1 ;;
    ret {| status := 200;
           headers := [("Content-Type", "application/json");
                       ("Access-Control-Allow-Origin", "*")];
           body := BodyJson (JS.Obj [("videoUrl", finalVideoUrl)]) |}.

(** The [catch] block. *)
Definition recover (error : exn) : M Response :=
  emit (ConsoleError "Error in Vercel function:" error) ;;
  ret {| status := 500;
         headers := [("Content-Type", "application/json");
                     ("Access-Control-Allow-Origin", "*")];
         body := BodyError error |}.

(** The [finally] block.
    Step 4: Clean up the uploaded audio file from Vercel Blob. *)
Definition cleanup (w : World) : M unit :=
  publicAudioUrl <- get_publicAudioUrl ;;
  if negb (publicAudioUrl =? "") then
    try_catch
      (emit (Del publicAudioUrl) ;; await (blob_del w))
      (fun cleanupError =>
         emit (ConsoleError "Failed to clean up audio blob:" cleanupError))
  else ret tt.

Definition handler (w : World) (req : Request) : M Response :=
  if method req =? "OPTIONS" then
    ret {| status := 200;
           headers := [("Access-Control-Allow-Origin", "*");
                       ("Access-Control-Allow-Methods", "POST, OPTIONS");
                       ("Access-Control-Allow-Headers", "Content-Type")];
           body := BodyText "ok" |}
  else if negb (method req =? "POST") then
    ret {| status := 405;
           headers := [("Content-Type", "application/json");
                       ("Access-Control-Allow-Origin", "*")];
           body := BodyJson (JS.Obj [("error", JS.Str "Method not allowed")]) |}
  else
    set_publicAudioUrl "" ;;
    try_finally (try_catch (attempt w req) recover) (cleanup w).

End VercelBlob.

(** ** supabase/functions/heygen-proxy/index.ts *)
Module Supabase.

Definition corsHeaders : list (string * string) :=
  [("Access-Control-Allow-Origin", "*");
   ("Access-Control-Allow-Headers", "authorization, x-client-info, apikey, content-type")].

Definition with_json (h : list (string * string)) : list (string * string) :=
  (h ++ [("Content-Type", "application/json")])%list.

Definition missing_input : string := "Missing imageBase64, audioUrl, or apiKey".

(** The callback handed to [serve]. *)
Definition serve (w : World) (req : Request) : M Response :=
  if method req =? "OPTIONS" then
    ret {| status := 200; headers := corsHeaders; body := BodyText "ok" |}
  else
    try_catch
      (reqBody <- await (req_json req) ;;
       imageBase64 <- lift (JS.get reqBody "imageBase64") ;;
       audioUrl <- lift (JS.get reqBody "audioUrl") ;;
       apiKey <- lift (JS.get reqBody "apiKey") ;;
       if negb (JS.truthy imageBase64) || negb (JS.truthy audioUrl)
          || negb (JS.truthy apiKey)
       then ret {| status := 400; headers := with_json corsHeaders;
                   body := BodyJson (JS.Obj [("error", JS.Str missing_input)]) |}
       else
         finalVideoUrl <- generate_video w imageBase64 audioUrl apiKey 0 ;;
         ret {| status := 200; headers := with_json corsHeaders;
                body := BodyJson (JS.Obj [("videoUrl", finalVideoUrl)]) |})
      (fun error =>
         emit (ConsoleError "Error in Supabase function:" error) ;;
         ret {| status := 500; headers := with_json corsHeaders;
                body := BodyError error |}).

End Supabase.

(* ===================================================================== *)
(** * Vocabulary of the statements *)
(* ===================================================================== *)

(** ** What a reply of HeyGen parses to *)

(** [data.data] of a 2xx reply whose body is JSON. *)
Definition parsed_data (r : settled HttpResponse) : option JS.value :=
  match r with
  | Fulfilled response =>
      if ok response then
        match json response with
        | Fulfilled data =>
            match JS.get data "data" with
            | inr d => Some d
            | inl _ => None
            end
        | Rejected _ => None
        end
      else None
  | Rejected _ => None
  end.

(** [data.data.field] of such a reply. *)
Definition parsed (r : settled HttpResponse) (field : string) : option JS.value :=
  match parsed_data r with
  | Some d =>
      match JS.get d field with
      | inr v => Some v
      | inl _ => None
      end
  | None => None
  end.

(** The reply parses to a status that is neither 'succeeded' nor 'failed'. *)
Definition processing (r : settled HttpResponse) : bool :=
  match parsed r "status" with
  | Some st => negb (JS.is_str st "succeeded") && negb (JS.is_str st "failed")
  | None => false
  end.

(** [data.data.error?.message] of a 2xx reply. *)
Definition reported_message (r : settled HttpResponse) : option JS.value :=
  match parsed r "error" with
  | Some error =>
      match JS.get_opt error "message" with
      | inr message => Some message
      | inl _ => None
      end
  | None => None
  end.

(** What the [!response.ok] branch of [pollVideoStatus] throws. *)
Definition status_check_error (response : HttpResponse) : exn :=
  match json response with
  | Rejected e => e
  | Fulfilled errorBody =>
      match JS.get errorBody "message" with
      | inl e => e
      | inr message =>
          match JS.to_string (JS.or message (JS.Str (statusText response))) with
          | inl e => e
          | inr shown => Error ("HeyGen status check failed: " ++ shown)
          end
      end
  end.

(** What the [status === 'failed'] branch throws, given [data.data]. *)
Definition job_failed_error (data_data : JS.value) : exn :=
  match JS.get data_data "error" with
  | inl e => e
  | inr error =>
      match JS.get_opt error "message" with
      | inl e => e
      | inr message =>
          match JS.to_string (JS.or message (JS.Str "Unknown error")) with
          | inl e => e
          | inr shown => Error ("HeyGen video generation failed: " ++ shown)
          end
      end
  end.

(** How [pollVideoStatus] ends when reply [r] is the one that ends the
    loop; [None] when [r] only makes the loop go round once more. *)
Definition last_attempt (r : settled HttpResponse) : option (outcome JS.value) :=
  match r with
  | Rejected e => Some (Throw e)
  | Fulfilled response =>
      if negb (ok response) then Some (Throw (status_check_error response))
      else
        match json response with
        | Rejected e => Some (Throw e)
        | Fulfilled data =>
            match JS.get data "data" with
            | inl e => Some (Throw e)
            | inr d =>
                match JS.get d "status" with
                | inl e => Some (Throw e)
                | inr st =>
                    if JS.is_str st "succeeded" then
                      match JS.get d "video_url" with
                      | inl e => Some (Throw e)
                      | inr videoUrl => Some (Return videoUrl)
                      end
                    else if JS.is_str st "failed" then
                      Some (Throw (job_failed_error d))
                    else None
                end
            end
        end
  end.

(** ** Traces *)

(** [n] rounds of the loop that found the job still processing. *)
Fixpoint ticks (id : string) (apiKey : JS.value) (n : nat) : list Call :=
  match n with
  | O => []
  | S n' => status_call id apiKey :: SetTimeout pollDelay :: ticks id apiKey n'
  end.

Definition is_status_check (c : Call) : bool :=
  match c with
  | Fetch url _ _ _ => prefix (HEYGEN_API_V1_URL ++ "/video_status.get") url
  | _ => false
  end.

(** The number of status checks of a trace. *)
Definition status_checks (t : list Call) : nat :=
  length (filter is_status_check t).

(** The delays of a trace, in milliseconds. *)
Definition delays (t : list Call) : list Z :=
  flat_map (fun c => match c with SetTimeout ms => [ms] | _ => [] end) t.

(** The deletions of a trace. *)
Definition dels (t : list Call) : list string :=
  flat_map (fun c => match c with Del u => [u] | _ => [] end) t.

Definition is_put (c : Call) : bool :=
  match c with Put _ _ _ _ => true | _ => false end.

(** An upload to the blob store was started. *)
Definition staged (t : list Call) : bool := existsb is_put t.

Definition network_calls (t : list Call) : list Call := filter is_network t.

Definition avatar_call (apiKey imageBase64 : JS.value) (now : Z) : Call :=
  Fetch (HEYGEN_API_BASE_URL ++ "/avatar/from_image") "POST"
        (json_headers apiKey) (Some (avatar_payload imageBase64 now)).

Definition generate_call (apiKey avatarId audioUrl : JS.value) : Call :=
  Fetch (HEYGEN_API_BASE_URL ++ "/video/generate") "POST"
        (json_headers apiKey) (Some (generate_payload avatarId audioUrl)).

(** Calls that go to HeyGen or to the timer: all that [generate_video]
    may do. *)
Definition heygen_call (c : Call) : bool :=
  match c with
  | Fetch _ _ _ _ | SetTimeout _ => true
  | _ => false
  end.

(** A computation that ends, leaves [publicAudioUrl] alone and only talks
    to HeyGen and the timer. *)
Definition quiet {A} (m : M A) : Prop :=
  forall s, exists o cs,
    m s = (o, record s cs) /\ o <> OutOfFuel /\ forallb heygen_call cs = true.

(** What the [finally] block of the blob variant does when [publicAudioUrl]
    holds [url]. *)
Definition cleanup_calls (w : World) (url : string) : list Call :=
  if url =? "" then []
  else Del url ::
       match blob_del w with
       | Fulfilled _ => []
       | Rejected e => [ConsoleError "Failed to clean up audio blob:" e]
       end.

(** ** Requests, configuration and responses *)

(** [process.env.NAME] is set to a non-empty string. *)
Definition configured (o : option string) : bool := JS.truthy (env_value o).

(** The responses of the two Vercel variants as the caller receives them:
    status, headers and body. *)
Definition cors_json : list (string * string) :=
  [("Content-Type", "application/json"); ("Access-Control-Allow-Origin", "*")].

(** The answer to the CORS preflight. *)
Definition preflight : Response :=
  {| status := 200;
     headers := [("Access-Control-Allow-Origin", "*");
                 ("Access-Control-Allow-Methods", "POST, OPTIONS");
                 ("Access-Control-Allow-Headers", "Content-Type")];
     body := BodyText "ok" |}.

Definition method_not_allowed : Response :=
  {| status := 405; headers := cors_json;
     body := BodyJson (JS.Obj [("error", JS.Str "Method not allowed")]) |}.

(** Status [st] with the body [{ error: message }]. *)
Definition error_response (st : Z) (message : string) : Response :=
  {| status := st; headers := cors_json;
     body := BodyJson (JS.Obj [("error", JS.Str message)]) |}.

(** Status 500 with the body [{ error: error.message }]. *)
Definition caught_response (error : exn) : Response :=
  {| status := 500; headers := cors_json; body := BodyError error |}.

(** Status 200 with the body [{ videoUrl: finalVideoUrl }]. *)
Definition video_response (finalVideoUrl : JS.value) : Response :=
  {| status := 200; headers := cors_json;
     body := BodyJson (JS.Obj [("videoUrl", finalVideoUrl)]) |}.

(** The response a Vercel handler builds from the way steps 1 to 3 end. *)
Definition vercel_response (o : outcome JS.value) : outcome Response :=
  match o with
  | Return finalVideoUrl => Return (video_response finalVideoUrl)
  | Throw error => Return (caught_response error)
  | OutOfFuel => OutOfFuel
  end.

Definition vercel_log (o : outcome JS.value) : list Call :=
  match o with
  | Throw error => [ConsoleError "Error in Vercel function:" error]
  | _ => []
  end.

(** What the URL variant answers to a submission it does not act upon. *)
Definition vercel_refusal (w : World) : Response :=
  if configured (env_HEYGEN_API_KEY w)
  then error_response 400 Vercel.missing_input
  else error_response 500 Vercel.missing_key.

(** The same for the blob variant. *)
Definition blob_refusal (w : World) : Response :=
  if configured (env_HEYGEN_API_KEY w) then
    if configured (env_BLOB_READ_WRITE_TOKEN w)
    then error_response 400 VercelBlob.missing_input
    else error_response 500 VercelBlob.missing_blob
  else error_response 500 VercelBlob.missing_key.

(** A submission the blob variant accepts: POST, a JSON body with both
    inputs, audio that decodes. *)
Definition valid_blob_request (w : World) (req : Request) : Prop :=
  method req = "POST" /\
  exists reqBody imageBase64 audioBase64,
    req_json req = Fulfilled reqBody /\
    JS.get reqBody "imageBase64" = inr imageBase64 /\
    JS.get reqBody "audioBase64" = inr audioBase64 /\
    JS.truthy imageBase64 = true /\ JS.truthy audioBase64 = true /\
    exists audioBuffer, Buffer_from w audioBase64 = inr audioBuffer.

(** HeyGen creates the avatar and the job [videoId], finds the job
    processing on the checks before the [N]-th and reports it succeeded on
    the [N]-th, in a reply whose [video_url] is [videoUrl] ([undefined] when
    the reply has none). *)
Definition job_succeeds (w : World) (videoId : string) (N : nat)
    (videoUrl : JS.value) : Prop :=
  (exists avatarId,
     parsed (heygen w AvatarFromImage) "avatar_id" = Some avatarId) /\
  parsed (heygen w VideoGenerate) "video_id" = Some (JS.Str videoId) /\
  (1 <= N <= maxAttempts)%nat /\
  (forall i, (1 <= i < N)%nat ->
             processing (heygen w (VideoStatusGet i)) = true) /\
  parsed (heygen w (VideoStatusGet N)) "status" = Some (JS.Str "succeeded") /\
  parsed (heygen w (VideoStatusGet N)) "video_url" = Some videoUrl.

(** ** Sample worlds and requests *)

Definition ok_json (v : JS.value) : HttpResponse :=
  {| ok := true; statusText := "OK";
     text := Rejected (TypeError "Body is unusable"); json := Fulfilled v |}.

Definition not_ok (statusText body : string) (parsedBody : settled JS.value)
  : HttpResponse :=
  {| ok := false; statusText := statusText;
     text := Fulfilled body; json := parsedBody |}.

Definition data_of (props : list (string * JS.value)) : JS.value :=
  JS.Obj [("data", JS.Obj props)].

Definition still_processing : settled HttpResponse :=
  Fulfilled (ok_json (data_of [("status", JS.Str "processing")])).

(** [Buffer.from(s, 'base64')] on a string: a character outside the two
    alphabets is skipped, ['='] ends the data, and the bits that do not fill
    a byte are dropped. *)
Definition sextet (c : ascii) : option N :=
  let n := N_of_ascii c in
  if ((65 <=? n) && (n <=? 90))%N then Some (n - 65)%N
  else if ((97 <=? n) && (n <=? 122))%N then Some (n - 71)%N
  else if ((48 <=? n) && (n <=? 57))%N then Some (n + 4)%N
  else if ((n =? 43) || (n =? 45))%N then Some 62%N
  else if ((n =? 47) || (n =? 95))%N then Some 63%N
  else None.

Fixpoint sextets (s : string) : list N :=
  match s with
  | EmptyString => []
  | String c rest =>
      if (N_of_ascii c =? 61)%N then []
      else match sextet c with
           | Some v => v :: sextets rest
           | None => sextets rest
           end
  end.

Fixpoint octets (l : list N) : list N :=
  match l with
  | a :: b :: c :: d :: rest =>
      (a * 4 + b / 16)%N :: ((b mod 16) * 16 + c / 4)%N
        :: ((c mod 4) * 64 + d)%N :: octets rest
  | [a; b; c] => [(a * 4 + b / 16)%N; ((b mod 16) * 16 + c / 4)%N]
  | [a; b] => [(a * 4 + b / 16)%N]
  | _ => []
  end.

(** The decoder of the sample worlds; a number or a boolean is refused with
    a TypeError. *)
Definition decode_base64 (v : JS.value) : exn + Buffer :=
  match v with
  | JS.Str s => inr (octets (sextets s))
  | _ => inl (TypeError "The first argument must be of type string")
  end.

(** A world in which the upload works and the deletion fails. *)
Definition world_of (key token : option string)
    (replies : endpoint -> settled HttpResponse) : World :=
  {| env_HEYGEN_API_KEY := key;
     env_BLOB_READ_WRITE_TOKEN := token;
     Date_now := fun n => (1700000000000 + Z.of_nat n)%Z;
     heygen := replies;
     Buffer_from := decode_base64;
     blob_put := Fulfilled "https://store/ex1.wav";
     blob_del := Rejected (Foreign "blob not found") |}.

Definition created (ep : endpoint) (status : nat -> settled HttpResponse)
  : settled HttpResponse :=
  match ep with
  | AvatarFromImage =>
      Fulfilled (ok_json (data_of [("avatar_id", JS.Str "avatar_42")]))
  | VideoGenerate =>
      Fulfilled (ok_json (data_of [("video_id", JS.Str "job_7")]))
  | VideoStatusGet k => status k
  end.

(** processing, processing, succeeded *)
Definition scenario : World :=
  world_of (Some "key") (Some "token")
    (fun ep => created ep (fun k =>
       match k with
       | 3 => Fulfilled (ok_json (data_of
                [("status", JS.Str "succeeded");
                 ("video_url", JS.Str "https://cdn/out.mp4")]))
       | _ => still_processing
       end)).

(** processing, processing, succeeded, in a reply without [video_url] *)
Definition no_result_url : World :=
  world_of (Some "key") (Some "token")
    (fun ep => created ep (fun k =>
       match k with
       | 3 => Fulfilled (ok_json (data_of [("status", JS.Str "succeeded")]))
       | _ => still_processing
       end)).

(** processing, failed *)
Definition failing : World :=
  world_of (Some "key") (Some "token")
    (fun ep => created ep (fun k =>
       match k with
       | 2 => Fulfilled (ok_json (data_of
                [("status", JS.Str "failed");
                 ("error", JS.Obj [("message", JS.Str "quota exceeded")])]))
       | _ => still_processing
       end)).

(** processing for ever *)
Definition never_done : World :=
  world_of (Some "key") (Some "token")
    (fun ep => created ep (fun _ => still_processing)).

(** A gateway in front of the status endpoint answers 502 with an HTML
    page, which is not JSON. *)
Definition bad_gateway : World :=
  world_of (Some "key") (Some "token")
    (fun ep => created ep (fun _ =>
       Fulfilled (not_ok "Bad Gateway" "<html>502 Bad Gateway</html>"
                         (Rejected SyntaxError)))).

(** HeyGen refuses the image. *)
Definition invalid_image : World :=
  world_of (Some "key") (Some "token")
    (fun ep =>
       match ep with
       | AvatarFromImage =>
           Fulfilled (not_ok "Bad Request" "invalid image" (Rejected SyntaxError))
       | _ => still_processing
       end).

(** Neither HEYGEN_API_KEY nor BLOB_READ_WRITE_TOKEN is set. *)
Definition unconfigured : World :=
  world_of None None (fun ep => created ep (fun _ => still_processing)).

Definition full_body : JS.value :=
  JS.Obj [("imageBase64", JS.Str "IMG"); ("audioBase64", JS.Str "AUD");
          ("audioUrl", JS.Str "https://host/audio.wav");
          ("apiKey", JS.Str "key")].

Definition no_image_body : JS.value :=
  JS.Obj [("audioBase64", JS.Str "AUD");
          ("audioUrl", JS.Str "https://host/audio.wav")].

Definition full_request : Request :=
  {| method := "POST"; req_json := Fulfilled full_body |}.

Definition no_image_request : Request :=
  {| method := "POST"; req_json := Fulfilled no_image_body |}.

Definition put_request : Request :=
  {| method := "PUT"; req_json := Fulfilled full_body |}.

(** ** Tactics *)

Ltac monad_unfold :=
  unfold fetch, sleep, set_publicAudioUrl, get_publicAudioUrl;
  unfold bind, try_catch, emit, await, lift, ret, throw, out_of_fuel;
  cbn beta iota.

Ltac by_eq H := rewrite H; cbn beta iota.

Ltac post_only H :=
  rewrite H; cbn [String.eqb Ascii.eqb Bool.eqb negb].

(* ===================================================================== *)
(** * Every run of a handler *)
(* ===================================================================== *)

(** The vocabulary of the statements that hold for every request and every
    world: where the polling loop stops, what the destructuring of the
    request body gives, and, for each variant, the list of the ways a run
    can go. *)

(** The first attempt after [from], among the next [n], whose reply does not
    leave the job processing. *)
Fixpoint first_terminal (w : World) (n from : nat) : option nat :=
  match n with
  | O => None
  | S n' =>
      if processing (heygen w (VideoStatusGet (S from)))
      then first_terminal w n' (S from)
      else Some (S from)
  end.

(** What [await req.json()] followed by the destructuring of the fields
    [fields] gives: the values of the fields, or what is thrown. *)
Fixpoint read_fields (body : JS.value) (fields : list string) : exn + list JS.value :=
  match fields with
  | [] => inr []
  | f :: rest =>
      match JS.get body f with
      | inl e => inl e
      | inr v =>
          match read_fields body rest with
          | inl e => inl e
          | inr vs => inr (v :: vs)
          end
      end
  end.

Definition read_request (req : Request) (fields : list string) : exn + list JS.value :=
  match req_json req with
  | Rejected e => inl e
  | Fulfilled body => read_fields body fields
  end.

(** Every run of the URL variant is one of these. *)
Inductive vercel_run (w : World) (req : Request) : outcome Response * Store -> Prop :=
| vercel_run_preflight :
    method req = "OPTIONS" ->
    vercel_run w req (Return preflight, initial)
| vercel_run_verb :
    method req <> "OPTIONS" -> method req <> "POST" ->
    vercel_run w req (Return method_not_allowed, initial)
| vercel_run_unreadable e :
    method req = "POST" ->
    read_request req ["imageBase64"; "audioUrl"] = inl e ->
    vercel_run w req
      (Return (caught_response e),
       record initial [ConsoleError "Error in Vercel function:" e])
| vercel_run_refused imageBase64 audioUrl :
    method req = "POST" ->
    read_request req ["imageBase64"; "audioUrl"] = inr [imageBase64; audioUrl] ->
    configured (env_HEYGEN_API_KEY w) = false \/
    JS.truthy imageBase64 = false \/ JS.truthy audioUrl = false ->
    vercel_run w req (Return (vercel_refusal w), initial)
| vercel_run_generated imageBase64 audioUrl o s' :
    method req = "POST" ->
    read_request req ["imageBase64"; "audioUrl"] = inr [imageBase64; audioUrl] ->
    configured (env_HEYGEN_API_KEY w) = true ->
    JS.truthy imageBase64 = true -> JS.truthy audioUrl = true ->
    generate_video w imageBase64 audioUrl (env_value (env_HEYGEN_API_KEY w)) 0
      initial = (o, s') ->
    o <> OutOfFuel ->
    vercel_run w req (vercel_response o, record s' (vercel_log o)).

Definition put_call (w : World) (audioBuffer : Buffer) : Call :=
  Put ("podcast-audio-" ++ show_Z (Date_now w 0) ++ ".wav")
      audioBuffer "public" "audio/wav".

(** The store once the upload is fulfilled with [url]. *)
Definition staged_store (w : World) (audioBuffer : Buffer) (url : string) : Store :=
  {| trace := [put_call w audioBuffer]; publicAudioUrl := url |}.

(** Every run of the blob variant is one of these. *)
Inductive blob_run (w : World) (req : Request) : outcome Response * Store -> Prop :=
| blob_run_preflight :
    method req = "OPTIONS" ->
    blob_run w req (Return preflight, initial)
| blob_run_verb :
    method req <> "OPTIONS" -> method req <> "POST" ->
    blob_run w req (Return method_not_allowed, initial)
| blob_run_unreadable e :
    method req = "POST" ->
    read_request req ["imageBase64"; "audioBase64"] = inl e ->
    blob_run w req
      (Return (caught_response e),
       record initial [ConsoleError "Error in Vercel function:" e])
| blob_run_refused imageBase64 audioBase64 :
    method req = "POST" ->
    read_request req ["imageBase64"; "audioBase64"] = inr [imageBase64; audioBase64] ->
    configured (env_HEYGEN_API_KEY w) = false \/
    configured (env_BLOB_READ_WRITE_TOKEN w) = false \/
    JS.truthy imageBase64 = false \/ JS.truthy audioBase64 = false ->
    blob_run w req (Return (blob_refusal w), initial)
| blob_run_undecodable imageBase64 audioBase64 e :
    method req = "POST" ->
    read_request req ["imageBase64"; "audioBase64"] = inr [imageBase64; audioBase64] ->
    configured (env_HEYGEN_API_KEY w) = true ->
    configured (env_BLOB_READ_WRITE_TOKEN w) = true ->
    JS.truthy imageBase64 = true -> JS.truthy audioBase64 = true ->
    Buffer_from w audioBase64 = inl e ->
    blob_run w req
      (Return (caught_response e),
       record initial [ConsoleError "Error in Vercel function:" e])
| blob_run_upload_rejected imageBase64 audioBase64 audioBuffer e :
    method req = "POST" ->
    read_request req ["imageBase64"; "audioBase64"] = inr [imageBase64; audioBase64] ->
    configured (env_HEYGEN_API_KEY w) = true ->
    configured (env_BLOB_READ_WRITE_TOKEN w) = true ->
    JS.truthy imageBase64 = true -> JS.truthy audioBase64 = true ->
    Buffer_from w audioBase64 = inr audioBuffer ->
    blob_put w = Rejected e ->
    blob_run w req
      (Return (caught_response e),
       record initial [put_call w audioBuffer;
                       ConsoleError "Error in Vercel function:" e])
| blob_run_staged imageBase64 audioBase64 audioBuffer url o cs :
    method req = "POST" ->
    read_request req ["imageBase64"; "audioBase64"] = inr [imageBase64; audioBase64] ->
    configured (env_HEYGEN_API_KEY w) = true ->
    configured (env_BLOB_READ_WRITE_TOKEN w) = true ->
    JS.truthy imageBase64 = true -> JS.truthy audioBase64 = true ->
    Buffer_from w audioBase64 = inr audioBuffer ->
    blob_put w = Fulfilled url ->
    generate_video w imageBase64 (JS.Str url) (env_value (env_HEYGEN_API_KEY w)) 1
      (staged_store w audioBuffer url)
      = (o, record (staged_store w audioBuffer url) cs) ->
    o <> OutOfFuel ->
    blob_run w req
      (vercel_response o,
       record (staged_store w audioBuffer url)
              (cs ++ vercel_log o ++ cleanup_calls w url)).

Definition supabase_response (st : Z) (b : Body) : Response :=
  {| status := st; headers := Supabase.with_json Supabase.corsHeaders; body := b |}.

Definition supabase_preflight_response : Response :=
  {| status := 200; headers := Supabase.corsHeaders; body := BodyText "ok" |}.

Definition supabase_outcome (o : outcome JS.value) : outcome Response :=
  match o with
  | Return finalVideoUrl =>
      Return (supabase_response 200 (BodyJson (JS.Obj [("videoUrl", finalVideoUrl)])))
  | Throw error => Return (supabase_response 500 (BodyError error))
  | OutOfFuel => OutOfFuel
  end.

Definition supabase_log (o : outcome JS.value) : list Call :=
  match o with
  | Throw error => [ConsoleError "Error in Supabase function:" error]
  | _ => []
  end.

(** Every run of the Supabase variant is one of these. *)
Inductive supabase_run (w : World) (req : Request) : outcome Response * Store -> Prop :=
| supabase_run_preflight :
    method req = "OPTIONS" ->
    supabase_run w req (Return supabase_preflight_response, initial)
| supabase_run_unreadable e :
    method req <> "OPTIONS" ->
    read_request req ["imageBase64"; "audioUrl"; "apiKey"] = inl e ->
    supabase_run w req
      (Return (supabase_response 500 (BodyError e)),
       record initial [ConsoleError "Error in Supabase function:" e])
| supabase_run_refused imageBase64 audioUrl apiKey :
    method req <> "OPTIONS" ->
    read_request req ["imageBase64"; "audioUrl"; "apiKey"]
      = inr [imageBase64; audioUrl; apiKey] ->
    JS.truthy imageBase64 = false \/ JS.truthy audioUrl = false \/
    JS.truthy apiKey = false ->
    supabase_run w req
      (Return (supabase_response 400
                 (BodyJson (JS.Obj [("error", JS.Str Supabase.missing_input)]))),
       initial)
| supabase_run_generated imageBase64 audioUrl apiKey o s' :
    method req <> "OPTIONS" ->
    read_request req ["imageBase64"; "audioUrl"; "apiKey"]
      = inr [imageBase64; audioUrl; apiKey] ->
    JS.truthy imageBase64 = true -> JS.truthy audioUrl = true ->
    JS.truthy apiKey = true ->
    generate_video w imageBase64 audioUrl apiKey 0 initial = (o, s') ->
    o <> OutOfFuel ->
    supabase_run w req (supabase_outcome o, record s' (supabase_log o)).

(** The run ends with a response whose status is one of [codes]. *)
Definition answered (r : outcome Response * Store) (codes : list Z) : Prop :=
  exists resp, fst r = Return resp /\ In (status resp) codes.

(** A trace within the budget of one invocation: at most 30 status checks,
    at most [n] network calls, and no status check unless both creation
    requests were answered 2xx with a JSON body whose [data] could be read
    for [avatar_id] and [video_id] (the value read may be [undefined]: the
    code does not test it). *)
Definition within_budget (w : World) (n : nat) (t : list Call) : Prop :=
  (status_checks t <= 30)%nat /\
  (length (network_calls t) <= n)%nat /\
  ((0 < status_checks t)%nat ->
   (exists avatarId, parsed (heygen w AvatarFromImage) "avatar_id" = Some avatarId) /\
   (exists videoId, parsed (heygen w VideoGenerate) "video_id" = Some videoId)).

(** The blob store refuses the upload. *)
Definition upload_down : World :=
  {| env_HEYGEN_API_KEY := Some "key";
     env_BLOB_READ_WRITE_TOKEN := Some "token";
     Date_now := fun n => (1700000000000 + Z.of_nat n)%Z;
     heygen := heygen scenario;
     Buffer_from := decode_base64;
     blob_put := Rejected (Foreign "store unavailable");
     blob_del := Fulfilled tt |}.

(** HeyGen creates the avatar and refuses the job. *)
Definition job_refused : World :=
  world_of (Some "key") (Some "token")
    (fun ep =>
       match ep with
       | VideoGenerate =>
           Fulfilled (not_ok "Payment Required" "quota exhausted" (Rejected SyntaxError))
       | _ => created ep (fun _ => still_processing)
       end).

(** A POST whose body is not JSON. *)
Definition unparseable_request : Request :=
  {| method := "POST"; req_json := Rejected SyntaxError |}.

Definition no_key_request : Request :=
  {| method := "POST";
     req_json := Fulfilled (JS.Obj [("imageBase64", JS.Str "IMG");
                                    ("audioUrl", JS.Str "https://host/audio.wav")]) |}.

(** HeyGen answers the second status check with 503 and a JSON error. *)
Definition status_down : World :=
  world_of (Some "key") (Some "token")
    (fun ep => created ep (fun k =>
       match k with
       | 2 => Fulfilled (not_ok "Service Unavailable" "{}"
                (Fulfilled (JS.Obj [("message", JS.Str "rate limited")])))
       | _ => still_processing
       end)).

(* ===================================================================== *)
(** * The studio page *)
(* ===================================================================== *)

(** The browser side, index.tsx: the WAV encoder [pcmToWav], and the parts
    of the component [App] that drive a generation, [generateHeyGenVideo]
    with its progress ticker and the Veo loop of [startGeneration]. *)

(** Numbers with integer values, the ones [pcmToWav] is called with (its one
    caller passes 24000 and 1).  A product is the exact product rounded to
    the nearest double, ties to even: exact below 2^53, a multiple of a power
    of two above. *)
Module Number.

Definition round (x : Z) : Z :=
  let a := Z.abs x in
  if (a <? 2 ^ 53)%Z then x
  else
    let e := (Z.log2 a - 52)%Z in
    let q := (a / 2 ^ e)%Z in
    let r := (a mod 2 ^ e)%Z in
    let half := (2 ^ (e - 1))%Z in
    let q' := if (r <? half)%Z then q
              else if (half <? r)%Z then (q + 1)%Z
              else if Z.even q then q else (q + 1)%Z in
    (Z.sgn x * (q' * 2 ^ e))%Z.

(** [a * b] *)
Definition mul (a b : Z) : Z := round (a * b).

End Number.

(** A [DataView] over an [ArrayBuffer]: the bytes of the buffer.  The
    offsets are literals and the values written are integers, taken modulo
    the width of the field. *)
Module DataView.

Definition t : Type := list Z.

(** [new ArrayBuffer(n)]: [n] zero bytes. *)
Definition alloc (n : nat) : t := repeat 0%Z n.

Fixpoint store (i : nat) (b : Z) (view : t) : t :=
  match view, i with
  | [], _ => []
  | _ :: rest, O => b :: rest
  | x :: rest, S i' => x :: store i' b rest
  end.

(** The [n] low bytes of [value], least significant first. *)
Fixpoint bytes_of (n : nat) (value : Z) : list Z :=
  match n with
  | O => []
  | S n' => (value mod 256)%Z :: bytes_of n' (value / 256)%Z
  end.

Fixpoint store_all (i : nat) (bs : list Z) (view : t) : t :=
  match bs with
  | [] => view
  | b :: rest => store_all (S i) rest (store i b view)
  end.

(** [view.setUintN(offset, value, littleEndian)], N = 8 * [n]: the value is
    taken modulo 2^N; outside the buffer the call throws a RangeError
    ([None]). *)
Definition setUint (n : nat) (view : t) (offset value : Z) (littleEndian : bool)
  : option t :=
  if (0 <=? offset)%Z && (offset + Z.of_nat n <=? Z.of_nat (length view))%Z then
    let bs := bytes_of n value in
    Some (store_all (Z.to_nat offset) (if littleEndian then bs else rev bs) view)
  else None.

Definition setUint8 (view : t) (offset value : Z) : option t :=
  setUint 1 view offset value true.
Definition setUint16 := setUint 2.
Definition setUint32 := setUint 4.

(** The value of the bytes [bs], least significant first. *)
Fixpoint value_of (bs : list Z) : Z :=
  match bs with
  | [] => 0
  | b :: rest => (b + 256 * value_of rest)%Z
  end.

(** [view.getUintN(offset, littleEndian)] *)
Definition getUint (n : nat) (view : t) (offset : Z) (littleEndian : bool)
  : option Z :=
  if (0 <=? offset)%Z && (offset + Z.of_nat n <=? Z.of_nat (length view))%Z then
    let bs := firstn n (skipn (Z.to_nat offset) view) in
    Some (value_of (if littleEndian then bs else rev bs))
  else None.

Definition getUint16 := getUint 2.
Definition getUint32 := getUint 4.

End DataView.

Module App.

(** [str.charCodeAt(i)] for the characters of [str], in order. *)
Definition charCodes (str : string) : list Z :=
  map (fun c => Z.of_N (N_of_ascii c)) (list_ascii_of_string str).

(** The closure [writeString] of [pcmToWav]: one [setUint8] per character. *)
Fixpoint writeCodes (view : DataView.t) (offset : Z) (codes : list Z)
  : option DataView.t :=
  match codes with
  | [] => Some view
  | c :: rest =>
      match DataView.setUint8 view offset c with
      | Some view' => writeCodes view' (offset + 1) rest
      | None => None
      end
  end.

Definition writeString (view : DataView.t) (offset : Z) (str : string)
  : option DataView.t :=
  writeCodes view offset (charCodes str).

(** [new Blob([view, pcmData], { type })]: the header bytes, the samples of
    the [Int16Array], the type. *)
Record Blob : Type := {
  header : DataView.t;
  samples : list Z;
  type : string
}.

(** [blob.size]: every sample of an [Int16Array] takes two bytes. *)
Definition size (b : Blob) : Z :=
  (Z.of_nat (length (header b)) + 2 * Z.of_nat (length (samples b)))%Z.

Definition andThen {A B} (o : option A) (k : A -> option B) : option B :=
  match o with
  | Some a => k a
  | None => None
  end.

Notation "x <-- m ;; k" := (andThen m (fun x => k))
  (at level 61, m at next level, right associativity).

(** [pcmToWav(pcmData, sampleRate, numChannels)].  The length of a typed
    array is below 2^53, so [dataSize] and [fileSize] are exact. *)
Definition pcmToWav (pcmData : list Z) (sampleRate numChannels : Z) : option Blob :=
  let view := DataView.alloc 44 in
  let dataSize := (Z.of_nat (length pcmData) * 2)%Z in
  let fileSize := (dataSize + 36)%Z in
  view <-- writeString view 0 "RIFF" ;;
  view <-- DataView.setUint32 view 4 fileSize true ;;
  view <-- writeString view 8 "WAVE" ;;
  view <-- writeString view 12 "fmt " ;;
  view <-- DataView.setUint32 view 16 16 true ;;
  view <-- DataView.setUint16 view 20 1 true ;;
  view <-- DataView.setUint16 view 22 numChannels true ;;
  view <-- DataView.setUint32 view 24 sampleRate true ;;
  view <-- DataView.setUint32 view 28
             (Number.mul (Number.mul sampleRate numChannels) 2) true ;;
  view <-- DataView.setUint16 view 32 (Number.mul numChannels 2) true ;;
  view <-- DataView.setUint16 view 34 16 true ;;
  view <-- writeString view 36 "data" ;;
  view <-- DataView.setUint32 view 40 dataSize true ;;
  Some {| header := view; samples := pcmData; type := "audio/wav" |}.

(** The text at [offset], [n] characters long, read back from the header. *)
Definition tag (view : DataView.t) (offset n : nat) : string :=
  string_of_list_ascii
    (map (fun b => ascii_of_N (Z.to_N b)) (firstn n (skipn offset view))).

End App.

Definition wav_header_bytes (fileSize dataSize sampleRate numChannels byteRate blockAlign : Z)
  : list Z :=
  ([82; 73; 70; 70]%Z ++ DataView.bytes_of 4 fileSize ++
   [87; 65; 86; 69]%Z ++ [102; 109; 116; 32]%Z ++
   DataView.bytes_of 4 16%Z ++ DataView.bytes_of 2 1%Z ++
   DataView.bytes_of 2 numChannels ++ DataView.bytes_of 4 sampleRate ++
   DataView.bytes_of 4 byteRate ++ DataView.bytes_of 2 blockAlign ++
   DataView.bytes_of 2 16%Z ++
   [100; 97; 116; 97]%Z ++ DataView.bytes_of 4 dataSize)%list.

Module Studio.

Definition POLLING_MESSAGES_VEO : list string :=
  ["Warming up the Veo studio...";
   "Generating visual assets...";
   "Animating hosts with AI...";
   "Syncing dialogue and motion...";
   "Adding final touches...";
   "Rendering video, this can take a few minutes..."].

Definition POLLING_MESSAGES_HEYGEN : list string :=
  ["Contacting secure backend...";
   "Backend is creating host avatar...";
   "Backend is generating video...";
   "Backend is polling for completion...";
   "Almost there, finalizing video...";
   "Your HeyGen video is ready!"].

(** [messages[i]]: [None] is [undefined], the element at an index outside
    the array. *)
Definition at_index (messages : list string) (i : Z) : option string :=
  if (i <? 0)%Z then None else nth_error messages (Z.to_nat i).

(** The two pieces of component state the generators write:
    [generationProgress] and [generationMessage]. *)
Record Progress : Type := {
  generationProgress : Z;
  generationMessage : option string
}.

(** The callback given to [setInterval] in [generateHeyGenVideo]; [progress]
    is the local variable it updates.  [100 / (length - 1)] is 20 exactly,
    and [Math.floor] of the quotient of two non-negative integers is their
    integer quotient. *)
Definition progressUpdater (progress : Z) : Z * Progress :=
  let progress := Z.min (progress + 5) 95 in
  let msgIndex :=
    (progress / (100 / (Z.of_nat (length POLLING_MESSAGES_HEYGEN) - 1)))%Z in
  (progress,
   {| generationProgress := progress;
      generationMessage := at_index POLLING_MESSAGES_HEYGEN msgIndex |}).

(** [n] firings of the interval. *)
Fixpoint fire (n : nat) (progress : Z) (page : Progress) : Z * Progress :=
  match n with
  | O => (progress, page)
  | S n' => let '(progress', page') := progressUpdater progress in
            fire n' progress' page'
  end.

(** What [generateHeyGenVideo] leaves behind: the page, whether an interval
    is still set, how often [clearInterval] was called, the requests sent. *)
Record Page : Type := {
  shown : Progress;
  ticking : bool;
  cleared : nat;
  sent : list Call
}.

Definition last_message : option string :=
  at_index POLLING_MESSAGES_HEYGEN
           (Z.of_nat (length POLLING_MESSAGES_HEYGEN) - 1).

(** The request [generateHeyGenVideo] sends. *)
Definition backend_call (supabaseUrl heygenApiKey base64 audioUrl : string) : Call :=
  Fetch supabaseUrl "POST" [("Content-Type", JS.Str "application/json")]
        (Some (JS.Obj [("imageBase64", JS.Str base64);
                       ("audioUrl", JS.Str audioUrl);
                       ("apiKey", JS.Str heygenApiKey)])).

(** *** The browser as [generateHeyGenVideo] acts on it *)

(** What the function does to the browser, in order. *)
Inductive Effect : Type :=
| SetInterval (id : nat) (ms : Z)
| ClearInterval (id : nat)
| Send (c : Call).

(** The component state [generateHeyGenVideo] writes, its local variable
    [progress], the intervals that are set, and what it did so far. *)
Record Browser : Type := {
  react : Progress;
  local_progress : Z;
  intervals : list nat;
  effects : list Effect
}.

Definition B (A : Type) : Type := Browser -> outcome A * Browser.

Definition retB {A} (a : A) : B A := fun b => (Return a, b).

Definition throwB {A} (e : exn) : B A := fun b => (Throw e, b).

Definition bindB {A C} (m : B A) (k : A -> B C) : B C :=
  fun b =>
    match m b with
    | (Return a, b') => k a b'
    | (Throw e, b') => (Throw e, b')
    | (OutOfFuel, b') => (OutOfFuel, b')
    end.

Notation "x <~ m ;; k" := (bindB m (fun x => k))
  (at level 61, m at next level, right associativity).
Notation "m ;;; k" := (bindB m (fun _ => k))
  (at level 61, right associativity).

(** [try { m } catch (error) { h error }] *)
Definition try_catchB {A} (m : B A) (h : exn -> B A) : B A :=
  fun b =>
    match m b with
    | (Throw e, b') => h e b'
    | r => r
    end.

Definition liftB {A} (r : exn + A) : B A :=
  match r with
  | inl e => throwB e
  | inr a => retB a
  end.

Definition did (e : Effect) (b : Browser) : Browser :=
  {| react := react b; local_progress := local_progress b;
     intervals := intervals b; effects := (effects b ++ [e])%list |}.

(** [setInterval(callback, ms)]: a fresh id, and the interval is set. *)
Definition setInterval (ms : Z) : B nat :=
  fun b =>
    let id := S (length (effects b)) in
    let b := did (SetInterval id ms) b in
    (Return id,
     {| react := react b; local_progress := local_progress b;
        intervals := id :: intervals b; effects := effects b |}).

(** [clearInterval(id)] *)
Definition clearInterval (id : nat) : B unit :=
  fun b =>
    let b := did (ClearInterval id) b in
    (Return tt,
     {| react := react b; local_progress := local_progress b;
        intervals := filter (fun i => negb (i =? id)%nat) (intervals b);
        effects := effects b |}).

(** [n] periods pass: every interval that is set runs the callback [n]
    times. *)
Definition elapse (n : nat) (b : Browser) : Browser :=
  fold_right
    (fun _ b =>
       let '(progress, page) := fire n (local_progress b) (react b) in
       {| react := page; local_progress := progress;
          intervals := intervals b; effects := effects b |})
    b (intervals b).

(** [await x], which lasts [n] periods of the interval. *)
Definition awaitB {A} (n : nat) (x : settled A) : B A :=
  fun b =>
    match x with
    | Fulfilled a => (Return a, elapse n b)
    | Rejected e => (Throw e, elapse n b)
    end.

(** [await fetch(...)]: the request leaves, then the reply is awaited. *)
Definition fetchB (n : nat) (c : Call) (reply : settled HttpResponse)
  : B HttpResponse :=
  fun b => awaitB n reply (did (Send c) b).

Definition declare_progress (p : Z) : B unit :=
  fun b =>
    (Return tt,
     {| react := react b; local_progress := p;
        intervals := intervals b; effects := effects b |}).

Definition setGenerationProgress (p : Z) : B unit :=
  fun b =>
    (Return tt,
     {| react := {| generationProgress := p;
                    generationMessage := generationMessage (react b) |};
        local_progress := local_progress b;
        intervals := intervals b; effects := effects b |}).

Definition setGenerationMessage (m : option string) : B unit :=
  fun b =>
    (Return tt,
     {| react := {| generationProgress := generationProgress (react b);
                    generationMessage := m |};
        local_progress := local_progress b;
        intervals := intervals b; effects := effects b |}).

(** The body of [generateHeyGenVideo(hostImage, audioUrl)].  The outside
    world is what the request settles to and [firings], the number of
    periods of the interval an [await] lasts. *)
Definition generateHeyGenVideo_body (supabaseUrl heygenApiKey : string)
    (firings : nat) (reply : settled HttpResponse)
    (hostImage_base64 audioUrl : string) : B JS.value :=
  declare_progress 5 ;;;
  progressUpdater <~ setInterval 2000 ;;
  try_catchB
    (response <~ fetchB firings
                   (backend_call supabaseUrl heygenApiKey hostImage_base64 audioUrl)
                   reply ;;
     clearInterval progressUpdater ;;;
     if negb (ok response) then
       errorData <~ awaitB firings (json response) ;;
       error <~ liftB (JS.get errorData "error") ;;
       message <~ liftB (JS.to_string
                           (JS.or error (JS.Str "Backend request failed."))) ;;
       throwB (Error message)
     else
       result <~ awaitB firings (json response) ;;
       setGenerationProgress 100 ;;;
       setGenerationMessage last_message ;;;
       videoUrl <~ liftB (JS.get result "videoUrl") ;;
       retB videoUrl)
    (fun error =>
       clearInterval progressUpdater ;;;
       throwB error).

Definition is_clear (e : Effect) : bool :=
  match e with ClearInterval _ => true | _ => false end.

Definition sent_calls (es : list Effect) : list Call :=
  flat_map (fun e => match e with Send c => [c] | _ => [] end) es.

(** What the browser shows of a run: the page, whether an interval is still
    set, the number of calls of [clearInterval], the requests sent. *)
Definition observe (b : Browser) : Page :=
  {| shown := react b;
     ticking := match intervals b with [] => false | _ :: _ => true end;
     cleared := length (filter is_clear (effects b));
     sent := sent_calls (effects b) |}.

(** [generateHeyGenVideo] called on the page [page], with no interval set. *)
Definition generateHeyGenVideo (supabaseUrl heygenApiKey : string)
    (firings : nat) (reply : settled HttpResponse)
    (hostImage_base64 audioUrl : string) (page : Progress)
  : outcome JS.value * Page :=
  let '(o, b) :=
    generateHeyGenVideo_body supabaseUrl heygenApiKey firings reply
      hostImage_base64 audioUrl
      {| react := page; local_progress := 0; intervals := []; effects := [] |} in
  (o, observe b).

(** The request the proxy receives when [c] is delivered: its verb, and the
    JSON value its body parses to. *)
Definition delivered (c : Call) : option Request :=
  match c with
  | Fetch _ meth _ (Some payload) =>
      Some {| method := meth; req_json := Fulfilled payload |}
  | _ => None
  end.

(** The state of the Veo loop of [startGeneration]: the locals [progress]
    and [msgIndex], and the page. *)
Record Veo : Type := {
  progress : Z;
  msgIndex : Z;
  page : Progress
}.

(** [let progress = 10; let msgIndex = 1; setGenerationProgress(progress);
    setGenerationMessage(POLLING_MESSAGES.VEO[msgIndex])] *)
Definition veo_start : Veo :=
  {| progress := 10; msgIndex := 1;
     page := {| generationProgress := 10;
                generationMessage := at_index POLLING_MESSAGES_VEO 1 |} |}.

(** The body of the loop after the operation was fetched again. *)
Definition veo_update (v : Veo) : Veo :=
  let progress := Z.min (progress v + 7) 95 in
  if (progress >? (msgIndex v + 1) * 15)%Z
     && (msgIndex v <? Z.of_nat (length POLLING_MESSAGES_VEO) - 1)%Z
  then
    let msgIndex := (msgIndex v + 1)%Z in
    {| progress := progress; msgIndex := msgIndex;
       page := {| generationProgress := progress;
                  generationMessage := at_index POLLING_MESSAGES_VEO msgIndex |} |}
  else
    {| progress := progress; msgIndex := msgIndex v;
       page := {| generationProgress := progress;
                  generationMessage := generationMessage (page v) |} |}.

(** [while (!operation.done) { await delay; operation = await
    getVideosOperation(...); ... }]: [polls] is what the successive calls of
    [getVideosOperation] settle to (the [done] flag of the operation, or a
    rejection); [None] when the operation is still not done after them. *)
Fixpoint veo_wait (polls : list (settled bool)) (done : bool) (v : Veo)
  : option (outcome unit * Veo) :=
  if done then Some (Return tt, v)
  else
    match polls with
    | [] => None
    | Rejected e :: _ => Some (Throw e, v)
    | Fulfilled done' :: rest => veo_wait rest done' (veo_update v)
    end.

(** What the Veo loop keeps true. *)
Definition veo_ok (v : Veo) : Prop :=
  (10 <= progress v <= 95)%Z /\ (1 <= msgIndex v <= 5)%Z /\
  generationProgress (page v) = progress v /\
  generationMessage (page v) = at_index POLLING_MESSAGES_VEO (msgIndex v).

End Studio.

(** A reply of the proxy as the browser sees it. *)
Definition error_reply (statusText : string) (errorData : JS.value) : HttpResponse :=
  {| ok := false; statusText := statusText;
     text := Rejected (TypeError "Body is unusable");
     json := Fulfilled errorData |}.

(* ===================================================================== *)
(** * Stores and traces *)
(* ===================================================================== *)

Lemma record_nil s : record s [] = s.
Proof. destruct s; unfold record; simpl. now rewrite app_nil_r. Qed.

Lemma record_record s a b : record (record s a) b = record s (a ++ b)%list.
Proof. unfold record; simpl. now rewrite app_assoc. Qed.

Lemma ticks_app id apiKey m n :
  (ticks id apiKey m ++ ticks id apiKey n)%list = ticks id apiKey (m + n).
Proof. induction m as [|m IH]; simpl; [reflexivity|]. now rewrite IH. Qed.

Lemma status_checks_app a b :
  status_checks (a ++ b) = (status_checks a + status_checks b)%nat.
Proof. unfold status_checks. now rewrite filter_app, length_app. Qed.

Lemma status_checks_ticks id apiKey n :
  status_checks (ticks id apiKey n) = n.
Proof.
  induction n as [|n IH]; [reflexivity|].
  change (ticks id apiKey (S n))
    with ([status_call id apiKey; SetTimeout pollDelay] ++ ticks id apiKey n)%list.
  rewrite status_checks_app, IH. reflexivity.
Qed.

Lemma status_checks_run id apiKey k :
  (1 <= k)%nat ->
  status_checks (ticks id apiKey (k - 1) ++ [status_call id apiKey]) = k.
Proof.
  intros Hk. rewrite status_checks_app, status_checks_ticks.
  change (status_checks [status_call id apiKey]) with 1%nat. lia.
Qed.

Lemma delays_ticks id apiKey n :
  delays (ticks id apiKey n) = repeat pollDelay n.
Proof. induction n as [|n IH]; simpl; [reflexivity|]. now rewrite IH. Qed.

Lemma dels_app a b : dels (a ++ b) = (dels a ++ dels b)%list.
Proof. apply flat_map_app. Qed.

Lemma staged_app a b : staged (a ++ b) = staged a || staged b.
Proof. apply existsb_app. Qed.

Lemma heygen_calls_dels cs : forallb heygen_call cs = true -> dels cs = [].
Proof.
  induction cs as [|c cs IH]; [reflexivity|]. cbn [forallb].
  intros H. apply andb_prop in H as [Hc Hcs].
  destruct c; try discriminate; cbn; auto.
Qed.

Lemma dels_cleanup_calls w url :
  dels (cleanup_calls w url) = if url =? "" then [] else [url].
Proof.
  unfold cleanup_calls. destruct (url =? ""); [reflexivity|].
  destruct (blob_del w); reflexivity.
Qed.

Lemma status_checks_cleanup_calls w url :
  status_checks (cleanup_calls w url) = 0%nat.
Proof.
  unfold cleanup_calls. destruct (url =? ""); [reflexivity|].
  destruct (blob_del w); reflexivity.
Qed.

(* ===================================================================== *)
(** * Replies *)
(* ===================================================================== *)

Lemma parsed_data_inv r d :
  parsed_data r = Some d ->
  exists response data,
    r = Fulfilled response /\ ok response = true /\
    json response = Fulfilled data /\ JS.get data "data" = inr d.
Proof.
  unfold parsed_data.
  destruct r as [response|e]; [|discriminate].
  destruct (ok response) eqn:Hok; [|discriminate].
  destruct (json response) as [data|e] eqn:Hj; [|discriminate].
  destruct (JS.get data "data") as [e|d'] eqn:Hd; [discriminate|].
  intros [= <-]. now exists response, data.
Qed.

Lemma parsed_split r field v :
  parsed r field = Some v ->
  exists d, parsed_data r = Some d /\ JS.get d field = inr v.
Proof.
  unfold parsed. destruct (parsed_data r) as [d|]; [|discriminate].
  destruct (JS.get d field) as [e|v'] eqn:E; [discriminate|].
  intros [= <-]. now exists d.
Qed.

Lemma parsed_inv r field v :
  parsed r field = Some v ->
  exists response data d,
    r = Fulfilled response /\ ok response = true /\
    json response = Fulfilled data /\
    JS.get data "data" = inr d /\ JS.get d field = inr v.
Proof.
  intros H. destruct (parsed_split _ _ _ H) as (d & Hd & Hf).
  destruct (parsed_data_inv _ _ Hd) as (response & data & Hr & Hok & Hj & Hg).
  now exists response, data, d.
Qed.

Lemma last_attempt_data r d :
  parsed_data r = Some d ->
  last_attempt r =
  match JS.get d "status" with
  | inl e => Some (Throw e)
  | inr st =>
      if JS.is_str st "succeeded" then
        match JS.get d "video_url" with
        | inl e => Some (Throw e)
        | inr videoUrl => Some (Return videoUrl)
        end
      else if JS.is_str st "failed" then Some (Throw (job_failed_error d))
      else None
  end.
Proof.
  intros H.
  destruct (parsed_data_inv r d H) as (response & data & -> & Hok & Hj & Hd).
  unfold last_attempt. now rewrite Hok, Hj, Hd.
Qed.

Lemma last_attempt_succeeded r url :
  parsed r "status" = Some (JS.Str "succeeded") ->
  parsed r "video_url" = Some url ->
  last_attempt r = Some (Return url).
Proof.
  intros Hs Hu.
  destruct (parsed_split _ _ _ Hs) as (d & Hd & Hst).
  destruct (parsed_split _ _ _ Hu) as (d' & Hd' & Hurl).
  rewrite Hd in Hd'. injection Hd' as <-.
  now rewrite (last_attempt_data r d Hd), Hst, Hurl.
Qed.

Lemma last_attempt_failed r message shown :
  parsed r "status" = Some (JS.Str "failed") ->
  reported_message r = Some message ->
  JS.to_string (JS.or message (JS.Str "Unknown error")) = inr shown ->
  last_attempt r =
  Some (Throw (Error ("HeyGen video generation failed: " ++ shown))).
Proof.
  intros Hs Hm Hshown.
  destruct (parsed_split _ _ _ Hs) as (d & Hd & Hst).
  unfold reported_message in Hm.
  destruct (parsed r "error") as [error|] eqn:He; [|discriminate].
  destruct (parsed_split _ _ _ He) as (d' & Hd' & Her).
  rewrite Hd in Hd'. injection Hd' as <-.
  destruct (JS.get_opt error "message") as [e|m] eqn:Hg; [discriminate|].
  injection Hm as ->.
  rewrite (last_attempt_data r d Hd), Hst.
  cbn [JS.is_str String.eqb Ascii.eqb Bool.eqb].
  unfold job_failed_error. now rewrite Her, Hg, Hshown.
Qed.

Lemma last_attempt_not_ok r response :
  r = Fulfilled response -> ok response = false ->
  last_attempt r = Some (Throw (status_check_error response)).
Proof. intros -> H. unfold last_attempt. now rewrite H. Qed.

Lemma status_check_error_json response errorBody message shown :
  json response = Fulfilled errorBody ->
  JS.get errorBody "message" = inr message ->
  JS.to_string (JS.or message (JS.Str (statusText response))) = inr shown ->
  status_check_error response = Error ("HeyGen status check failed: " ++ shown).
Proof. intros Hj Hm Hs. unfold status_check_error. now rewrite Hj, Hm, Hs. Qed.

(* ===================================================================== *)
(** * pollVideoStatus: the loop *)
(* ===================================================================== *)

Section Polling.

Variable w : World.
Variables (id : string) (apiKey : JS.value).

(** One round that finds the job still processing: a status check, a
    delay, and the loop goes on with a status that is not 'succeeded'. *)
Lemma poll_loop_tick fuel status videoUrl attempt s :
  JS.is_str status "succeeded" = false ->
  (attempt < maxAttempts)%nat ->
  processing (heygen w (VideoStatusGet (S attempt))) = true ->
  exists status',
    JS.is_str status' "succeeded" = false /\
    poll_loop w (S fuel) (JS.Str id) apiKey status videoUrl attempt s =
    poll_loop w fuel (JS.Str id) apiKey status' videoUrl (S attempt)
      (record s (ticks id apiKey 1)).
Proof.
  intros Hs Hlt Hp. unfold processing in Hp.
  destruct (parsed _ "status") as [st|] eqn:Hst; [|discriminate].
  apply andb_prop in Hp as [H1 H2]. apply negb_true_iff in H1, H2.
  destruct (parsed_inv _ _ _ Hst)
    as (response & data & d & Hr & Hok & Hj & Hd & Hf).
  exists st. split; [exact H1|].
  cbn [poll_loop]. rewrite Hs. apply Nat.ltb_lt in Hlt. rewrite Hlt.
  cbn [negb andb]. monad_unfold. cbn [JS.to_string].
  by_eq Hr. by_eq Hok. cbn [negb]. by_eq Hj. by_eq Hd. by_eq Hf.
  rewrite H1, H2. now rewrite record_record.
Qed.

(** [n] such rounds in a row. *)
Lemma poll_loop_ticks n :
  forall fuel status videoUrl attempt s,
    JS.is_str status "succeeded" = false ->
    (attempt + n <= maxAttempts)%nat ->
    (forall i, (attempt < i <= attempt + n)%nat ->
               processing (heygen w (VideoStatusGet i)) = true) ->
    exists status',
      JS.is_str status' "succeeded" = false /\
      poll_loop w (n + fuel) (JS.Str id) apiKey status videoUrl attempt s =
      poll_loop w fuel (JS.Str id) apiKey status' videoUrl (attempt + n)
        (record s (ticks id apiKey n)).
Proof.
  induction n as [|n IH]; intros fuel status videoUrl attempt s Hs Hle Hall.
  - exists status. split; [exact Hs|].
    now rewrite Nat.add_0_r, record_nil.
  - destruct (poll_loop_tick (n + fuel) status videoUrl attempt s Hs)
      as (st1 & Hst1 & E1); [lia | apply Hall; lia |].
    destruct (IH fuel st1 videoUrl (S attempt) (record s (ticks id apiKey 1)) Hst1)
      as (st2 & Hst2 & E2); [lia | intros i Hi; apply Hall; lia |].
    exists st2. split; [exact Hst2|].
    change (S n + fuel)%nat with (S (n + fuel)). rewrite E1, E2.
    rewrite record_record, ticks_app. now rewrite Nat.add_succ_r.
Qed.

(** The round that ends the loop, followed by the test after the loop. *)
Lemma poll_loop_last fuel status videoUrl attempt s o :
  JS.is_str status "succeeded" = false ->
  (attempt < maxAttempts)%nat ->
  last_attempt (heygen w (VideoStatusGet (S attempt))) = Some o ->
  (r <- poll_loop w (S fuel) (JS.Str id) apiKey status videoUrl attempt ;;
   let '(status, videoUrl) := r in
   if negb (JS.is_str status "succeeded") then
     throw (Error "HeyGen video generation timed out.")
   else ret videoUrl) s =
  (o, record s [status_call id apiKey]).
Proof.
  intros Hs Hlt Hl. unfold bind at 1.
  cbn [poll_loop]. rewrite Hs. apply Nat.ltb_lt in Hlt. rewrite Hlt.
  cbn [negb andb]. unfold last_attempt in Hl. monad_unfold. cbn [JS.to_string].
  fold (status_call id apiKey).
  destruct (heygen w _) as [response|e]; cbn beta iota; [|now inversion Hl].
  destruct (ok response); cbn [negb] in *; cbn beta iota.
  - destruct (json response) as [data|e]; cbn beta iota; [|now inversion Hl].
    destruct (JS.get data "data") as [e|d]; cbn beta iota; [now inversion Hl|].
    destruct (JS.get d "status") as [e|st]; cbn beta iota; [now inversion Hl|].
    destruct (JS.is_str st "succeeded") eqn:E1; cbn beta iota.
    + destruct (JS.get d "video_url") as [e|u]; cbn beta iota;
        inversion Hl; subst; [reflexivity|now rewrite E1].
    + destruct (JS.is_str st "failed"); [|discriminate].
      inversion Hl; subst. unfold job_failed_error.
      destruct (JS.get d "error") as [e|er]; cbn beta iota; [reflexivity|].
      destruct (JS.get_opt er "message") as [e|m]; cbn beta iota; [reflexivity|].
      destruct (JS.to_string _) as [e|sh]; reflexivity.
  - inversion Hl; subst. unfold status_check_error.
    destruct (json response) as [data|e]; cbn beta iota; [|reflexivity].
    destruct (JS.get data "message") as [e|m]; cbn beta iota; [reflexivity|].
    destruct (JS.to_string _) as [e|sh]; reflexivity.
Qed.

(** A whole run that ends on its [k]-th status check. *)
Lemma poll_run s k o :
  (1 <= k <= maxAttempts)%nat ->
  (forall i, (1 <= i < k)%nat ->
             processing (heygen w (VideoStatusGet i)) = true) ->
  last_attempt (heygen w (VideoStatusGet k)) = Some o ->
  pollVideoStatus w (JS.Str id) apiKey s =
  (o, record s (ticks id apiKey (k - 1) ++ [status_call id apiKey])%list).
Proof.
  intros Hk Hall Hl. unfold pollVideoStatus.
  destruct (poll_loop_ticks (k - 1) (S (maxAttempts - k))
              (JS.Str "") (JS.Str "") 0 s)
    as (st & Hst & E); [reflexivity | lia | intros i Hi; apply Hall; lia |].
  replace (k - 1 + S (maxAttempts - k))%nat with maxAttempts in E by lia.
  unfold bind at 1. rewrite E. cbn [Nat.add].
  pose proof (poll_loop_last (maxAttempts - k) st (JS.Str "")
                (k - 1) (record s (ticks id apiKey (k - 1))) o Hst) as L.
  replace (S (k - 1)) with k in L by lia.
  unfold bind at 1 in L. rewrite L; [| lia | exact Hl].
  now rewrite record_record.
Qed.

(** A whole run that never sees a terminal status. *)
Lemma poll_times_out s :
  (forall i, (1 <= i <= maxAttempts)%nat ->
             processing (heygen w (VideoStatusGet i)) = true) ->
  pollVideoStatus w (JS.Str id) apiKey s =
  (Throw (Error "HeyGen video generation timed out."),
   record s (ticks id apiKey maxAttempts)).
Proof.
  intros Hall. unfold pollVideoStatus.
  destruct (poll_loop_ticks maxAttempts 0 (JS.Str "") (JS.Str "") 0 s)
    as (st & Hst & E); [reflexivity | lia | intros i Hi; apply Hall; lia |].
  rewrite Nat.add_0_r in E. unfold bind at 1. rewrite E. cbn [Nat.add].
  cbn [poll_loop]. rewrite Nat.ltb_irrefl, andb_false_r. cbn [ret].
  now rewrite Hst.
Qed.

Lemma poll_succeeds s N videoUrl :
  (1 <= N <= maxAttempts)%nat ->
  (forall i, (1 <= i < N)%nat ->
             processing (heygen w (VideoStatusGet i)) = true) ->
  parsed (heygen w (VideoStatusGet N)) "status" = Some (JS.Str "succeeded") ->
  parsed (heygen w (VideoStatusGet N)) "video_url" = Some videoUrl ->
  pollVideoStatus w (JS.Str id) apiKey s =
  (Return videoUrl,
   record s (ticks id apiKey (N - 1) ++ [status_call id apiKey])).
Proof.
  intros HN Hall Hs Hu. apply poll_run; [exact HN | exact Hall |].
  now apply last_attempt_succeeded.
Qed.

(** A status check that fails, by its HTTP status or in transport, ends the
    polling at once: no delay and no further check follow it. *)
Lemma poll_status_check_fails s k :
  (1 <= k <= maxAttempts)%nat ->
  (forall i, (1 <= i < k)%nat ->
             processing (heygen w (VideoStatusGet i)) = true) ->
  (forall response,
     heygen w (VideoStatusGet k) = Fulfilled response -> ok response = false ->
     pollVideoStatus w (JS.Str id) apiKey s =
     (Throw (status_check_error response),
      record s (ticks id apiKey (k - 1) ++ [status_call id apiKey]))) /\
  (forall e,
     heygen w (VideoStatusGet k) = Rejected e ->
     pollVideoStatus w (JS.Str id) apiKey s =
     (Throw e,
      record s (ticks id apiKey (k - 1) ++ [status_call id apiKey]))).
Proof.
  intros Hk Hall. split.
  - intros response Hr Hok. apply poll_run; [exact Hk | exact Hall |].
    now apply last_attempt_not_ok.
  - intros e Hr. apply poll_run; [exact Hk | exact Hall |]. now rewrite Hr.
Qed.

End Polling.

(* ===================================================================== *)
(** * Steps 1 to 3 terminate and only talk to HeyGen *)
(* ===================================================================== *)

Lemma quiet_ret {A} (a : A) : quiet (ret a).
Proof. intros s. exists (Return a), []. now rewrite record_nil. Qed.

Lemma quiet_throw {A} e : quiet (@throw A e).
Proof. intros s. exists (Throw e), []. now rewrite record_nil. Qed.

Lemma quiet_lift {A} (r : exn + A) : quiet (lift r).
Proof. destruct r; [apply quiet_throw | apply quiet_ret]. Qed.

Lemma quiet_await {A} (p : settled A) : quiet (await p).
Proof. destruct p; [apply quiet_ret | apply quiet_throw]. Qed.

Lemma quiet_bind {A B} (m : M A) (k : A -> M B) :
  quiet m -> (forall a, quiet (k a)) -> quiet (bind m k).
Proof.
  intros Hm Hk s. destruct (Hm s) as (o & cs & E & Hne & Hcs).
  unfold bind. rewrite E. destruct o as [a|e|].
  - destruct (Hk a (record s cs)) as (o' & cs' & E' & Hne' & Hcs').
    exists o', (cs ++ cs')%list. rewrite E', record_record.
    repeat split; [exact Hne'|]. now rewrite forallb_app, Hcs, Hcs'.
  - exists (Throw e), cs. repeat split; [discriminate | exact Hcs].
  - contradiction.
Qed.

Lemma quiet_fetch w ep url meth hdrs payload :
  quiet (fetch w ep url meth hdrs payload).
Proof.
  intros s. unfold fetch, bind, emit.
  destruct (heygen w ep) as [r|e]; cbn [await ret throw];
    eexists _, [_]; repeat split; discriminate.
Qed.

Lemma quiet_sleep ms : quiet (sleep ms).
Proof.
  intros s. exists (Return tt), [SetTimeout ms]. repeat split. discriminate.
Qed.

Create HintDb quiet.
#[local] Hint Resolve quiet_ret quiet_throw quiet_lift quiet_await
  quiet_fetch quiet_sleep : quiet.

(** Walks down a chain of binds and conditionals. *)
Ltac quiet_chain :=
  repeat first
    [ solve [auto with quiet]
    | apply quiet_bind; [|intro]
    | match goal with
      | |- quiet (if ?b then _ else _) => destruct b
      | |- quiet (let '(_, _) := ?p in _) => destruct p
      end ].

Lemma quiet_poll_loop w videoId apiKey fuel :
  forall status videoUrl attempt,
    (maxAttempts <= attempt + fuel)%nat ->
    quiet (poll_loop w fuel videoId apiKey status videoUrl attempt).
Proof.
  induction fuel as [|fuel IH]; intros status videoUrl attempt Hle;
    cbn [poll_loop].
  - replace (attempt <? maxAttempts)%nat with false
      by (symmetry; apply Nat.ltb_ge; lia).
    rewrite andb_false_r. apply quiet_ret.
  - cbv zeta. quiet_chain. apply IH. lia.
Qed.

Lemma quiet_pollVideoStatus w videoId apiKey :
  quiet (pollVideoStatus w videoId apiKey).
Proof.
  unfold pollVideoStatus. apply quiet_bind.
  - apply quiet_poll_loop. lia.
  - intros [status videoUrl]. quiet_chain.
Qed.

#[local] Hint Resolve quiet_pollVideoStatus : quiet.

Lemma quiet_generate_video w imageBase64 audioUrl apiKey nowIdx :
  quiet (generate_video w imageBase64 audioUrl apiKey nowIdx).
Proof. unfold generate_video. quiet_chain. Qed.

(** The model never runs out of fuel: [pollVideoStatus] always returns or
    throws. *)
Lemma pollVideoStatus_terminates w videoId apiKey s :
  fst (pollVideoStatus w videoId apiKey s) <> OutOfFuel.
Proof.
  destruct (quiet_pollVideoStatus w videoId apiKey s) as (o & cs & E & Hne & _).
  now rewrite E.
Qed.

(** Steps 1 to 3 end, and neither stage nor delete anything. *)
Lemma generate_video_ends w imageBase64 audioUrl apiKey nowIdx s o s' :
  generate_video w imageBase64 audioUrl apiKey nowIdx s = (o, s') ->
  o <> OutOfFuel /\ exists cs, s' = record s cs /\ dels cs = [] /\ staged cs = false.
Proof.
  intros H.
  destruct (quiet_generate_video w imageBase64 audioUrl apiKey nowIdx s)
    as (o' & cs & E & Hne & Hq).
  rewrite E in H. inversion H; subst. split; [exact Hne|].
  exists cs. split; [reflexivity|]. split; [now apply heygen_calls_dels|].
  clear -Hq. induction cs as [|c cs IH]; [reflexivity|].
  cbn [forallb] in Hq. apply andb_prop in Hq as [Hc Hcs].
  destruct c; try discriminate; cbn; auto.
Qed.

(* ===================================================================== *)
(** * Steps 1 to 3 *)
(* ===================================================================== *)

(** Once the avatar and the video job are created, the rest is polling. *)
Lemma generate_video_polls w imageBase64 audioUrl apiKey nowIdx avatarId videoId s :
  parsed (heygen w AvatarFromImage) "avatar_id" = Some avatarId ->
  parsed (heygen w VideoGenerate) "video_id" = Some videoId ->
  generate_video w imageBase64 audioUrl apiKey nowIdx s =
  pollVideoStatus w videoId apiKey
    (record s [avatar_call apiKey imageBase64 (Date_now w nowIdx);
               generate_call apiKey avatarId audioUrl]).
Proof.
  intros Ha Hv.
  destruct (parsed_inv _ _ _ Ha) as (r1 & data1 & d1 & Hr1 & Hok1 & Hj1 & Hd1 & Hf1).
  destruct (parsed_inv _ _ _ Hv) as (r2 & data2 & d2 & Hr2 & Hok2 & Hj2 & Hd2 & Hf2).
  unfold generate_video. monad_unfold.
  by_eq Hr1. by_eq Hok1. cbn [negb]. by_eq Hj1. by_eq Hd1. by_eq Hf1.
  by_eq Hr2. by_eq Hok2. cbn [negb]. by_eq Hj2. by_eq Hd2. by_eq Hf2.
  now rewrite record_record.
Qed.

(** A refused avatar: nothing else is asked of HeyGen. *)
Lemma generate_video_avatar_refused w imageBase64 audioUrl apiKey nowIdx
    response errorText s :
  heygen w AvatarFromImage = Fulfilled response ->
  ok response = false ->
  text response = Fulfilled errorText ->
  generate_video w imageBase64 audioUrl apiKey nowIdx s =
  (Throw (Error ("HeyGen avatar creation failed: " ++ errorText)),
   record s [avatar_call apiKey imageBase64 (Date_now w nowIdx)]).
Proof.
  intros Hr Hok Ht. unfold generate_video. monad_unfold.
  by_eq Hr. by_eq Hok. cbn [negb]. by_eq Ht. reflexivity.
Qed.

(* ===================================================================== *)
(** * The URL variant *)
(* ===================================================================== *)

Lemma vercel_preflight w req :
  method req = "OPTIONS" ->
  run (Vercel.handler w req) = (Return preflight, initial).
Proof. intros H. unfold run, Vercel.handler. now rewrite H. Qed.

Lemma vercel_other_verbs w req :
  method req <> "OPTIONS" -> method req <> "POST" ->
  run (Vercel.handler w req) = (Return method_not_allowed, initial).
Proof.
  intros H1 H2. apply String.eqb_neq in H1, H2.
  unfold run, Vercel.handler. now rewrite H1, H2.
Qed.

(** A submission that passes the checks: the response is built from the way
    steps 1 to 3 end. *)
Lemma vercel_submission w req reqBody imageBase64 audioUrl o s' :
  method req = "POST" ->
  req_json req = Fulfilled reqBody ->
  JS.get reqBody "imageBase64" = inr imageBase64 ->
  JS.get reqBody "audioUrl" = inr audioUrl ->
  configured (env_HEYGEN_API_KEY w) = true ->
  JS.truthy imageBase64 = true -> JS.truthy audioUrl = true ->
  generate_video w imageBase64 audioUrl (env_value (env_HEYGEN_API_KEY w)) 0
    initial = (o, s') ->
  run (Vercel.handler w req) = (vercel_response o, record s' (vercel_log o)).
Proof.
  intros Hm Hj Hi Ha Hk Hti Hta Hg. unfold configured in Hk.
  unfold run, Vercel.handler. post_only Hm.
  monad_unfold. by_eq Hj. by_eq Hi. by_eq Ha. rewrite Hk, Hti, Hta. cbn [negb orb].
  rewrite Hg. destruct o; cbn beta iota;
    cbn [vercel_response vercel_log]; rewrite ?record_nil; reflexivity.
Qed.

(** A submission that does not pass them: no call is made. *)
Lemma vercel_refuses w req reqBody imageBase64 audioUrl :
  method req = "POST" ->
  req_json req = Fulfilled reqBody ->
  JS.get reqBody "imageBase64" = inr imageBase64 ->
  JS.get reqBody "audioUrl" = inr audioUrl ->
  configured (env_HEYGEN_API_KEY w) = false \/
  JS.truthy imageBase64 = false \/ JS.truthy audioUrl = false ->
  run (Vercel.handler w req) = (Return (vercel_refusal w), initial).
Proof.
  intros Hm Hj Hi Ha H. unfold run, Vercel.handler, vercel_refusal, configured in *.
  post_only Hm. monad_unfold. by_eq Hj. by_eq Hi. by_eq Ha.
  destruct (JS.truthy (env_value (env_HEYGEN_API_KEY w))); cbn [negb]; [|reflexivity].
  destruct H as [H|[H|H]]; [discriminate| |]; rewrite H; cbn [negb orb];
    [|rewrite orb_true_r]; reflexivity.
Qed.

Lemma vercel_400_configured w req resp :
  fst (run (Vercel.handler w req)) = Return resp ->
  status resp = 400%Z ->
  configured (env_HEYGEN_API_KEY w) = true.
Proof.
  unfold run, Vercel.handler, configured. intros H Hst.
  destruct (method req =? "OPTIONS");
    [cbn in H; injection H as <-; discriminate|].
  destruct (negb (method req =? "POST"));
    [cbn in H; injection H as <-; discriminate|].
  revert H. monad_unfold.
  destruct (req_json req) as [reqBody|e]; cbn beta iota;
    [|cbn; intros [= <-]; discriminate].
  destruct (JS.get reqBody "imageBase64") as [e|imageBase64]; cbn beta iota;
    [cbn; intros [= <-]; discriminate|].
  destruct (JS.get reqBody "audioUrl") as [e|audioUrl]; cbn beta iota;
    [cbn; intros [= <-]; discriminate|].
  destruct (JS.truthy (env_value (env_HEYGEN_API_KEY w))); [reflexivity|].
  cbn. intros [= <-]. discriminate.
Qed.

(** The URL variant always answers, whatever the world does. *)
Lemma vercel_always_responds w req :
  exists resp, fst (run (Vercel.handler w req)) = Return resp.
Proof.
  unfold run, Vercel.handler.
  destruct (method req =? "OPTIONS"); [now eexists|].
  destruct (negb (method req =? "POST")); [now eexists|].
  monad_unfold.
  destruct (req_json req) as [reqBody|e]; cbn beta iota; [|now eexists].
  destruct (JS.get reqBody "imageBase64") as [e|imageBase64]; cbn beta iota;
    [now eexists|].
  destruct (JS.get reqBody "audioUrl") as [e|audioUrl]; cbn beta iota;
    [now eexists|].
  destruct (negb (JS.truthy (env_value (env_HEYGEN_API_KEY w)))); [now eexists|].
  destruct (negb (JS.truthy imageBase64) || negb (JS.truthy audioUrl));
    [now eexists|].
  match goal with
  | |- context [generate_video ?w ?a ?b ?c ?n ?s0] =>
      destruct (generate_video w a b c n s0) as [o s1] eqn:E;
      destruct (generate_video_ends _ _ _ _ _ _ _ _ E) as (Hne & _)
  end.
  destruct o; [now eexists|now eexists|contradiction].
Qed.

(* ===================================================================== *)
(** * The blob variant *)
(* ===================================================================== *)

Lemma cleanup_run w s :
  VercelBlob.cleanup w s =
  (Return tt, record s (cleanup_calls w (publicAudioUrl s))).
Proof.
  unfold VercelBlob.cleanup, cleanup_calls. monad_unfold.
  destruct (publicAudioUrl s =? ""); cbn [negb].
  - now rewrite record_nil.
  - destruct (blob_del w) as [[]|e]; cbn beta iota; [reflexivity|].
    now rewrite record_record.
Qed.

Lemma blob_handler_post w req :
  (method req =? "OPTIONS") = false -> (method req =? "POST") = true ->
  run (VercelBlob.handler w req) =
  try_finally (try_catch (VercelBlob.attempt w req) VercelBlob.recover)
              (VercelBlob.cleanup w) initial.
Proof.
  intros H1 H2. unfold run, VercelBlob.handler. rewrite H1, H2. reflexivity.
Qed.

Lemma blob_handler_other w req :
  (method req =? "OPTIONS") = true \/ (method req =? "POST") = false ->
  exists resp, run (VercelBlob.handler w req) = (Return resp, initial).
Proof.
  unfold run, VercelBlob.handler. intros [H|H].
  - rewrite H. now eexists.
  - destruct (method req =? "OPTIONS"); [now eexists|]. rewrite H. now eexists.
Qed.

Lemma blob_preflight w req :
  method req = "OPTIONS" ->
  run (VercelBlob.handler w req) = (Return preflight, initial).
Proof. intros H. unfold run, VercelBlob.handler. now rewrite H. Qed.

Lemma blob_other_verbs w req :
  method req <> "OPTIONS" -> method req <> "POST" ->
  run (VercelBlob.handler w req) = (Return method_not_allowed, initial).
Proof.
  intros H1 H2. apply String.eqb_neq in H1, H2.
  unfold run, VercelBlob.handler. now rewrite H1, H2.
Qed.

(** The three ways the [try] block can go: it stops before staging, the
    upload is rejected, or the upload succeeds and the rest only talks to
    HeyGen. *)
Lemma attempt_cases w req s :
  exists o cs u,
    VercelBlob.attempt w req s =
      (o, {| trace := (trace s ++ cs)%list; publicAudioUrl := u |}) /\
    o <> OutOfFuel /\ dels cs = [] /\
    ((cs = [] /\ u = publicAudioUrl s) \/
     (staged cs = true /\ u = publicAudioUrl s /\
      exists e, blob_put w = Rejected e /\ o = Throw e) \/
     (staged cs = true /\ blob_put w = Fulfilled u)).
Proof.
  unfold VercelBlob.attempt. monad_unfold.
  assert (Hs : forall o : outcome Response, o <> OutOfFuel ->
    exists (o' : outcome Response) cs u,
      (o, s) = (o', {| trace := (trace s ++ cs)%list; publicAudioUrl := u |}) /\
      o' <> OutOfFuel /\ dels cs = [] /\
      ((cs = [] /\ u = publicAudioUrl s) \/
       (staged cs = true /\ u = publicAudioUrl s /\
        exists e, blob_put w = Rejected e /\ o' = Throw e) \/
       (staged cs = true /\ blob_put w = Fulfilled u))).
  { intros o Ho. exists o, [], (publicAudioUrl s).
    rewrite app_nil_r. destruct s; cbn. repeat split; auto. }
  destruct (req_json req) as [reqBody|e]; cbn beta iota; [|apply Hs; discriminate].
  destruct (JS.get reqBody "imageBase64") as [e|imageBase64]; cbn beta iota;
    [apply Hs; discriminate|].
  destruct (JS.get reqBody "audioBase64") as [e|audioBase64]; cbn beta iota;
    [apply Hs; discriminate|].
  destruct (negb (JS.truthy (env_value (env_HEYGEN_API_KEY w))));
    [apply Hs; discriminate|].
  destruct (negb (JS.truthy (env_value (env_BLOB_READ_WRITE_TOKEN w))));
    [apply Hs; discriminate|].
  destruct (negb (JS.truthy imageBase64) || negb (JS.truthy audioBase64));
    [apply Hs; discriminate|].
  destruct (Buffer_from w audioBase64) as [e|audioBuffer]; cbn beta iota;
    [apply Hs; discriminate|].
  clear Hs.
  destruct (blob_put w) as [url|e] eqn:Hput; cbn beta iota.
  - match goal with
    | |- context [generate_video ?w ?a ?b ?c ?n ?s0] =>
        destruct (quiet_generate_video w a b c n s0) as (o & cs & E & Hne & Hq);
        rewrite E
    end.
    destruct o as [finalVideoUrl|e|]; [| |contradiction];
      (eexists _, (_ :: cs), url; split;
       [unfold record; cbn [trace publicAudioUrl];
        rewrite <- app_assoc; reflexivity|]);
      (split; [discriminate|]);
      (split; [cbn; apply heygen_calls_dels, Hq|]);
      right; right; split; reflexivity.
  - eexists _, [_], _. split; [reflexivity|].
    split; [discriminate|]. split; [reflexivity|].
    right; left. repeat split. now exists e.
Qed.

(** The [try] and [catch] blocks together always produce a response. *)
Lemma protected_cases w req s :
  exists resp cs u,
    try_catch (VercelBlob.attempt w req) VercelBlob.recover s =
      (Return resp, {| trace := (trace s ++ cs)%list; publicAudioUrl := u |}) /\
    dels cs = [] /\
    ((staged cs = false /\ u = publicAudioUrl s) \/
     (u = publicAudioUrl s /\ exists e, blob_put w = Rejected e) \/
     (staged cs = true /\ blob_put w = Fulfilled u)).
Proof.
  destruct (attempt_cases w req s) as (o & cs & u & E & Hne & Hd & Hc).
  unfold try_catch. rewrite E.
  destruct o as [resp|e|]; [| |contradiction].
  - exists resp, cs, u. repeat split; [exact Hd|].
    destruct Hc as [(-> & ->)|[(Hs & -> & e & He & _)|(Hs & Hp)]]; eauto.
  - unfold VercelBlob.recover. monad_unfold. unfold record.
    cbn [trace publicAudioUrl]. rewrite <- app_assoc.
    eexists _, (cs ++ [_])%list, u. split; [reflexivity|].
    split; [rewrite dels_app, Hd; reflexivity|].
    destruct Hc as [(-> & ->)|[(Hs & -> & e' & He & _)|(Hs & Hp)]]; eauto.
    right; right. rewrite staged_app, Hs. auto.
Qed.

(** The whole handler: it answers; and when an upload was started and
    fulfilled, the answer is that of the [try] and [catch] blocks and the
    deletions are those of the [finally] block. *)
Lemma blob_handler_cleanup w req o s' :
  run (VercelBlob.handler w req) = (o, s') ->
  (exists resp, o = Return resp) /\
  (staged (trace s') = true ->
   forall u, blob_put w = Fulfilled u ->
     o = fst (try_catch (VercelBlob.attempt w req) VercelBlob.recover initial) /\
     dels (trace s') = if u =? "" then [] else [u]).
Proof.
  intros Hrun.
  destruct (method req =? "OPTIONS") eqn:H1;
    [|destruct (method req =? "POST") eqn:H2].
  - destruct (blob_handler_other w req (or_introl H1)) as (resp & E).
    rewrite E in Hrun. inversion Hrun; subst. split; [now exists resp|].
    discriminate.
  - rewrite (blob_handler_post w req H1 H2) in Hrun.
    destruct (protected_cases w req initial) as (resp & cs & u & E & Hd & Hc).
    unfold try_finally in Hrun. rewrite E, cleanup_run in Hrun.
    cbn [publicAudioUrl trace initial app] in Hrun.
    inversion Hrun; subst; clear Hrun. split; [now exists resp|].
    unfold record. cbn [trace publicAudioUrl].
    rewrite staged_app, dels_app, Hd, dels_cleanup_calls. cbn [app].
    intros Hst u' Hput. rewrite E. cbn [fst]. split; [reflexivity|].
    destruct Hc as [(Hs & ->)|[(-> & e & He)|(Hs & Hp)]].
    + rewrite Hs in Hst. cbn in Hst. discriminate.
    + rewrite He in Hput. discriminate.
    + rewrite Hp in Hput. now inversion Hput.
  - destruct (blob_handler_other w req (or_intror H2)) as (resp & E).
    rewrite E in Hrun. inversion Hrun; subst. split; [now exists resp|].
    discriminate.
Qed.

(** A submission that passes the checks and whose upload is fulfilled: the
    response is built from the way steps 1 to 3 end, and the [finally] block
    runs after them. *)
Lemma blob_submission w req reqBody imageBase64 audioBase64 audioBuffer url o cs :
  method req = "POST" ->
  req_json req = Fulfilled reqBody ->
  JS.get reqBody "imageBase64" = inr imageBase64 ->
  JS.get reqBody "audioBase64" = inr audioBase64 ->
  configured (env_HEYGEN_API_KEY w) = true ->
  configured (env_BLOB_READ_WRITE_TOKEN w) = true ->
  JS.truthy imageBase64 = true -> JS.truthy audioBase64 = true ->
  Buffer_from w audioBase64 = inr audioBuffer ->
  blob_put w = Fulfilled url ->
  let staged_store :=
    {| trace := [Put ("podcast-audio-" ++ show_Z (Date_now w 0) ++ ".wav")
                     audioBuffer "public" "audio/wav"];
       publicAudioUrl := url |} in
  generate_video w imageBase64 (JS.Str url) (env_value (env_HEYGEN_API_KEY w)) 1
    staged_store = (o, record staged_store cs) ->
  run (VercelBlob.handler w req) =
  (vercel_response o,
   record staged_store (cs ++ vercel_log o ++ cleanup_calls w url)).
Proof.
  intros Hm Hj Hi Ha Hk Hb Hti Hta Hbuf Hput st Hg. unfold configured in Hk, Hb.
  unfold run, VercelBlob.handler. post_only Hm.
  unfold bind at 1. cbn [set_publicAudioUrl initial trace].
  unfold try_finally, VercelBlob.attempt, VercelBlob.recover. monad_unfold.
  by_eq Hj. by_eq Hi. by_eq Ha. rewrite Hk, Hb, Hti, Hta. cbn [negb orb].
  by_eq Hbuf. by_eq Hput.
  change (record {| trace := []; publicAudioUrl := "" |} ?c) with
    {| trace := c; publicAudioUrl := "" |}.
  cbn [trace publicAudioUrl].
  fold st. rewrite Hg.
  assert (Hne : o <> OutOfFuel)
    by (now destruct (generate_video_ends _ _ _ _ _ _ _ _ Hg)).
  destruct o; [| |contradiction]; cbn beta iota; rewrite cleanup_run;
    unfold record; cbn [trace publicAudioUrl vercel_response vercel_log app];
    rewrite <- ?app_assoc; reflexivity.
Qed.

(** A submission that does not pass the checks: no call is made. *)
Lemma blob_refuses w req reqBody imageBase64 audioBase64 :
  method req = "POST" ->
  req_json req = Fulfilled reqBody ->
  JS.get reqBody "imageBase64" = inr imageBase64 ->
  JS.get reqBody "audioBase64" = inr audioBase64 ->
  configured (env_HEYGEN_API_KEY w) = false \/
  configured (env_BLOB_READ_WRITE_TOKEN w) = false \/
  JS.truthy imageBase64 = false \/ JS.truthy audioBase64 = false ->
  run (VercelBlob.handler w req) = (Return (blob_refusal w), initial).
Proof.
  intros Hm Hj Hi Ha H.
  unfold run, VercelBlob.handler, blob_refusal, configured in *.
  post_only Hm. unfold bind at 1. cbn [set_publicAudioUrl initial trace].
  unfold try_finally, VercelBlob.attempt. monad_unfold.
  by_eq Hj. by_eq Hi. by_eq Ha.
  destruct (JS.truthy (env_value (env_HEYGEN_API_KEY w))); cbn [negb];
    [|rewrite cleanup_run; cbn; reflexivity].
  destruct (JS.truthy (env_value (env_BLOB_READ_WRITE_TOKEN w))); cbn [negb];
    [|rewrite cleanup_run; cbn; reflexivity].
  destruct H as [H|[H|[H|H]]]; [discriminate|discriminate| |]; rewrite H;
    cbn [negb orb]; [|rewrite orb_true_r]; rewrite cleanup_run; reflexivity.
Qed.

Lemma blob_400_configured w req resp :
  fst (run (VercelBlob.handler w req)) = Return resp ->
  status resp = 400%Z ->
  configured (env_HEYGEN_API_KEY w) = true /\
  configured (env_BLOB_READ_WRITE_TOKEN w) = true.
Proof.
  unfold run, VercelBlob.handler, configured. intros H Hst.
  destruct (method req =? "OPTIONS");
    [cbn in H; injection H as <-; discriminate|].
  destruct (negb (method req =? "POST"));
    [cbn in H; injection H as <-; discriminate|].
  revert H. unfold bind at 1. cbn [set_publicAudioUrl initial trace].
  unfold try_finally, VercelBlob.attempt, VercelBlob.recover. monad_unfold.
  destruct (req_json req) as [reqBody|e]; cbn beta iota;
    [|rewrite cleanup_run; cbn; intros [= <-]; discriminate].
  destruct (JS.get reqBody "imageBase64") as [e|imageBase64]; cbn beta iota;
    [rewrite cleanup_run; cbn; intros [= <-]; discriminate|].
  destruct (JS.get reqBody "audioBase64") as [e|audioBase64]; cbn beta iota;
    [rewrite cleanup_run; cbn; intros [= <-]; discriminate|].
  destruct (JS.truthy (env_value (env_HEYGEN_API_KEY w))); cbn [negb];
    [|rewrite cleanup_run; cbn; intros [= <-]; discriminate].
  destruct (JS.truthy (env_value (env_BLOB_READ_WRITE_TOKEN w))); cbn [negb];
    [|rewrite cleanup_run; cbn; intros [= <-]; discriminate].
  auto.
Qed.

(* ===================================================================== *)
(** * The Supabase variant *)
(* ===================================================================== *)

Lemma supabase_preflight w req :
  method req = "OPTIONS" ->
  run (Supabase.serve w req) =
  (Return {| status := 200; headers := Supabase.corsHeaders;
             body := BodyText "ok" |}, initial).
Proof. intros H. unfold run, Supabase.serve. now rewrite H. Qed.

(** There is no test of the verb after the pre-flight: the verb of a
    request that is not a pre-flight has no influence on what [serve] does. *)
Lemma supabase_ignores_verb w req verb :
  method req <> "OPTIONS" -> verb <> "OPTIONS" ->
  run (Supabase.serve w req) =
  run (Supabase.serve w {| method := verb; req_json := req_json req |}).
Proof.
  intros H1 H2. apply String.eqb_neq in H1, H2.
  unfold run, Supabase.serve. cbn [method req_json]. now rewrite H1, H2.
Qed.

(* ===================================================================== *)
(** * The end-to-end scenarios *)
(* ===================================================================== *)

(** Image IMG, audio AUD staged at https://store/ex1.wav, avatar_42, job_7,
    then processing, processing, succeeded: the blob handler returns the
    video URL and deletes the staged audio once, though the deletion fails. *)
Example scenario_blob :
  fst (run (VercelBlob.handler scenario full_request)) =
    Return (video_response (JS.Str "https://cdn/out.mp4")) /\
  dels (trace (snd (run (VercelBlob.handler scenario full_request)))) =
    ["https://store/ex1.wav"] /\
  status_checks (trace (snd (run (VercelBlob.handler scenario full_request)))) = 3%nat /\
  delays (trace (snd (run (VercelBlob.handler scenario full_request)))) =
    [pollDelay; pollDelay].
Proof. repeat split. Qed.

(** The same job through the URL variant and through the Supabase variant:
    no staging, no deletion. *)
Example scenario_url :
  fst (run (Vercel.handler scenario full_request)) =
    Return (video_response (JS.Str "https://cdn/out.mp4")) /\
  fst (run (Supabase.serve scenario full_request)) =
    Return {| status := 200;
              headers := Supabase.with_json Supabase.corsHeaders;
              body := BodyJson (JS.Obj [("videoUrl", JS.Str "https://cdn/out.mp4")]) |} /\
  staged (trace (snd (run (Vercel.handler scenario full_request)))) = false /\
  dels (trace (snd (run (Vercel.handler scenario full_request)))) = [].
Proof. repeat split. Qed.

(** The URL variant on a job that succeeds on its [N]-th check. *)
Lemma vercel_succeeded_job w req reqBody imageBase64 audioUrl videoId N videoUrl :
  method req = "POST" ->
  req_json req = Fulfilled reqBody ->
  JS.get reqBody "imageBase64" = inr imageBase64 ->
  JS.get reqBody "audioUrl" = inr audioUrl ->
  JS.truthy imageBase64 = true -> JS.truthy audioUrl = true ->
  configured (env_HEYGEN_API_KEY w) = true ->
  job_succeeds w videoId N videoUrl ->
  fst (run (Vercel.handler w req)) = Return (video_response videoUrl).
Proof.
  intros Hm Hj Hi Ha Hti Hta Hk
         ((avatarId & Hav) & Hvid & HN & Hall & Hs & Hu).
  erewrite (vercel_submission w req reqBody imageBase64 audioUrl
              (Return videoUrl)); try eassumption; [reflexivity|].
  rewrite (generate_video_polls w _ _ _ _ avatarId (JS.Str videoId) _ Hav Hvid).
  now rewrite (poll_succeeds w videoId _ _ N videoUrl HN Hall Hs Hu).
Qed.

(** ** Bodies that cannot be destructured *)

(** Every property can be read from a value other than [null] and
    [undefined]. *)
Lemma get_defined v key :
  v <> JS.Null -> v <> JS.Undefined -> exists x, JS.get v key = inr x.
Proof. destruct v; intros H1 H2; try contradiction; cbn; eauto. Qed.

Lemma get_undefined v key :
  v = JS.Null \/ v = JS.Undefined ->
  JS.get v key = inl (TypeError ("Cannot read properties: " ++ key)).
Proof. now intros [-> | ->]. Qed.

Lemma vercel_destructuring_throws w req reqBody e :
  method req = "POST" ->
  req_json req = Fulfilled reqBody ->
  JS.get reqBody "imageBase64" = inl e ->
  run (Vercel.handler w req) =
  (Return (caught_response e),
   record initial [ConsoleError "Error in Vercel function:" e]).
Proof.
  intros Hm Hj Hi. unfold run, Vercel.handler. post_only Hm. monad_unfold.
  by_eq Hj. by_eq Hi. reflexivity.
Qed.

Lemma blob_destructuring_throws w req reqBody e :
  method req = "POST" ->
  req_json req = Fulfilled reqBody ->
  JS.get reqBody "imageBase64" = inl e ->
  run (VercelBlob.handler w req) =
  (Return (caught_response e),
   record initial [ConsoleError "Error in Vercel function:" e]).
Proof.
  intros Hm Hj Hi. unfold run, VercelBlob.handler. post_only Hm.
  unfold bind at 1. cbn [set_publicAudioUrl initial trace].
  unfold try_finally, VercelBlob.attempt, VercelBlob.recover. monad_unfold.
  by_eq Hj. by_eq Hi. rewrite cleanup_run. cbn. reflexivity.
Qed.

(* ===================================================================== *)
(** * The properties of the specification *)
(* ===================================================================== *)

(** C1, as stated, fails: the provider reports the job succeeded on the
    third status check, in a reply that carries no [video_url]; the request
    is valid, and the handler answers 200 with [{ videoUrl: undefined }],
    which is not a URL.  [pollVideoStatus] returns [undefined]: the code
    hands on the field of the reply without looking at it. *)
Lemma succeeded_job_without_url :
  valid_blob_request no_result_url full_request /\
  (forall i, (1 <= i < 3)%nat ->
             processing (heygen no_result_url (VideoStatusGet i)) = true) /\
  parsed (heygen no_result_url (VideoStatusGet 3)) "status"
    = Some (JS.Str "succeeded") /\
  fst (run (VercelBlob.handler no_result_url full_request)) =
    Return {| status := 200;
              headers := [("Content-Type", "application/json");
                          ("Access-Control-Allow-Origin", "*")];
              body := BodyJson (JS.Obj [("videoUrl", JS.Undefined)]) |} /\
  fst (pollVideoStatus no_result_url (JS.Str "job_7") (JS.Str "key") initial)
    = Return JS.Undefined /\
  JS.truthy JS.Undefined = false.
Proof.
  split.
  { split; [reflexivity|].
    exists full_body, (JS.Str "IMG"), (JS.Str "AUD").
    repeat split; try reflexivity. now exists [1%N; 64%N]. }
  split.
  { intros i Hi. assert (i = 1 \/ i = 2)%nat as [-> | ->] by lia; reflexivity. }
  repeat split.
Qed.

(** C1, amended.  For every valid request for which the provider creates
    the avatar and the job and reports the job 'succeeded' on the N-th
    status check, N <= 30, the checks before having found it in progress,
    the orchestrator returns to the caller the [video_url] of that reply as
    it stands: the blob handler answers 200 with the body
    [{ videoUrl: video_url }] after exactly N status checks, and
    [pollVideoStatus] returns that value.  The result is a non-empty URL
    exactly when the reply of the provider carries one. *)
Theorem succeeded_job_returns_url w req videoId N videoUrl stagedUrl :
  valid_blob_request w req ->
  configured (env_HEYGEN_API_KEY w) = true ->
  configured (env_BLOB_READ_WRITE_TOKEN w) = true ->
  blob_put w = Fulfilled stagedUrl ->
  job_succeeds w videoId N videoUrl ->
  exists s',
    run (VercelBlob.handler w req) =
      (Return {| status := 200;
                 headers := [("Content-Type", "application/json");
                             ("Access-Control-Allow-Origin", "*")];
                 body := BodyJson (JS.Obj [("videoUrl", videoUrl)]) |},
       s') /\
    status_checks (trace s') = N /\
    forall apiKey s,
      fst (pollVideoStatus w (JS.Str videoId) apiKey s) = Return videoUrl.
Proof.
  intros (Hm & reqBody & imageBase64 & audioBase64 & Hj & Hi & Ha & Hti & Hta
          & audioBuffer & Hbuf) Hk Hb Hput
         ((avatarId & Hav) & Hvid & HN & Hall & Hs & Hu).
  eexists. split; [|split].
  - change {| status := 200;
              headers := [("Content-Type", "application/json");
                          ("Access-Control-Allow-Origin", "*")];
              body := BodyJson (JS.Obj [("videoUrl", videoUrl)]) |}
      with (video_response videoUrl).
    change (Return (video_response videoUrl))
      with (vercel_response (Return videoUrl)).
    eapply (blob_submission w req reqBody imageBase64 audioBase64 audioBuffer
              stagedUrl (Return videoUrl)); try eassumption.
    cbv zeta.
    rewrite (generate_video_polls w _ _ _ _ avatarId (JS.Str videoId) _ Hav Hvid).
    rewrite (poll_succeeds w videoId _ _ N videoUrl HN Hall Hs Hu).
    rewrite record_record. reflexivity.
  - unfold record. cbn [trace vercel_log app].
    match goal with
    | |- status_checks (?a :: ?b :: ?c :: ?rest) = _ =>
        change (status_checks ([a; b; c] ++ rest) = N)
    end.
    rewrite !status_checks_app, status_checks_ticks, status_checks_cleanup_calls.
    change (status_checks [_; _; _]) with 0%nat.
    change (status_checks [_]) with 1%nat. lia.
  - intros apiKey s.
    now rewrite (poll_succeeds w videoId apiKey s N videoUrl HN Hall Hs Hu).
Qed.

Lemma succeeded_job_returns_url_witness :
  exists s',
    run (VercelBlob.handler scenario full_request) =
      (Return {| status := 200;
                 headers := [("Content-Type", "application/json");
                             ("Access-Control-Allow-Origin", "*")];
                 body := BodyJson
                           (JS.Obj [("videoUrl", JS.Str "https://cdn/out.mp4")]) |},
       s') /\
    status_checks (trace s') = 3%nat /\
    forall apiKey s,
      fst (pollVideoStatus scenario (JS.Str "job_7") apiKey s) =
      Return (JS.Str "https://cdn/out.mp4").
Proof.
  apply (succeeded_job_returns_url scenario full_request "job_7" 3
           (JS.Str "https://cdn/out.mp4") "https://store/ex1.wav").
  - split; [reflexivity|].
    exists full_body, (JS.Str "IMG"), (JS.Str "AUD").
    repeat split; try reflexivity. now exists [1%N; 64%N].
  - reflexivity.
  - reflexivity.
  - reflexivity.
  - split; [now exists (JS.Str "avatar_42")|].
    split; [reflexivity|]. split; [unfold maxAttempts; lia|].
    split.
    + intros i Hi. assert (i = 1 \/ i = 2)%nat as [-> | ->] by lia; reflexivity.
    + repeat split; reflexivity.
Defined.

(** C2.  Whenever an upload to the blob store was started and fulfilled with
    the URL of the staged asset, the trace of the handler holds exactly one
    deletion, that of this URL, on every exit path; the handler returns a
    response (it never throws), and that response is the one the [try] and
    [catch] blocks produced, whatever the deletion did. *)
Theorem staged_asset_deleted_once w req o s' stagedUrl :
  run (VercelBlob.handler w req) = (o, s') ->
  staged (trace s') = true ->
  blob_put w = Fulfilled stagedUrl ->
  stagedUrl <> "" ->
  dels (trace s') = [stagedUrl] /\
  (exists resp, o = Return resp) /\
  o = fst (try_catch (VercelBlob.attempt w req) VercelBlob.recover initial).
Proof.
  intros Hrun Hst Hput Hne.
  destruct (blob_handler_cleanup w req o s' Hrun) as (Hresp & Hdel).
  destruct (Hdel Hst stagedUrl Hput) as (Ho & Hd).
  apply String.eqb_neq in Hne. rewrite Hne in Hd. auto.
Qed.

Lemma staged_asset_deleted_once_witness :
  dels (trace (snd (run (VercelBlob.handler failing full_request)))) =
    ["https://store/ex1.wav"] /\
  (exists resp, fst (run (VercelBlob.handler failing full_request)) = Return resp) /\
  fst (run (VercelBlob.handler failing full_request)) =
  fst (try_catch (VercelBlob.attempt failing full_request) VercelBlob.recover initial).
Proof.
  apply (staged_asset_deleted_once failing full_request
           (fst (run (VercelBlob.handler failing full_request)))
           (snd (run (VercelBlob.handler failing full_request)))
           "https://store/ex1.wav").
  - vm_compute. reflexivity.
  - vm_compute. reflexivity.
  - reflexivity.
  - discriminate.
Defined.

(** C3.  If every status-check reply parses to a status that is neither
    'succeeded' nor 'failed', [pollVideoStatus] issues exactly 30 status
    checks, each followed by a delay, and then throws the time-out error; it
    returns no URL. *)
Theorem poll_times_out_after_30_checks w videoId apiKey s :
  (forall i, (1 <= i <= maxAttempts)%nat ->
             processing (heygen w (VideoStatusGet i)) = true) ->
  pollVideoStatus w (JS.Str videoId) apiKey s =
    (Throw (Error "HeyGen video generation timed out."),
     record s (ticks videoId apiKey 30)) /\
  status_checks (ticks videoId apiKey 30) = 30%nat.
Proof.
  intros Hall. split.
  - now apply poll_times_out.
  - apply status_checks_ticks.
Qed.

Lemma poll_times_out_after_30_checks_witness :
  pollVideoStatus never_done (JS.Str "job_7") (JS.Str "key") initial =
    (Throw (Error "HeyGen video generation timed out."),
     record initial (ticks "job_7" (JS.Str "key") 30)) /\
  status_checks (ticks "job_7" (JS.Str "key") 30) = 30%nat.
Proof.
  apply (poll_times_out_after_30_checks never_done "job_7" (JS.Str "key") initial).
  intros i _. reflexivity.
Defined.

(** C4.  For every attempt k with 1 <= k <= 30, if the k-th status-check
    reply parses to status 'failed' (the earlier ones having found the job
    processing), [pollVideoStatus] stops there: its trace holds k status
    checks and ends with the k-th, and it throws the job-failed error built
    from [data.data.error?.message || 'Unknown error'], which is the
    provider's message whenever that is a non-empty string. *)
Theorem poll_stops_on_failed_job w videoId apiKey s k message shown :
  (1 <= k <= maxAttempts)%nat ->
  (forall i, (1 <= i < k)%nat ->
             processing (heygen w (VideoStatusGet i)) = true) ->
  parsed (heygen w (VideoStatusGet k)) "status" = Some (JS.Str "failed") ->
  reported_message (heygen w (VideoStatusGet k)) = Some message ->
  JS.to_string (JS.or message (JS.Str "Unknown error")) = inr shown ->
  pollVideoStatus w (JS.Str videoId) apiKey s =
    (Throw (Error ("HeyGen video generation failed: " ++ shown)),
     record s (ticks videoId apiKey (k - 1) ++ [status_call videoId apiKey])) /\
  status_checks (ticks videoId apiKey (k - 1) ++ [status_call videoId apiKey]) = k /\
  (forall m, message = JS.Str m -> m <> "" -> shown = m).
Proof.
  intros Hk Hall Hs Hm Hshown. split; [|split].
  - apply poll_run; [exact Hk | exact Hall |].
    now apply (last_attempt_failed _ message shown).
  - apply status_checks_run. lia.
  - intros m -> Hne. unfold JS.or in Hshown. cbn [JS.truthy] in Hshown.
    destruct (m =? "") eqn:E; [apply String.eqb_eq in E; contradiction|].
    cbn in Hshown. congruence.
Qed.

Lemma poll_stops_on_failed_job_witness :
  pollVideoStatus failing (JS.Str "job_7") (JS.Str "key") initial =
    (Throw (Error "HeyGen video generation failed: quota exceeded"),
     record initial (ticks "job_7" (JS.Str "key") 1
                     ++ [status_call "job_7" (JS.Str "key")])) /\
  status_checks (ticks "job_7" (JS.Str "key") 1
                 ++ [status_call "job_7" (JS.Str "key")]) = 2%nat /\
  (forall m, JS.Str "quota exceeded" = JS.Str m -> m <> "" -> "quota exceeded" = m).
Proof.
  apply (poll_stops_on_failed_job failing "job_7" (JS.Str "key") initial 2
           (JS.Str "quota exceeded") "quota exceeded").
  - unfold maxAttempts. lia.
  - intros i Hi. assert (i = 1%nat) as -> by lia. reflexivity.
  - reflexivity.
  - reflexivity.
  - reflexivity.
Defined.

(** C5.  A status check answered 502 with an HTML body: [pollVideoStatus]
    does stop after this one check, but what it throws is the syntax error of
    [response.json()], not the error "HeyGen status check failed: ...". *)
Theorem status_check_error_lost_on_html_body :
  pollVideoStatus bad_gateway (JS.Str "job_7") (JS.Str "key") initial =
    (Throw SyntaxError, record initial [status_call "job_7" (JS.Str "key")]) /\
  forall shown,
    fst (pollVideoStatus bad_gateway (JS.Str "job_7") (JS.Str "key") initial)
    <> Throw (Error ("HeyGen status check failed: " ++ shown)).
Proof.
  split; [reflexivity|]. intros shown. discriminate.
Qed.

(** C6, as stated, fails: a submission without the host image, received
    when HEYGEN_API_KEY is not set, is answered with the configuration error
    (500), not with the validation error (400). *)
Lemma validation_is_not_first :
  JS.get no_image_body "imageBase64" = inr JS.Undefined /\
  run (Vercel.handler unconfigured no_image_request) =
    (Return (error_response 500 Vercel.missing_key), initial) /\
  status (error_response 500 Vercel.missing_key) <> 400%Z.
Proof. repeat split. discriminate. Qed.

(** C6, amended.  For every POST request whose body parses as JSON and
    lacks the host image or the audio input, both Vercel handlers issue no
    network call.  A body other than [null] is answered without any call at
    all: 400 with the validation error when the server configuration is
    present, 500 with the configuration error when it is not.  The body
    [null], from which nothing can be read, is answered 500 with the
    TypeError of the destructuring, after the console log only. *)
Theorem missing_input_makes_no_call w req reqBody :
  method req = "POST" ->
  req_json req = Fulfilled reqBody ->
  let answer (st : Z) (message : string) : Response :=
    {| status := st;
       headers := [("Content-Type", "application/json");
                   ("Access-Control-Allow-Origin", "*")];
       body := BodyJson (JS.Obj [("error", JS.Str message)]) |} in
  let thrown := TypeError "Cannot read properties: imageBase64" in
  let failure : Response :=
    {| status := 500;
       headers := [("Content-Type", "application/json");
                   ("Access-Control-Allow-Origin", "*")];
       body := BodyError thrown |} in
  (reqBody <> JS.Null -> reqBody <> JS.Undefined ->
   exists imageBase64 audioUrl audioBase64,
     JS.get reqBody "imageBase64" = inr imageBase64 /\
     JS.get reqBody "audioUrl" = inr audioUrl /\
     JS.get reqBody "audioBase64" = inr audioBase64 /\
     (JS.truthy imageBase64 = false \/ JS.truthy audioUrl = false ->
      run (Vercel.handler w req) =
        (Return
           (if configured (env_HEYGEN_API_KEY w)
            then answer 400%Z "Missing imageBase64 or audioUrl"
            else answer 500%Z "HeyGen API key is not configured on the server. Please set the HEYGEN_API_KEY environment variable in your Vercel project."),
         initial)) /\
     (JS.truthy imageBase64 = false \/ JS.truthy audioBase64 = false ->
      run (VercelBlob.handler w req) =
        (Return
           (if configured (env_HEYGEN_API_KEY w) then
              if configured (env_BLOB_READ_WRITE_TOKEN w)
              then answer 400%Z "Missing imageBase64 or audioBase64"
              else answer 500%Z "Vercel Blob storage is not configured. Please enable it for your project."
            else answer 500%Z "HeyGen API key is not configured. Set HEYGEN_API_KEY in Vercel environment variables."),
         initial))) /\
  (reqBody = JS.Null \/ reqBody = JS.Undefined ->
   run (Vercel.handler w req) =
     (Return failure, record initial [ConsoleError "Error in Vercel function:" thrown]) /\
   run (VercelBlob.handler w req) =
     (Return failure, record initial [ConsoleError "Error in Vercel function:" thrown]) /\
   network_calls (trace (snd (run (Vercel.handler w req)))) = [] /\
   network_calls (trace (snd (run (VercelBlob.handler w req)))) = []).
Proof.
  intros Hm Hj answer thrown failure. split.
  - intros Hn Hu.
    destruct (get_defined reqBody "imageBase64" Hn Hu) as (imageBase64 & Hi).
    destruct (get_defined reqBody "audioUrl" Hn Hu) as (audioUrl & Ha).
    destruct (get_defined reqBody "audioBase64" Hn Hu) as (audioBase64 & Hb).
    exists imageBase64, audioUrl, audioBase64.
    split; [exact Hi|]. split; [exact Ha|]. split; [exact Hb|].
    split; intros Hmiss.
    + rewrite (vercel_refuses w req reqBody imageBase64 audioUrl);
        [reflexivity|assumption..|auto].
    + rewrite (blob_refuses w req reqBody imageBase64 audioBase64);
        [reflexivity|assumption..|destruct Hmiss; auto].
  - intros Hnull.
    pose proof (get_undefined reqBody "imageBase64" Hnull) as Hi.
    rewrite (vercel_destructuring_throws w req reqBody _ Hm Hj Hi).
    rewrite (blob_destructuring_throws w req reqBody _ Hm Hj Hi).
    repeat split.
Qed.

Lemma missing_input_makes_no_call_witness :
  run (Vercel.handler scenario no_image_request) =
    (Return {| status := 400;
               headers := [("Content-Type", "application/json");
                           ("Access-Control-Allow-Origin", "*")];
               body := BodyJson
                         (JS.Obj [("error", JS.Str "Missing imageBase64 or audioUrl")]) |},
     initial) /\
  run (VercelBlob.handler scenario no_image_request) =
    (Return {| status := 400;
               headers := [("Content-Type", "application/json");
                           ("Access-Control-Allow-Origin", "*")];
               body := BodyJson
                         (JS.Obj [("error", JS.Str "Missing imageBase64 or audioBase64")]) |},
     initial).
Proof.
  destruct (missing_input_makes_no_call scenario no_image_request no_image_body
              eq_refl eq_refl) as (H & _).
  destruct H as (imageBase64 & audioUrl & audioBase64 & Hi & Ha & Hb & HV & HB);
    try discriminate.
  cbn in Hi. injection Hi as <-.
  split; [apply HV | apply HB]; left; reflexivity.
Defined.

(** C7.  If the avatar-creation call returns a non-2xx response with body
    "invalid image" (audio given as a URL), the handler fails with the
    avatar-creation error that contains "invalid image": the caller receives
    status 500 with the body [{ error: error.message }] of the error
    'HeyGen avatar creation failed: invalid image'.  The only call to the
    outside is the avatar creation: no video submission, no status check, no
    deletion. *)
Theorem avatar_refused_stops_pipeline w req reqBody imageBase64 audioUrl response :
  method req = "POST" ->
  req_json req = Fulfilled reqBody ->
  JS.get reqBody "imageBase64" = inr imageBase64 ->
  JS.get reqBody "audioUrl" = inr audioUrl ->
  JS.truthy imageBase64 = true -> JS.truthy audioUrl = true ->
  configured (env_HEYGEN_API_KEY w) = true ->
  heygen w AvatarFromImage = Fulfilled response ->
  ok response = false ->
  text response = Fulfilled "invalid image" ->
  let error := Error "HeyGen avatar creation failed: invalid image" in
  let call := avatar_call (env_value (env_HEYGEN_API_KEY w)) imageBase64
                          (Date_now w 0) in
  exists s',
    run (Vercel.handler w req) =
      (Return {| status := 500;
                 headers := [("Content-Type", "application/json");
                             ("Access-Control-Allow-Origin", "*")];
                 body := BodyError error |},
       s') /\
    trace s' = [call; ConsoleError "Error in Vercel function:" error] /\
    network_calls (trace s') = [call] /\
    status_checks (trace s') = 0%nat /\
    dels (trace s') = [].
Proof.
  intros Hm Hj Hi Ha Hti Hta Hk Hr Hok Ht error call.
  eexists. split.
  - rewrite (vercel_submission w req reqBody imageBase64 audioUrl (Throw error)
               (record initial [call])); try assumption.
    + cbn [vercel_response vercel_log]. rewrite record_record. reflexivity.
    + now apply (generate_video_avatar_refused w _ _ _ _ response "invalid image").
  - repeat split.
Qed.

Lemma avatar_refused_stops_pipeline_witness :
  let error := Error "HeyGen avatar creation failed: invalid image" in
  let call := avatar_call (JS.Str "key") (JS.Str "IMG") 1700000000000 in
  exists s',
    run (Vercel.handler invalid_image full_request) =
      (Return {| status := 500;
                 headers := [("Content-Type", "application/json");
                             ("Access-Control-Allow-Origin", "*")];
                 body := BodyError error |},
       s') /\
    trace s' = [call; ConsoleError "Error in Vercel function:" error] /\
    network_calls (trace s') = [call] /\
    status_checks (trace s') = 0%nat /\
    dels (trace s') = [].
Proof.
  apply (avatar_refused_stops_pipeline invalid_image full_request full_body
           (JS.Str "IMG") (JS.Str "https://host/audio.wav")
           (not_ok "Bad Request" "invalid image" (Rejected SyntaxError)));
    reflexivity.
Defined.

(** C8.  A PUT request with a complete body: the two Vercel handlers answer
    405 without a call, the Supabase function runs the whole pipeline (five
    requests to HeyGen) and answers 200 with the video URL. *)
Theorem supabase_accepts_any_verb :
  method put_request = "PUT" /\
  run (Vercel.handler scenario put_request) = (Return method_not_allowed, initial) /\
  run (VercelBlob.handler scenario put_request) = (Return method_not_allowed, initial) /\
  fst (run (Supabase.serve scenario put_request)) =
    Return {| status := 200;
              headers := Supabase.with_json Supabase.corsHeaders;
              body := BodyJson (JS.Obj [("videoUrl", JS.Str "https://cdn/out.mp4")]) |} /\
  length (network_calls (trace (snd (run (Supabase.serve scenario put_request)))))
    = 5%nat.
Proof. repeat split. Qed.

(** C9.  The configured duration is equal to, not greater than, the
    polling budget: 300 s = 30 x 10 s; a run of [pollVideoStatus] that never
    sees a terminal status spends the whole of [maxDuration] in its delays
    alone. *)
Theorem maxDuration_equals_poll_budget :
  config.maxDuration = (Z.of_nat maxAttempts * (pollDelay / 1000))%Z /\
  ~ (config.maxDuration > Z.of_nat maxAttempts * (pollDelay / 1000))%Z /\
  fold_right Z.add 0%Z
    (delays (trace (snd (pollVideoStatus never_done (JS.Str "job_7")
                           (JS.Str "key") initial))))
  = (config.maxDuration * 1000)%Z.
Proof.
  split; [reflexivity|]. split; [vm_compute; discriminate|].
  vm_compute. reflexivity.
Qed.

(** C10, as stated, fails: it is not every request that is answered with
    the configuration error when the configuration is absent.  The verb test
    and the reading of the body come first: without any configuration, a PUT
    request is answered 405 and a POST whose body is not JSON is answered
    500 with the parse error. *)
Lemma configuration_is_not_checked_first :
  configured (env_HEYGEN_API_KEY unconfigured) = false /\
  configured (env_BLOB_READ_WRITE_TOKEN unconfigured) = false /\
  run (Vercel.handler unconfigured put_request) =
    (Return {| status := 405;
               headers := [("Content-Type", "application/json");
                           ("Access-Control-Allow-Origin", "*")];
               body := BodyJson (JS.Obj [("error", JS.Str "Method not allowed")]) |},
     initial) /\
  run (VercelBlob.handler unconfigured unparseable_request) =
    (Return {| status := 500;
               headers := [("Content-Type", "application/json");
                           ("Access-Control-Allow-Origin", "*")];
               body := BodyError SyntaxError |},
     record initial [ConsoleError "Error in Vercel function:" SyntaxError]).
Proof. repeat split. Qed.

(** C10, amended.  Configuration is checked before the inputs.  A POST
    request whose body parses to a JSON value other than [null], received
    when HEYGEN_API_KEY (or, in the blob variant, the blob token) is absent,
    is answered 500 with the configuration error and without any call,
    whether or not the body holds the image and the audio; and, for every
    request, a response with status 400 is only returned when the
    configuration is present. *)
Theorem configuration_checked_before_input w req :
  let answer (message : string) : Response :=
    {| status := 500;
       headers := [("Content-Type", "application/json");
                   ("Access-Control-Allow-Origin", "*")];
       body := BodyJson (JS.Obj [("error", JS.Str message)]) |} in
  (forall reqBody,
     method req = "POST" -> req_json req = Fulfilled reqBody ->
     reqBody <> JS.Null -> reqBody <> JS.Undefined ->
     (configured (env_HEYGEN_API_KEY w) = false ->
      run (Vercel.handler w req) =
        (Return (answer "HeyGen API key is not configured on the server. Please set the HEYGEN_API_KEY environment variable in your Vercel project."),
         initial) /\
      run (VercelBlob.handler w req) =
        (Return (answer "HeyGen API key is not configured. Set HEYGEN_API_KEY in Vercel environment variables."),
         initial)) /\
     (configured (env_HEYGEN_API_KEY w) = true ->
      configured (env_BLOB_READ_WRITE_TOKEN w) = false ->
      run (VercelBlob.handler w req) =
        (Return (answer "Vercel Blob storage is not configured. Please enable it for your project."),
         initial))) /\
  (forall resp,
     fst (run (Vercel.handler w req)) = Return resp -> status resp = 400%Z ->
     configured (env_HEYGEN_API_KEY w) = true) /\
  (forall resp,
     fst (run (VercelBlob.handler w req)) = Return resp -> status resp = 400%Z ->
     configured (env_HEYGEN_API_KEY w) = true /\
     configured (env_BLOB_READ_WRITE_TOKEN w) = true).
Proof.
  intros answer. split; [|split].
  - intros reqBody Hm Hj Hn Hu.
    destruct (get_defined reqBody "imageBase64" Hn Hu) as (imageBase64 & Hi).
    destruct (get_defined reqBody "audioUrl" Hn Hu) as (audioUrl & Ha).
    destruct (get_defined reqBody "audioBase64" Hn Hu) as (audioBase64 & Hb).
    split.
    + intros Hk. split.
      * rewrite (vercel_refuses w req reqBody imageBase64 audioUrl); auto.
        unfold vercel_refusal. now rewrite Hk.
      * rewrite (blob_refuses w req reqBody imageBase64 audioBase64); auto.
        unfold blob_refusal. now rewrite Hk.
    + intros Hk Ht.
      rewrite (blob_refuses w req reqBody imageBase64 audioBase64); auto.
      unfold blob_refusal. now rewrite Hk, Ht.
  - apply vercel_400_configured.
  - apply blob_400_configured.
Qed.

Lemma configuration_checked_before_input_witness :
  run (Vercel.handler unconfigured no_image_request) =
    (Return {| status := 500;
               headers := [("Content-Type", "application/json");
                           ("Access-Control-Allow-Origin", "*")];
               body := BodyJson (JS.Obj [("error", JS.Str "HeyGen API key is not configured on the server. Please set the HEYGEN_API_KEY environment variable in your Vercel project.")]) |},
     initial) /\
  run (VercelBlob.handler unconfigured full_request) =
    (Return {| status := 500;
               headers := [("Content-Type", "application/json");
                           ("Access-Control-Allow-Origin", "*")];
               body := BodyJson (JS.Obj [("error", JS.Str "HeyGen API key is not configured. Set HEYGEN_API_KEY in Vercel environment variables.")]) |},
     initial).
Proof.
  split.
  - destruct (configuration_checked_before_input unconfigured no_image_request)
      as (HA & _).
    destruct (HA no_image_body eq_refl eq_refl) as (H & _);
      [discriminate | discriminate |].
    exact (proj1 (H eq_refl)).
  - destruct (configuration_checked_before_input unconfigured full_request)
      as (HA & _).
    destruct (HA full_body eq_refl eq_refl) as (H & _);
      [discriminate | discriminate |].
    exact (proj2 (H eq_refl)).
Defined.

(* ===================================================================== *)
(** * Further properties of the proxy *)
(* ===================================================================== *)

Lemma first_terminal_some w n : forall from k,
  first_terminal w n from = Some k ->
  (from < k <= from + n)%nat /\
  processing (heygen w (VideoStatusGet k)) = false /\
  forall i, (from < i < k)%nat -> processing (heygen w (VideoStatusGet i)) = true.
Proof.
  induction n as [|n IH]; intros from k; cbn [first_terminal]; [discriminate|].
  destruct (processing (heygen w (VideoStatusGet (S from)))) eqn:E.
  - intros H. destruct (IH _ _ H) as (Hk & Hp & Hall).
    split; [lia|]. split; [exact Hp|].
    intros i Hi. destruct (Nat.eq_dec i (S from)) as [->|]; [exact E|].
    apply Hall. lia.
  - intros [= <-]. split; [lia|]. split; [exact E|]. intros i Hi. lia.
Qed.

Lemma first_terminal_none w n : forall from,
  first_terminal w n from = None ->
  forall i, (from < i <= from + n)%nat ->
            processing (heygen w (VideoStatusGet i)) = true.
Proof.
  induction n as [|n IH]; intros from; cbn [first_terminal]; [intros _ i Hi; lia|].
  destruct (processing (heygen w (VideoStatusGet (S from)))) eqn:E; [|discriminate].
  intros H i Hi. destruct (Nat.eq_dec i (S from)) as [->|]; [exact E|].
  apply (IH _ H). lia.
Qed.

Lemma last_attempt_processing r :
  processing r = false -> exists o, last_attempt r = Some o.
Proof.
  unfold processing, parsed, parsed_data, last_attempt.
  destruct r as [response|e]; [|now eexists].
  destruct (ok response); cbn [negb]; [|now eexists].
  destruct (json response) as [data|e]; [|now eexists].
  destruct (JS.get data "data") as [e|d]; [now eexists|].
  destruct (JS.get d "status") as [e|st]; [now eexists|].
  destruct (JS.is_str st "succeeded"); cbn [negb andb].
  - destruct (JS.get d "video_url"); now eexists.
  - destruct (JS.is_str st "failed"); cbn [negb]; [now eexists|discriminate].
Qed.

Lemma is_str_eq v lit : JS.is_str v lit = true -> v = JS.Str lit.
Proof.
  destruct v; cbn; try discriminate. intros H. apply String.eqb_eq in H. now subst.
Qed.

Lemma last_attempt_return r v :
  last_attempt r = Some (Return v) ->
  parsed r "status" = Some (JS.Str "succeeded") /\
  parsed r "video_url" = Some v.
Proof.
  unfold parsed, parsed_data, last_attempt.
  destruct r as [response|e]; [|discriminate].
  destruct (ok response); cbn [negb]; [|discriminate].
  destruct (json response) as [data|e]; [|discriminate].
  destruct (JS.get data "data") as [e|d]; [discriminate|].
  destruct (JS.get d "status") as [e|st]; [discriminate|].
  destruct (JS.is_str st "succeeded") eqn:E.
  - destruct (JS.get d "video_url"); [discriminate|].
    intros [= <-]. now rewrite (is_str_eq _ _ E).
  - destruct (JS.is_str st "failed"); discriminate.
Qed.

(** The loop only looks at the string image of [videoId]. *)
Lemma poll_loop_videoId w videoId id apiKey fuel :
  JS.to_string videoId = inr id ->
  forall status videoUrl attempt s,
    poll_loop w fuel videoId apiKey status videoUrl attempt s =
    poll_loop w fuel (JS.Str id) apiKey status videoUrl attempt s.
Proof.
  intros Hid. induction fuel as [|fuel IH]; intros status videoUrl attempt s;
    cbn [poll_loop]; [reflexivity|].
  destruct (negb (JS.is_str status "succeeded") && (attempt <? maxAttempts)%nat);
    [|reflexivity].
  monad_unfold. rewrite Hid. cbn [JS.to_string]. cbn beta iota.
  destruct (heygen w _) as [response|e]; cbn beta iota; [|reflexivity].
  destruct (negb (ok response)); [reflexivity|].
  destruct (json response) as [data|e]; cbn beta iota; [|reflexivity].
  destruct (JS.get data "data") as [e|d]; cbn beta iota; [reflexivity|].
  destruct (JS.get d "status") as [e|st]; cbn beta iota; [reflexivity|].
  destruct (JS.is_str st "succeeded"); [reflexivity|].
  destruct (JS.is_str st "failed"); [reflexivity|].
  apply IH.
Qed.

Lemma pollVideoStatus_videoId w videoId id apiKey s :
  JS.to_string videoId = inr id ->
  pollVideoStatus w videoId apiKey s = pollVideoStatus w (JS.Str id) apiKey s.
Proof.
  intros Hid. unfold pollVideoStatus. unfold bind.
  now rewrite (poll_loop_videoId w videoId id apiKey _ Hid).
Qed.

Lemma pollVideoStatus_bad_videoId w videoId e apiKey s :
  JS.to_string videoId = inl e ->
  pollVideoStatus w videoId apiKey s = (Throw e, s).
Proof.
  intros Hid. unfold pollVideoStatus. unfold bind at 1.
  change maxAttempts with (S 29). cbn [poll_loop JS.is_str String.eqb negb andb].
  change (0 <? S 29)%nat with true. cbn beta iota.
  monad_unfold. now rewrite Hid.
Qed.

(** [pollVideoStatus] without its loop. *)
Lemma pollVideoStatus_cases w id apiKey s :
  match first_terminal w maxAttempts 0 with
  | Some k =>
      exists o,
        last_attempt (heygen w (VideoStatusGet k)) = Some o /\
        pollVideoStatus w (JS.Str id) apiKey s =
        (o, record s (ticks id apiKey (k - 1) ++ [status_call id apiKey]))
  | None =>
      pollVideoStatus w (JS.Str id) apiKey s =
      (Throw (Error "HeyGen video generation timed out."),
       record s (ticks id apiKey maxAttempts))
  end.
Proof.
  destruct (first_terminal w maxAttempts 0) as [k|] eqn:E.
  - destruct (first_terminal_some _ _ _ _ E) as (Hk & Hp & Hall).
    destruct (last_attempt_processing _ Hp) as (o & Ho).
    exists o. split; [exact Ho|].
    apply poll_run; [lia | intros i Hi; apply Hall; lia | exact Ho].
  - apply poll_times_out. intros i Hi.
    apply (first_terminal_none _ _ _ E). lia.
Qed.

Lemma delays_app a b : delays (a ++ b) = (delays a ++ delays b)%list.
Proof. apply flat_map_app. Qed.

Lemma delays_run id apiKey n :
  delays (ticks id apiKey n ++ [status_call id apiKey]) = repeat pollDelay n.
Proof. rewrite delays_app, delays_ticks. cbn. now rewrite app_nil_r. Qed.

(** The shape of every trace of [pollVideoStatus]. *)
Lemma pollVideoStatus_shape w videoId apiKey s :
  exists o cs,
    pollVideoStatus w videoId apiKey s = (o, record s cs) /\
    ((cs = [] /\ exists e, o = Throw e) \/
     (exists id k, (1 <= k <= maxAttempts)%nat /\
        cs = (ticks id apiKey (k - 1) ++ [status_call id apiKey])%list) \/
     (exists id, cs = ticks id apiKey maxAttempts /\
        o = Throw (Error "HeyGen video generation timed out."))).
Proof.
  destruct (JS.to_string videoId) as [e|id] eqn:Hid.
  - exists (Throw e), []. rewrite record_nil. split; [|left; split; eauto].
    now apply pollVideoStatus_bad_videoId.
  - rewrite (pollVideoStatus_videoId w videoId id apiKey s Hid).
    pose proof (pollVideoStatus_cases w id apiKey s) as H.
    destruct (first_terminal w maxAttempts 0) as [k|] eqn:E.
    + destruct H as (o & Ho & H).
      destruct (first_terminal_some _ _ _ _ E) as (Hk & _).
      exists o, (ticks id apiKey (k - 1) ++ [status_call id apiKey])%list.
      split; [exact H|]. right; left. exists id, k. split; [lia|reflexivity].
    + eexists _, _. split; [exact H|]. right; right. now exists id.
Qed.

(** X1.  Every call of [pollVideoStatus], whatever HeyGen answers and
    whatever [videoId] is, ends (it returns or throws), after at most 30
    status checks; every delay it waits is 10 000 ms, there are never more
    delays than status checks, and when it returns a URL it has waited
    exactly one delay fewer than it made status checks (none after the
    check that saw the job succeed). *)
Theorem poll_is_bounded w videoId apiKey s :
  exists o cs,
    pollVideoStatus w videoId apiKey s = (o, record s cs) /\
    o <> OutOfFuel /\
    (status_checks cs <= 30)%nat /\
    (length (delays cs) <= status_checks cs)%nat /\
    delays cs = repeat pollDelay (length (delays cs)) /\
    (forall v, o = Return v -> S (length (delays cs)) = status_checks cs).
Proof.
  destruct (pollVideoStatus_shape w videoId apiKey s) as (o & cs & E & H).
  exists o, cs. split; [exact E|].
  split.
  { destruct (quiet_pollVideoStatus w videoId apiKey s) as (o' & cs' & E' & Hne & _).
    rewrite E in E'. now injection E' as -> _. }
  destruct H as [(Hcs & e & Ho)|[(id & k & Hk & Hcs)|(id & Hcs & Ho)]]; subst cs.
  - cbn. repeat split; try lia. intros v Hv. congruence.
  - rewrite status_checks_run, delays_run, repeat_length by lia.
    unfold maxAttempts in Hk. repeat split; try lia.
  - rewrite status_checks_ticks, delays_ticks, repeat_length.
    unfold maxAttempts. repeat split; try lia. intros v Hv. congruence.
Qed.

Lemma pollVideoStatus_return w videoId apiKey s v s' :
  pollVideoStatus w videoId apiKey s = (Return v, s') ->
  exists k,
    (1 <= k <= maxAttempts)%nat /\
    (forall i, (1 <= i < k)%nat ->
               processing (heygen w (VideoStatusGet i)) = true) /\
    parsed (heygen w (VideoStatusGet k)) "status" = Some (JS.Str "succeeded") /\
    parsed (heygen w (VideoStatusGet k)) "video_url" = Some v /\
    status_checks (trace s') = (status_checks (trace s) + k)%nat.
Proof.
  intros E.
  destruct (JS.to_string videoId) as [e|id] eqn:Hid.
  - rewrite (pollVideoStatus_bad_videoId w videoId e apiKey s Hid) in E. discriminate.
  - rewrite (pollVideoStatus_videoId w videoId id apiKey s Hid) in E.
    pose proof (pollVideoStatus_cases w id apiKey s) as H.
    destruct (first_terminal w maxAttempts 0) as [k|] eqn:F.
    + destruct H as (o & Ho & H). rewrite H in E. injection E as -> <-.
      destruct (first_terminal_some _ _ _ _ F) as (Hk & _ & Hall).
      destruct (last_attempt_return _ _ Ho) as (Hs & Hu).
      exists k. split; [lia|]. split; [intros i Hi; apply Hall; lia|].
      split; [exact Hs|]. split; [exact Hu|].
      unfold record. cbn [trace]. rewrite status_checks_app, status_checks_run; lia.
    + rewrite H in E. discriminate.
Qed.

(** X2.  [pollVideoStatus] returns a value only from a job HeyGen reported
    as succeeded: if it returns [v], there is an attempt k <= 30 such that
    the k-1 checks before it left the job processing, the k-th reply parses
    to status 'succeeded', [v] is that reply's [data.video_url], and exactly
    k status checks were added to the trace. *)
Theorem poll_returns_only_succeeded w videoId apiKey s v s' :
  pollVideoStatus w videoId apiKey s = (Return v, s') ->
  exists k,
    (1 <= k <= maxAttempts)%nat /\
    (forall i, (1 <= i < k)%nat ->
               processing (heygen w (VideoStatusGet i)) = true) /\
    parsed (heygen w (VideoStatusGet k)) "status" = Some (JS.Str "succeeded") /\
    parsed (heygen w (VideoStatusGet k)) "video_url" = Some v /\
    status_checks (trace s') = (status_checks (trace s) + k)%nat.
Proof. apply pollVideoStatus_return. Qed.

Lemma poll_returns_only_succeeded_witness :
  exists k,
    (1 <= k <= maxAttempts)%nat /\
    (forall i, (1 <= i < k)%nat ->
               processing (heygen scenario (VideoStatusGet i)) = true) /\
    parsed (heygen scenario (VideoStatusGet k)) "status" = Some (JS.Str "succeeded") /\
    parsed (heygen scenario (VideoStatusGet k)) "video_url"
      = Some (JS.Str "https://cdn/out.mp4") /\
    status_checks
      (trace (snd (pollVideoStatus scenario (JS.Str "job_7") (JS.Str "key") initial)))
    = (status_checks (trace initial) + k)%nat.
Proof.
  apply (poll_returns_only_succeeded scenario (JS.Str "job_7") (JS.Str "key") initial
           (JS.Str "https://cdn/out.mp4")
           (snd (pollVideoStatus scenario (JS.Str "job_7") (JS.Str "key") initial))).
  vm_compute. reflexivity.
Defined.

(** X3.  A status check that fails is not retried.  After k-1 replies that
    leave the job processing (k <= 30), a rejected k-th [fetch] makes
    [pollVideoStatus] throw that rejection, and a k-th reply that is not ok
    makes it throw as well, in both cases after exactly k status checks and
    k-1 delays; when the body of the failed reply is JSON with a string
    [message], the error is 'HeyGen status check failed: ' followed by the
    message, or by the reply's [statusText] when the message is empty. *)
Theorem failed_status_check_stops_polling w videoId apiKey s k :
  (1 <= k <= maxAttempts)%nat ->
  (forall i, (1 <= i < k)%nat ->
             processing (heygen w (VideoStatusGet i)) = true) ->
  let t := (ticks videoId apiKey (k - 1) ++ [status_call videoId apiKey])%list in
  status_checks t = k /\
  (forall e,
     heygen w (VideoStatusGet k) = Rejected e ->
     pollVideoStatus w (JS.Str videoId) apiKey s = (Throw e, record s t)) /\
  (forall response,
     heygen w (VideoStatusGet k) = Fulfilled response -> ok response = false ->
     exists e,
       pollVideoStatus w (JS.Str videoId) apiKey s = (Throw e, record s t) /\
       forall errorBody message,
         json response = Fulfilled errorBody ->
         JS.get errorBody "message" = inr (JS.Str message) ->
         e = Error ("HeyGen status check failed: " ++
                    (if message =? "" then statusText response else message))).
Proof.
  intros Hk Hall t.
  destruct (poll_status_check_fails w videoId apiKey s k Hk Hall) as (Hbad & Hrej).
  split; [apply status_checks_run; lia|]. split; [exact Hrej|].
  intros response Hr Hok. exists (status_check_error response).
  split; [now apply Hbad|].
  intros errorBody message Hj Hm.
  apply (status_check_error_json response errorBody (JS.Str message)); auto.
  unfold JS.or. cbn [JS.truthy]. now destruct (message =? "").
Qed.

Lemma failed_status_check_stops_polling_witness :
  pollVideoStatus status_down (JS.Str "job_7") (JS.Str "key") initial =
  (Throw (Error "HeyGen status check failed: rate limited"),
   record initial (ticks "job_7" (JS.Str "key") 1
                   ++ [status_call "job_7" (JS.Str "key")])%list).
Proof.
  destruct (failed_status_check_stops_polling status_down "job_7" (JS.Str "key")
              initial 2) as (_ & _ & H).
  - unfold maxAttempts. lia.
  - intros i Hi. assert (i = 1%nat) as -> by lia. reflexivity.
  - destruct (H (not_ok "Service Unavailable" "{}"
                   (Fulfilled (JS.Obj [("message", JS.Str "rate limited")])))
                eq_refl eq_refl) as (e & E & He).
    rewrite (He (JS.Obj [("message", JS.Str "rate limited")]) "rate limited"
               eq_refl eq_refl) in E.
    exact E.
Defined.

(** The three ways steps 1 to 3 can go: the avatar is not created, the job
    is not created, or the job is polled. *)
Lemma generate_video_shape w imageBase64 audioUrl apiKey nowIdx s :
  let avatar := avatar_call apiKey imageBase64 (Date_now w nowIdx) in
  exists o cs,
    generate_video w imageBase64 audioUrl apiKey nowIdx s = (o, record s cs) /\
    ((cs = [avatar] /\ (exists e, o = Throw e) /\
      parsed (heygen w AvatarFromImage) "avatar_id" = None) \/
     (exists avatarId,
        parsed (heygen w AvatarFromImage) "avatar_id" = Some avatarId /\
        cs = [avatar; generate_call apiKey avatarId audioUrl] /\
        (exists e, o = Throw e) /\
        parsed (heygen w VideoGenerate) "video_id" = None) \/
     (exists avatarId videoId pcs,
        parsed (heygen w AvatarFromImage) "avatar_id" = Some avatarId /\
        parsed (heygen w VideoGenerate) "video_id" = Some videoId /\
        cs = (avatar :: generate_call apiKey avatarId audioUrl :: pcs) /\
        pollVideoStatus w videoId apiKey
          (record s [avatar; generate_call apiKey avatarId audioUrl]) =
        (o, record (record s [avatar; generate_call apiKey avatarId audioUrl]) pcs))).
Proof.
  intros avatar. unfold generate_video, parsed, parsed_data. monad_unfold.
  fold avatar.
  destruct (heygen w AvatarFromImage) as [r1|e]; cbn beta iota;
    [|eexists _, _; split; [reflexivity|left; eauto]].
  destruct (ok r1); cbn [negb]; cbn beta iota;
    [|destruct (text r1); cbn beta iota;
      (eexists _, _; split; [reflexivity|left; eauto])].
  destruct (json r1) as [data1|e]; cbn beta iota;
    [|eexists _, _; split; [reflexivity|left; eauto]].
  destruct (JS.get data1 "data") as [e|d1]; cbn beta iota;
    [eexists _, _; split; [reflexivity|left; eauto]|].
  destruct (JS.get d1 "avatar_id") as [e|avatarId]; cbn beta iota;
    [eexists _, _; split; [reflexivity|left; eauto]|].
  rewrite record_record. cbn [app].
  destruct (heygen w VideoGenerate) as [r2|e]; cbn beta iota;
    [|eexists _, _; split; [reflexivity|right; left; eauto 10]].
  destruct (ok r2); cbn [negb]; cbn beta iota;
    [|destruct (text r2); cbn beta iota;
      (eexists _, _; split; [reflexivity|right; left; eauto 10])].
  destruct (json r2) as [data2|e]; cbn beta iota;
    [|eexists _, _; split; [reflexivity|right; left; eauto 10]].
  destruct (JS.get data2 "data") as [e|d2]; cbn beta iota;
    [eexists _, _; split; [reflexivity|right; left; eauto 10]|].
  destruct (JS.get d2 "video_id") as [e|videoId]; cbn beta iota;
    [eexists _, _; split; [reflexivity|right; left; eauto 10]|].
  match goal with
  | |- context [pollVideoStatus w videoId apiKey ?s0] =>
      destruct (quiet_pollVideoStatus w videoId apiKey s0) as (o & pcs & E & _ & _)
  end.
  exists o, (avatar :: generate_call apiKey avatarId audioUrl :: pcs).
  split; [rewrite E, record_record; reflexivity|].
  right; right. exists avatarId, videoId, pcs. auto.
Qed.

Lemma vercel_run_complete w req : vercel_run w req (run (Vercel.handler w req)).
Proof.
  destruct (String.eqb_spec (method req) "OPTIONS") as [Ho|Ho].
  { rewrite (vercel_preflight w req Ho). now constructor. }
  destruct (String.eqb_spec (method req) "POST") as [Hp|Hp].
  2:{ rewrite (vercel_other_verbs w req Ho Hp). now constructor. }
  destruct (read_request req ["imageBase64"; "audioUrl"]) as [e|vs] eqn:Hr.
  - replace (run (Vercel.handler w req)) with
      (Return (caught_response e),
       record initial [ConsoleError "Error in Vercel function:" e]).
    + now constructor.
    + unfold run, Vercel.handler. post_only Hp. monad_unfold.
      unfold read_request in Hr. cbn [read_fields] in Hr.
      destruct (req_json req) as [body|e']; cbn beta iota;
        [|now injection Hr as ->].
      destruct (JS.get body "imageBase64") as [e'|i]; cbn beta iota;
        [now injection Hr as ->|].
      destruct (JS.get body "audioUrl") as [e'|a]; cbn beta iota;
        [now injection Hr as ->|discriminate].
  - unfold read_request in Hr. cbn [read_fields] in Hr.
    destruct (req_json req) as [body|e'] eqn:Hj; [|discriminate].
    destruct (JS.get body "imageBase64") as [e'|i] eqn:Hi; [discriminate|].
    destruct (JS.get body "audioUrl") as [e'|a] eqn:Ha; [discriminate|].
    injection Hr as <-.
    assert (Hread : read_request req ["imageBase64"; "audioUrl"] = inr [i; a])
      by (unfold read_request; cbn [read_fields]; now rewrite Hj, Hi, Ha).
    destruct (configured (env_HEYGEN_API_KEY w)) eqn:Hk;
      [destruct (JS.truthy i) eqn:Hti; [destruct (JS.truthy a) eqn:Hta|]|].
    + destruct (generate_video w i a (env_value (env_HEYGEN_API_KEY w)) 0 initial)
        as [o s'] eqn:Hg.
      rewrite (vercel_submission w req body i a o s'); auto.
      apply (vercel_run_generated w req i a o s'); auto.
      now destruct (generate_video_ends _ _ _ _ _ _ _ _ Hg).
    + rewrite (vercel_refuses w req body i a); auto.
      apply (vercel_run_refused w req i a); auto.
    + rewrite (vercel_refuses w req body i a); auto.
      apply (vercel_run_refused w req i a); auto.
    + rewrite (vercel_refuses w req body i a); auto.
      apply (vercel_run_refused w req i a); auto.
Qed.

Lemma read_request_inl req f1 f2 e :
  read_request req [f1; f2] = inl e ->
  req_json req = Rejected e \/
  exists body, req_json req = Fulfilled body /\
    (JS.get body f1 = inl e \/
     exists v, JS.get body f1 = inr v /\ JS.get body f2 = inl e).
Proof.
  unfold read_request. cbn [read_fields].
  destruct (req_json req) as [body|e']; [|intros [= ->]; now left].
  intros H. right. exists body. split; [reflexivity|].
  destruct (JS.get body f1) as [e'|v]; [injection H as ->; now left|].
  destruct (JS.get body f2) as [e'|v']; [|discriminate].
  injection H as ->. right. now exists v.
Qed.

Lemma read_request_inr req f1 f2 v1 v2 :
  read_request req [f1; f2] = inr [v1; v2] ->
  exists body, req_json req = Fulfilled body /\
    JS.get body f1 = inr v1 /\ JS.get body f2 = inr v2.
Proof.
  unfold read_request. cbn [read_fields].
  destruct (req_json req) as [body|e']; [|discriminate].
  destruct (JS.get body f1) as [e'|v] eqn:H1; [discriminate|].
  destruct (JS.get body f2) as [e'|v'] eqn:H2; [discriminate|].
  intros [= <- <-]. now exists body.
Qed.

Lemma read_request_two req f1 f2 vs :
  read_request req [f1; f2] = inr vs -> exists v1 v2, vs = [v1; v2].
Proof.
  unfold read_request. cbn [read_fields].
  destruct (req_json req) as [body|e']; [|discriminate].
  destruct (JS.get body f1) as [e'|v]; [discriminate|].
  destruct (JS.get body f2) as [e'|v']; [discriminate|].
  intros [= <-]. now exists v, v'.
Qed.

Lemma blob_unreadable w req e :
  method req = "POST" ->
  read_request req ["imageBase64"; "audioBase64"] = inl e ->
  run (VercelBlob.handler w req) =
  (Return (caught_response e),
   record initial [ConsoleError "Error in Vercel function:" e]).
Proof.
  intros Hm Hr. unfold run, VercelBlob.handler. post_only Hm.
  unfold bind at 1. cbn [set_publicAudioUrl initial trace].
  unfold try_finally, VercelBlob.attempt, VercelBlob.recover. monad_unfold.
  destruct (read_request_inl _ _ _ _ Hr) as [Hj|(body & Hj & [Hi|(v & Hi & Ha)])].
  - by_eq Hj. rewrite cleanup_run. cbn. reflexivity.
  - by_eq Hj. by_eq Hi. rewrite cleanup_run. cbn. reflexivity.
  - by_eq Hj. by_eq Hi. by_eq Ha. rewrite cleanup_run. cbn. reflexivity.
Qed.

Lemma blob_not_staged w req imageBase64 audioBase64 :
  method req = "POST" ->
  read_request req ["imageBase64"; "audioBase64"] = inr [imageBase64; audioBase64] ->
  configured (env_HEYGEN_API_KEY w) = true ->
  configured (env_BLOB_READ_WRITE_TOKEN w) = true ->
  JS.truthy imageBase64 = true -> JS.truthy audioBase64 = true ->
  (forall e, Buffer_from w audioBase64 = inl e ->
     run (VercelBlob.handler w req) =
     (Return (caught_response e),
      record initial [ConsoleError "Error in Vercel function:" e])) /\
  (forall audioBuffer e,
     Buffer_from w audioBase64 = inr audioBuffer ->
     blob_put w = Rejected e ->
     run (VercelBlob.handler w req) =
     (Return (caught_response e),
      record initial [put_call w audioBuffer;
                      ConsoleError "Error in Vercel function:" e])).
Proof.
  intros Hm Hr Hk Hb Hti Hta. unfold configured in Hk, Hb.
  destruct (read_request_inr _ _ _ _ _ Hr) as (body & Hj & Hi & Ha).
  split; [intros e Hbuf|intros audioBuffer e Hbuf Hput];
    unfold run, VercelBlob.handler; post_only Hm;
    unfold bind at 1; cbn [set_publicAudioUrl initial trace];
    unfold try_finally, VercelBlob.attempt, VercelBlob.recover; monad_unfold;
    by_eq Hj; by_eq Hi; by_eq Ha; rewrite Hk, Hb, Hti, Hta; cbn [negb orb];
    by_eq Hbuf.
  - rewrite cleanup_run. cbn. reflexivity.
  - by_eq Hput. rewrite cleanup_run. cbn. reflexivity.
Qed.

Lemma blob_run_complete w req : blob_run w req (run (VercelBlob.handler w req)).
Proof.
  destruct (String.eqb_spec (method req) "OPTIONS") as [Ho|Ho].
  { rewrite (blob_preflight w req Ho). now constructor. }
  destruct (String.eqb_spec (method req) "POST") as [Hp|Hp].
  2:{ rewrite (blob_other_verbs w req Ho Hp). now constructor. }
  destruct (read_request req ["imageBase64"; "audioBase64"]) as [e|vs] eqn:Hr.
  { rewrite (blob_unreadable w req e Hp Hr). now constructor. }
  destruct (read_request_two _ _ _ _ Hr) as (i & a & ->).
  destruct (read_request_inr _ _ _ _ _ Hr) as (body & Hj & Hi & Ha).
  destruct (configured (env_HEYGEN_API_KEY w)) eqn:Hk.
  2:{ rewrite (blob_refuses w req body i a); auto.
      apply (blob_run_refused w req i a); auto. }
  destruct (configured (env_BLOB_READ_WRITE_TOKEN w)) eqn:Hb.
  2:{ rewrite (blob_refuses w req body i a); auto.
      apply (blob_run_refused w req i a); auto. }
  destruct (JS.truthy i) eqn:Hti.
  2:{ rewrite (blob_refuses w req body i a); auto.
      apply (blob_run_refused w req i a); auto. }
  destruct (JS.truthy a) eqn:Hta.
  2:{ rewrite (blob_refuses w req body i a); auto 6.
      apply (blob_run_refused w req i a); auto 6. }
  destruct (blob_not_staged w req i a Hp Hr Hk Hb Hti Hta) as (Hdec & Hup).
  destruct (Buffer_from w a) as [e|audioBuffer] eqn:Hbuf.
  { rewrite (Hdec e eq_refl). now apply (blob_run_undecodable w req i a e). }
  destruct (blob_put w) as [url|e] eqn:Hput.
  2:{ rewrite (Hup audioBuffer e eq_refl eq_refl).
      now apply (blob_run_upload_rejected w req i a audioBuffer e). }
  destruct (quiet_generate_video w i (JS.Str url)
              (env_value (env_HEYGEN_API_KEY w)) 1 (staged_store w audioBuffer url))
    as (o & cs & E & Hne & _).
  rewrite (blob_submission w req body i a audioBuffer url o cs); auto.
  now apply (blob_run_staged w req i a audioBuffer url o cs).
Qed.

Lemma supabase_unreadable w req e :
  method req <> "OPTIONS" ->
  read_request req ["imageBase64"; "audioUrl"; "apiKey"] = inl e ->
  run (Supabase.serve w req) =
  (Return (supabase_response 500 (BodyError e)),
   record initial [ConsoleError "Error in Supabase function:" e]).
Proof.
  intros Ho Hr. apply String.eqb_neq in Ho.
  unfold run, Supabase.serve. rewrite Ho. monad_unfold.
  revert Hr. unfold read_request. cbn [read_fields].
  destruct (req_json req) as [body|e']; cbn beta iota; [|now intros [= ->]].
  destruct (JS.get body "imageBase64") as [e'|i]; cbn beta iota; [now intros [= ->]|].
  destruct (JS.get body "audioUrl") as [e'|a]; cbn beta iota; [now intros [= ->]|].
  destruct (JS.get body "apiKey") as [e'|k]; cbn beta iota; [now intros [= ->]|].
  discriminate.
Qed.

Lemma supabase_readable w req imageBase64 audioUrl apiKey :
  method req <> "OPTIONS" ->
  read_request req ["imageBase64"; "audioUrl"; "apiKey"]
    = inr [imageBase64; audioUrl; apiKey] ->
  (JS.truthy imageBase64 = false \/ JS.truthy audioUrl = false \/
   JS.truthy apiKey = false ->
   run (Supabase.serve w req) =
   (Return (supabase_response 400
              (BodyJson (JS.Obj [("error", JS.Str Supabase.missing_input)]))),
    initial)) /\
  (JS.truthy imageBase64 = true -> JS.truthy audioUrl = true ->
   JS.truthy apiKey = true ->
   forall o s',
     generate_video w imageBase64 audioUrl apiKey 0 initial = (o, s') ->
     run (Supabase.serve w req) = (supabase_outcome o, record s' (supabase_log o))).
Proof.
  intros Ho Hr. apply String.eqb_neq in Ho.
  unfold run, Supabase.serve. rewrite Ho. monad_unfold.
  revert Hr. unfold read_request. cbn [read_fields].
  destruct (req_json req) as [body|e']; cbn beta iota; [|discriminate].
  destruct (JS.get body "imageBase64") as [e'|i]; cbn beta iota; [discriminate|].
  destruct (JS.get body "audioUrl") as [e'|a]; cbn beta iota; [discriminate|].
  destruct (JS.get body "apiKey") as [e'|k]; cbn beta iota; [discriminate|].
  intros [= <- <- <-]. split.
  - intros [H|[H|H]]; rewrite H; cbn [negb orb]; rewrite ?orb_true_r; reflexivity.
  - intros Hi Ha Hk o s' Hg. rewrite Hi, Ha, Hk. cbn [negb orb]. rewrite Hg.
    destruct o; cbn beta iota; cbn [supabase_outcome supabase_log];
      rewrite ?record_nil; reflexivity.
Qed.

Lemma read_request_three req f1 f2 f3 vs :
  read_request req [f1; f2; f3] = inr vs -> exists v1 v2 v3, vs = [v1; v2; v3].
Proof.
  unfold read_request. cbn [read_fields].
  destruct (req_json req) as [body|e']; [|discriminate].
  destruct (JS.get body f1) as [e'|v1]; [discriminate|].
  destruct (JS.get body f2) as [e'|v2]; [discriminate|].
  destruct (JS.get body f3) as [e'|v3]; [discriminate|].
  intros [= <-]. now exists v1, v2, v3.
Qed.

Lemma supabase_run_complete w req : supabase_run w req (run (Supabase.serve w req)).
Proof.
  destruct (String.eqb_spec (method req) "OPTIONS") as [Ho|Ho].
  { rewrite (supabase_preflight w req Ho). now constructor. }
  destruct (read_request req ["imageBase64"; "audioUrl"; "apiKey"]) as [e|vs] eqn:Hr.
  { rewrite (supabase_unreadable w req e Ho Hr). now constructor. }
  destruct (read_request_three _ _ _ _ _ Hr) as (i & a & k & ->).
  destruct (supabase_readable w req i a k Ho Hr) as (Hrefuse & Hgen).
  destruct (JS.truthy i) eqn:Hi; [destruct (JS.truthy a) eqn:Ha;
    [destruct (JS.truthy k) eqn:Hk|]|];
    try (rewrite Hrefuse by auto; apply (supabase_run_refused w req i a k); auto).
  destruct (generate_video w i a k 0 initial) as [o s'] eqn:Hg.
  rewrite (Hgen eq_refl eq_refl eq_refl o s' eq_refl).
  apply (supabase_run_generated w req i a k o s'); auto.
  now destruct (generate_video_ends _ _ _ _ _ _ _ _ Hg).
Qed.

Lemma network_calls_app a b :
  network_calls (a ++ b) = (network_calls a ++ network_calls b)%list.
Proof. apply filter_app. Qed.

Lemma network_calls_ticks id apiKey n :
  length (network_calls (ticks id apiKey n)) = n.
Proof. induction n as [|n IH]; cbn; [reflexivity|]. now rewrite <- IH at 2. Qed.

Lemma network_calls_cleanup w url :
  (length (network_calls (cleanup_calls w url)) <= 1)%nat.
Proof.
  unfold cleanup_calls. destruct (url =? ""); [cbn; lia|].
  destruct (blob_del w); cbn; lia.
Qed.

Lemma staged_cleanup w url : staged (cleanup_calls w url) = false.
Proof.
  unfold cleanup_calls. destruct (url =? ""); [reflexivity|].
  destruct (blob_del w); reflexivity.
Qed.

(** What steps 1 to 3 cost, and what a status check presupposes. *)
Lemma generate_video_budget w imageBase64 audioUrl apiKey nowIdx s o s' :
  generate_video w imageBase64 audioUrl apiKey nowIdx s = (o, s') ->
  exists cs,
    s' = record s cs /\
    (status_checks cs <= 30)%nat /\
    (length (network_calls cs) <= 32)%nat /\
    dels cs = [] /\ staged cs = false /\
    ((0 < status_checks cs)%nat ->
     (exists avatarId, parsed (heygen w AvatarFromImage) "avatar_id" = Some avatarId) /\
     (exists videoId, parsed (heygen w VideoGenerate) "video_id" = Some videoId)) /\
    (forall v, o = Return v ->
       exists k,
         (1 <= k <= maxAttempts)%nat /\
         (forall i, (1 <= i < k)%nat ->
                    processing (heygen w (VideoStatusGet i)) = true) /\
         parsed (heygen w (VideoStatusGet k)) "status" = Some (JS.Str "succeeded") /\
         parsed (heygen w (VideoStatusGet k)) "video_url" = Some v /\
         status_checks cs = k).
Proof.
  intros Hg.
  destruct (generate_video_ends _ _ _ _ _ _ _ _ Hg) as (_ & cs0 & Hs0 & Hd0 & Hst0).
  destruct (generate_video_shape w imageBase64 audioUrl apiKey nowIdx s)
    as (o' & cs & E & H).
  rewrite E in Hg. injection Hg as -> <-.
  assert (cs0 = cs) as ->.
  { apply (f_equal trace) in Hs0. unfold record in Hs0. cbn [trace] in Hs0.
    now apply app_inv_head in Hs0. }
  exists cs. split; [reflexivity|].
  destruct H as [(-> & (e & ->) & Hnone)
                |[(a & Ha & -> & (e & ->) & Hnone)
                 |(a & vid & pcs & Ha & Hv & -> & Hp)]].
  - cbn. repeat split; try lia; try discriminate.
  - cbn. repeat split; try lia; try discriminate.
  - destruct (pollVideoStatus_shape w vid apiKey
                (record s [avatar_call apiKey imageBase64 (Date_now w nowIdx);
                           generate_call apiKey a audioUrl]))
      as (o2 & pcs2 & E2 & Hshape).
    rewrite E2 in Hp. injection Hp as -> Hp.
    assert (pcs2 = pcs) as -> by (now apply app_inv_head in Hp).
    assert (Hsc : status_checks
                    (avatar_call apiKey imageBase64 (Date_now w nowIdx)
                     :: generate_call apiKey a audioUrl :: pcs)
                  = status_checks pcs) by reflexivity.
    assert (Hnc : length (network_calls
                    (avatar_call apiKey imageBase64 (Date_now w nowIdx)
                     :: generate_call apiKey a audioUrl :: pcs))
                  = S (S (length (network_calls pcs)))) by reflexivity.
    rewrite Hsc, Hnc.
    assert (Hb : (status_checks pcs <= 30)%nat /\
                 (length (network_calls pcs) <= 30)%nat).
    { destruct Hshape as [(-> & _)|[(id & k & Hk & ->)|(id & -> & _)]].
      - cbn. lia.
      - rewrite status_checks_run, network_calls_app, length_app,
          network_calls_ticks by lia. cbn. unfold maxAttempts in Hk. lia.
      - rewrite status_checks_ticks, network_calls_ticks. unfold maxAttempts. lia. }
    destruct Hb as (Hb1 & Hb2).
    split; [exact Hb1|]. split; [lia|]. split; [exact Hd0|]. split; [exact Hst0|].
    split; [intros _; eauto|].
    intros v ->.
    destruct (pollVideoStatus_return _ _ _ _ _ _ E2)
      as (k & Hk & Hall & Hs & Hu & Hcount).
    exists k. repeat split; try assumption; try lia.
    unfold record in Hcount. cbn [trace] in Hcount.
    rewrite status_checks_app in Hcount. lia.
Qed.

Lemma vercel_response_answered o s :
  o <> OutOfFuel -> answered (vercel_response o, s) [200; 400; 405; 500]%Z.
Proof.
  destruct o as [v|e|]; [| |contradiction]; intros _; eexists;
    (split; [reflexivity|]); cbn; auto.
Qed.

(** X4.  The three handlers never throw: for every world and every request
    the run ends with a response.  Its status is 200, 400, 405 or 500 for
    the two Vercel handlers and 200, 400 or 500 for the Supabase function
    (which has no 405). *)
Theorem handlers_always_answer w req :
  answered (run (Vercel.handler w req)) [200; 400; 405; 500]%Z /\
  answered (run (VercelBlob.handler w req)) [200; 400; 405; 500]%Z /\
  answered (run (Supabase.serve w req)) [200; 400; 500]%Z.
Proof.
  split; [|split].
  - destruct (vercel_run_complete w req);
      try (eexists; split; [reflexivity|]; cbn; auto; fail).
    + exists (vercel_refusal w). split; [reflexivity|].
      unfold vercel_refusal. destruct (configured _); cbn; auto.
    + now apply vercel_response_answered.
  - destruct (blob_run_complete w req);
      try (eexists; split; [reflexivity|]; cbn; auto; fail).
    + exists (blob_refusal w). split; [reflexivity|].
      unfold blob_refusal. destruct (configured _); [destruct (configured _)|];
        cbn; auto.
    + now apply vercel_response_answered.
  - destruct (supabase_run_complete w req);
      try (eexists; split; [reflexivity|]; cbn; auto; fail).
    destruct o as [v|e|]; [| |contradiction]; eexists;
      (split; [reflexivity|]); cbn; auto.
Qed.

(** X5.  A handler answers 200 to a request other than the OPTIONS
    preflight only with the URL of a succeeded job: the body is
    [{ videoUrl: v }] where [v] is the [data.video_url] of the first status
    reply that did not leave the job processing, that reply has status
    'succeeded' and it is one of the first 30. *)
Theorem video_url_only_from_succeeded_job w req resp :
  method req <> "OPTIONS" ->
  status resp = 200%Z ->
  fst (run (Vercel.handler w req)) = Return resp \/
  fst (run (VercelBlob.handler w req)) = Return resp \/
  fst (run (Supabase.serve w req)) = Return resp ->
  exists k v,
    (1 <= k <= maxAttempts)%nat /\
    (forall i, (1 <= i < k)%nat ->
               processing (heygen w (VideoStatusGet i)) = true) /\
    parsed (heygen w (VideoStatusGet k)) "status" = Some (JS.Str "succeeded") /\
    parsed (heygen w (VideoStatusGet k)) "video_url" = Some v /\
    body resp = BodyJson (JS.Obj [("videoUrl", v)]).
Proof.
  intros Ho Hst [H|[H|H]].
  - destruct (vercel_run_complete w req); cbn [fst] in H;
      try (injection H as <-; discriminate); try contradiction.
    + injection H as <-. unfold vercel_refusal in Hst.
      destruct (configured _); discriminate.
    + destruct o as [v|e|]; [| |contradiction]; injection H as <-; [|discriminate].
      match goal with Hg : generate_video _ _ _ _ _ _ = _ |- _ =>
        destruct (generate_video_budget _ _ _ _ _ _ _ _ Hg)
          as (cs & _ & _ & _ & _ & _ & _ & Hret) end.
      destruct (Hret v eq_refl) as (k & Hk & Hall & Hs & Hu & _).
      exists k, v. auto.
  - destruct (blob_run_complete w req); cbn [fst] in H;
      try (injection H as <-; discriminate); try contradiction.
    + injection H as <-. unfold blob_refusal in Hst.
      destruct (configured _); [destruct (configured _)|]; discriminate.
    + destruct o as [v|e|]; [| |contradiction]; injection H as <-; [|discriminate].
      match goal with Hg : generate_video _ _ _ _ _ _ = _ |- _ =>
        destruct (generate_video_budget _ _ _ _ _ _ _ _ Hg)
          as (cs' & _ & _ & _ & _ & _ & _ & Hret) end.
      destruct (Hret v eq_refl) as (k & Hk & Hall & Hs & Hu & _).
      exists k, v. auto.
  - destruct (supabase_run_complete w req); cbn [fst] in H;
      try (injection H as <-; discriminate); try contradiction.
    destruct o as [v|e|]; [| |contradiction]; injection H as <-; [|discriminate].
    match goal with Hg : generate_video _ _ _ _ _ _ = _ |- _ =>
      destruct (generate_video_budget _ _ _ _ _ _ _ _ Hg)
        as (cs & _ & _ & _ & _ & _ & _ & Hret) end.
    destruct (Hret v eq_refl) as (k & Hk & Hall & Hs & Hu & _).
    exists k, v. auto.
Qed.

Lemma video_url_only_from_succeeded_job_witness :
  exists k v,
    (1 <= k <= maxAttempts)%nat /\
    (forall i, (1 <= i < k)%nat ->
               processing (heygen scenario (VideoStatusGet i)) = true) /\
    parsed (heygen scenario (VideoStatusGet k)) "status" = Some (JS.Str "succeeded") /\
    parsed (heygen scenario (VideoStatusGet k)) "video_url" = Some v /\
    body (video_response (JS.Str "https://cdn/out.mp4"))
      = BodyJson (JS.Obj [("videoUrl", v)]).
Proof.
  apply (video_url_only_from_succeeded_job scenario full_request
           (video_response (JS.Str "https://cdn/out.mp4"))).
  - discriminate.
  - reflexivity.
  - right; left. vm_compute. reflexivity.
Defined.

Lemma within_budget_nil w n : within_budget w n [].
Proof. unfold within_budget. cbn. split; [lia|]. split; [lia|]. intros H. lia. Qed.

Lemma within_budget_log w n label e : within_budget w n [ConsoleError label e].
Proof. unfold within_budget. cbn. split; [lia|]. split; [lia|]. intros H. lia. Qed.

(** X6.  The cost of one invocation is bounded: at most 30 status checks;
    at most 32 network calls for the URL variant and the Supabase function
    (avatar, job, 30 checks) and 34 for the blob variant (upload and
    deletion besides); and a status check is only ever issued after both
    the avatar request and the job request were answered 2xx with a JSON
    body from whose [data] the fields [avatar_id] and [video_id] could be
    read.  The values read are not tested, so this does not say that an id
    was given. *)
Theorem handlers_stay_within_budget w req :
  within_budget w 32 (trace (snd (run (Vercel.handler w req)))) /\
  within_budget w 34 (trace (snd (run (VercelBlob.handler w req)))) /\
  within_budget w 32 (trace (snd (run (Supabase.serve w req)))).
Proof.
  split; [|split].
  - destruct (vercel_run_complete w req); cbn [snd];
      try apply within_budget_nil; try apply within_budget_log.
    match goal with Hg : generate_video _ _ _ _ _ _ = _ |- _ =>
      destruct (generate_video_budget _ _ _ _ _ _ _ _ Hg)
        as (cs & -> & Hc & Hn & _ & _ & Hpre & _) end.
    unfold record. cbn [trace initial app].
    assert (Hl : status_checks (vercel_log o) = 0%nat /\
                 network_calls (vercel_log o) = []) by (destruct o; auto).
    destruct Hl as (Hl1 & Hl2).
    unfold within_budget.
    rewrite status_checks_app, network_calls_app, length_app, Hl1, Hl2.
    cbn [length]. rewrite !Nat.add_0_r. auto.
  - destruct (blob_run_complete w req); cbn [snd];
      try apply within_budget_nil; try apply within_budget_log.
    + unfold within_budget. cbn. split; [lia|]. split; [lia|]. intros H'. lia.
    + match goal with Hg : generate_video _ _ _ _ _ _ = _ |- _ =>
        destruct (generate_video_budget _ _ _ _ _ _ _ _ Hg)
          as (cs' & Hcs & Hc & Hn & _ & _ & Hpre & _) end.
      assert (cs' = cs) as ->.
      { apply (f_equal trace) in Hcs. unfold record in Hcs. cbn [trace] in Hcs.
        now apply app_inv_head in Hcs. }
      unfold record, staged_store. cbn [trace app].
      assert (Hl : status_checks (vercel_log o) = 0%nat /\
                   network_calls (vercel_log o) = []) by (destruct o; auto).
      destruct Hl as (Hl1 & Hl2).
      pose proof (network_calls_cleanup w url) as Hcl.
      pose proof (status_checks_cleanup_calls w url) as Hcl2.
      unfold within_budget.
      change (status_checks (put_call w audioBuffer :: ?l)) with (status_checks l).
      change (network_calls (put_call w audioBuffer :: ?l))
        with (put_call w audioBuffer :: network_calls l).
      rewrite !status_checks_app, !network_calls_app, Hl1, Hl2, Hcl2.
      cbn [length app]. rewrite !length_app. rewrite !Nat.add_0_r.
      split; [exact Hc|]. split; [lia|]. exact Hpre.
  - destruct (supabase_run_complete w req); cbn [snd];
      try apply within_budget_nil; try apply within_budget_log.
    match goal with Hg : generate_video _ _ _ _ _ _ = _ |- _ =>
      destruct (generate_video_budget _ _ _ _ _ _ _ _ Hg)
        as (cs & -> & Hc & Hn & _ & _ & Hpre & _) end.
    unfold record. cbn [trace initial app].
    assert (Hl : status_checks (supabase_log o) = 0%nat /\
                 network_calls (supabase_log o) = []) by (destruct o; auto).
    destruct Hl as (Hl1 & Hl2).
    unfold within_budget.
    rewrite status_checks_app, network_calls_app, length_app, Hl1, Hl2.
    cbn [length]. rewrite !Nat.add_0_r. auto.
Qed.

Lemma dels_network_calls t : dels (network_calls t) = dels t.
Proof.
  unfold dels, network_calls.
  induction t as [|c t IH]; [reflexivity|].
  destruct c; simpl; rewrite ?IH; reflexivity.
Qed.

(** X7.  The blob variant deletes nothing it did not upload: either its
    trace holds no deletion, or the upload was fulfilled with a non-empty
    URL and the one deletion, of that URL, is the last network call of the
    run.  The URL variant and the Supabase function never upload and never
    delete. *)
Theorem blob_deletes_only_what_it_staged w req :
  let t := trace (snd (run (VercelBlob.handler w req))) in
  (dels t = [] \/
   exists url pre,
     blob_put w = Fulfilled url /\ url <> "" /\ staged t = true /\
     network_calls t = (pre ++ [Del url])%list /\ dels pre = []) /\
  dels (trace (snd (run (Vercel.handler w req)))) = [] /\
  staged (trace (snd (run (Vercel.handler w req)))) = false /\
  dels (trace (snd (run (Supabase.serve w req)))) = [] /\
  staged (trace (snd (run (Supabase.serve w req)))) = false.
Proof.
  cbv zeta. split; [|split; [|split; [|split]]].
  - destruct (blob_run_complete w req); cbn [snd]; try (left; reflexivity).
    match goal with Hg : generate_video _ _ _ _ _ _ = _ |- _ =>
      destruct (generate_video_ends _ _ _ _ _ _ _ _ Hg)
        as (_ & cs' & Hcs & Hd & Hst) end.
    assert (cs' = cs) as ->.
    { apply (f_equal trace) in Hcs. unfold record in Hcs. cbn [trace] in Hcs.
      now apply app_inv_head in Hcs. }
    unfold record, staged_store. cbn [trace app].
    assert (Hl : dels (vercel_log o) = [] /\ network_calls (vercel_log o) = [])
      by (destruct o; auto).
    destruct Hl as (Hl1 & Hl2).
    destruct (String.eqb_spec url "") as [->|Hne].
    + left. cbn. rewrite !dels_app, Hd, Hl1. reflexivity.
    + right. exists url, (put_call w audioBuffer :: network_calls cs).
      split; [assumption|]. split; [exact Hne|]. split; [reflexivity|].
      apply String.eqb_neq in Hne.
      split.
      * change (network_calls (put_call w audioBuffer :: ?l))
          with (put_call w audioBuffer :: network_calls l).
        rewrite !network_calls_app, Hl2. cbn [app]. f_equal. f_equal.
        unfold cleanup_calls. rewrite Hne. destruct (blob_del w); reflexivity.
      * cbn. now rewrite dels_network_calls.
  - destruct (vercel_run_complete w req); cbn [snd]; try reflexivity.
    match goal with Hg : generate_video _ _ _ _ _ _ = _ |- _ =>
      destruct (generate_video_ends _ _ _ _ _ _ _ _ Hg)
        as (_ & cs' & -> & Hd & Hst) end.
    unfold record. cbn [trace initial app]. rewrite dels_app, Hd. now destruct o.
  - destruct (vercel_run_complete w req); cbn [snd]; try reflexivity.
    match goal with Hg : generate_video _ _ _ _ _ _ = _ |- _ =>
      destruct (generate_video_ends _ _ _ _ _ _ _ _ Hg)
        as (_ & cs' & -> & Hd & Hst) end.
    unfold record. cbn [trace initial app]. rewrite staged_app, Hst. now destruct o.
  - destruct (supabase_run_complete w req); cbn [snd]; try reflexivity.
    match goal with Hg : generate_video _ _ _ _ _ _ = _ |- _ =>
      destruct (generate_video_ends _ _ _ _ _ _ _ _ Hg)
        as (_ & cs' & -> & Hd & Hst) end.
    unfold record. cbn [trace initial app]. rewrite dels_app, Hd. now destruct o.
  - destruct (supabase_run_complete w req); cbn [snd]; try reflexivity.
    match goal with Hg : generate_video _ _ _ _ _ _ = _ |- _ =>
      destruct (generate_video_ends _ _ _ _ _ _ _ _ Hg)
        as (_ & cs' & -> & Hd & Hst) end.
    unfold record. cbn [trace initial app]. rewrite staged_app, Hst. now destruct o.
Qed.

Lemma ticks_in c id apiKey n :
  In c (ticks id apiKey n) -> c = status_call id apiKey \/ c = SetTimeout pollDelay.
Proof.
  induction n as [|n IH]; cbn [ticks]; [intros []|].
  intros [<-|[<-|H]]; auto.
Qed.

Lemma generate_call_not_polled key avatarId audio apiKey pcs (o : outcome JS.value) :
  (pcs = [] /\ exists e, o = Throw e) \/
  (exists id k, (1 <= k <= maxAttempts)%nat /\
     pcs = (ticks id apiKey (k - 1) ++ [status_call id apiKey])%list) \/
  (exists id, pcs = ticks id apiKey maxAttempts /\
     o = Throw (Error "HeyGen video generation timed out.")) ->
  ~ In (generate_call key avatarId audio) pcs.
Proof.
  intros Hshape Hin.
  assert (Hc : forall id', generate_call key avatarId audio <> status_call id' apiKey)
    by (intros id'; unfold generate_call, status_call, status_url;
        cbn; discriminate).
  destruct Hshape as [(-> & _)|[(id' & k & _ & ->)|(id' & -> & _)]].
  - destruct Hin.
  - apply in_app_or in Hin as [Hin|[Hin|[]]].
    + destruct (ticks_in _ _ _ _ Hin) as [H|H]; [now apply Hc in H|discriminate].
    + symmetry in Hin. now apply Hc in Hin.
  - destruct (ticks_in _ _ _ _ Hin) as [H|H]; [now apply Hc in H|discriminate].
Qed.

(** X8.  The audio the blob variant submits to HeyGen is the audio it
    staged: whenever its trace holds a video-generation request, the
    [audio_url] of that request is the URL the upload was fulfilled with,
    and its [avatar_id] is the one HeyGen gave for the image. *)
Theorem blob_submits_the_staged_url w req key avatarId audio :
  In (generate_call key avatarId audio)
     (trace (snd (run (VercelBlob.handler w req)))) ->
  exists url,
    blob_put w = Fulfilled url /\ audio = JS.Str url /\
    parsed (heygen w AvatarFromImage) "avatar_id" = Some avatarId.
Proof.
  destruct (blob_run_complete w req); cbn [snd];
    try (cbn; intros H'; repeat (destruct H' as [H'|H']; try discriminate);
         now destruct H').
  match goal with Hg : generate_video _ _ _ _ _ _ = _ |- _ => rename Hg into Hgen end.
  destruct (generate_video_shape w imageBase64 (JS.Str url)
              (env_value (env_HEYGEN_API_KEY w)) 1 (staged_store w audioBuffer url))
    as (o' & cs' & E & Hshape).
  cbv zeta in E, Hshape. rewrite E in Hgen. injection Hgen as -> Hcs.
  assert (cs' = cs) as ->
    by first [exact Hcs | now apply app_inv_head in Hcs].
  unfold record, staged_store. cbn [trace app].
  intros [Hin|Hin]; [discriminate|].
  apply in_app_or in Hin as [Hin|Hin].
  2:{ apply in_app_or in Hin as [Hin|Hin].
      - destruct o; cbn in Hin; now destruct Hin.
      - unfold cleanup_calls in Hin. destruct (url =? ""); [now destruct Hin|].
        destruct Hin as [Hin|Hin]; [discriminate|].
        destruct (blob_del w); cbn in Hin; [now destruct Hin|].
        destruct Hin as [Hin|[]]. discriminate. }
  assert (Ha : forall k i n, generate_call key avatarId audio <> avatar_call k i n)
    by (intros; unfold generate_call, avatar_call; cbn; discriminate).
  destruct Hshape as [(-> & _)
                     |[(a & Hav & -> & _)
                      |(a & vid & pcs & Hav & Hv & -> & Hp)]].
  - destruct Hin as [Hin|[]]. symmetry in Hin. now apply Ha in Hin.
  - destruct Hin as [Hin|[Hin|[]]]; [symmetry in Hin; now apply Ha in Hin|].
    unfold generate_call, generate_payload in Hin. injection Hin as <- <- <-.
    now exists url.
  - destruct Hin as [Hin|[Hin|Hin]]; [symmetry in Hin; now apply Ha in Hin| |].
    + unfold generate_call, generate_payload in Hin. injection Hin as <- <- <-.
      now exists url.
    + exfalso.
      destruct (pollVideoStatus_shape w vid (env_value (env_HEYGEN_API_KEY w))
                  (record (staged_store w audioBuffer url)
                     [avatar_call (env_value (env_HEYGEN_API_KEY w)) imageBase64
                                  (Date_now w 1);
                      generate_call (env_value (env_HEYGEN_API_KEY w)) a (JS.Str url)]))
        as (o2 & pcs2 & E2 & Hs2).
      rewrite E2 in Hp. injection Hp as -> Hp.
      assert (pcs2 = pcs) as ->
        by first [exact Hp | now apply app_inv_head in Hp].
      exact (generate_call_not_polled _ _ _ _ _ _ Hs2 Hin).
Qed.

Lemma blob_submits_the_staged_url_witness :
  exists url,
    blob_put scenario = Fulfilled url /\
    JS.Str "https://store/ex1.wav" = JS.Str url /\
    parsed (heygen scenario AvatarFromImage) "avatar_id" = Some (JS.Str "avatar_42").
Proof.
  apply (blob_submits_the_staged_url scenario full_request (JS.Str "key")
           (JS.Str "avatar_42") (JS.Str "https://store/ex1.wav")).
  vm_compute. right; right; left. reflexivity.
Defined.

(** X9.  When the blob store rejects the upload of a valid request, the
    blob variant answers 500 with the message of that rejection; the trace
    is the upload and the console log: HeyGen is never called and nothing is
    deleted, [publicAudioUrl] being still empty in the [finally] block. *)
Theorem rejected_upload_stops_pipeline w req reqBody imageBase64 audioBase64 audioBuffer e :
  method req = "POST" ->
  req_json req = Fulfilled reqBody ->
  JS.get reqBody "imageBase64" = inr imageBase64 ->
  JS.get reqBody "audioBase64" = inr audioBase64 ->
  configured (env_HEYGEN_API_KEY w) = true ->
  configured (env_BLOB_READ_WRITE_TOKEN w) = true ->
  JS.truthy imageBase64 = true -> JS.truthy audioBase64 = true ->
  Buffer_from w audioBase64 = inr audioBuffer ->
  blob_put w = Rejected e ->
  run (VercelBlob.handler w req) =
    (Return {| status := 500;
               headers := [("Content-Type", "application/json");
                           ("Access-Control-Allow-Origin", "*")];
               body := BodyError e |},
     record initial [put_call w audioBuffer;
                     ConsoleError "Error in Vercel function:" e]).
Proof.
  intros Hm Hj Hi Ha Hk Hb Hti Hta Hbuf Hput.
  assert (Hr : read_request req ["imageBase64"; "audioBase64"]
               = inr [imageBase64; audioBase64])
    by (unfold read_request; cbn [read_fields]; now rewrite Hj, Hi, Ha).
  now apply (proj2 (blob_not_staged w req imageBase64 audioBase64
                      Hm Hr Hk Hb Hti Hta)).
Qed.

Lemma rejected_upload_stops_pipeline_witness :
  run (VercelBlob.handler upload_down full_request) =
    (Return {| status := 500;
               headers := [("Content-Type", "application/json");
                           ("Access-Control-Allow-Origin", "*")];
               body := BodyError (Foreign "store unavailable") |},
     record initial [put_call upload_down [1%N; 64%N];
                     ConsoleError "Error in Vercel function:"
                                  (Foreign "store unavailable")]).
Proof.
  apply (rejected_upload_stops_pipeline upload_down full_request full_body
           (JS.Str "IMG") (JS.Str "AUD")); reflexivity.
Defined.

(** X10.  A request whose body is not JSON ([req.json()] rejects) is
    answered 500 with the message of the parse error, after the console log
    and no other call: by the two Vercel handlers when it is a POST, by the
    Supabase function for every verb other than OPTIONS.  This holds whether
    or not the server is configured, the body being read before the
    configuration is looked at. *)
Theorem unreadable_body_is_answered_500 w req e :
  req_json req = Rejected e ->
  (method req = "POST" ->
   run (Vercel.handler w req) =
     (Return {| status := 500;
                headers := [("Content-Type", "application/json");
                            ("Access-Control-Allow-Origin", "*")];
                body := BodyError e |},
      record initial [ConsoleError "Error in Vercel function:" e]) /\
   run (VercelBlob.handler w req) =
     (Return {| status := 500;
                headers := [("Content-Type", "application/json");
                            ("Access-Control-Allow-Origin", "*")];
                body := BodyError e |},
      record initial [ConsoleError "Error in Vercel function:" e])) /\
  (method req <> "OPTIONS" ->
   run (Supabase.serve w req) =
     (Return (supabase_response 500 (BodyError e)),
      record initial [ConsoleError "Error in Supabase function:" e])).
Proof.
  intros Hj. split.
  - intros Hm. split.
    + unfold run, Vercel.handler. post_only Hm. monad_unfold.
      by_eq Hj. reflexivity.
    + apply blob_unreadable; [exact Hm|]. unfold read_request. now rewrite Hj.
  - intros Ho. apply supabase_unreadable; [exact Ho|].
    unfold read_request. now rewrite Hj.
Qed.

Lemma unreadable_body_is_answered_500_witness :
  (run (Vercel.handler unconfigured unparseable_request) =
     (Return {| status := 500;
                headers := [("Content-Type", "application/json");
                            ("Access-Control-Allow-Origin", "*")];
                body := BodyError SyntaxError |},
      record initial [ConsoleError "Error in Vercel function:" SyntaxError]) /\
   run (VercelBlob.handler unconfigured unparseable_request) =
     (Return {| status := 500;
                headers := [("Content-Type", "application/json");
                            ("Access-Control-Allow-Origin", "*")];
                body := BodyError SyntaxError |},
      record initial [ConsoleError "Error in Vercel function:" SyntaxError])) /\
  run (Supabase.serve unconfigured unparseable_request) =
    (Return (supabase_response 500 (BodyError SyntaxError)),
     record initial [ConsoleError "Error in Supabase function:" SyntaxError]).
Proof.
  destruct (unreadable_body_is_answered_500 unconfigured unparseable_request
              SyntaxError eq_refl) as (HA & HB).
  split; [apply HA; reflexivity | apply HB; discriminate].
Defined.

Lemma generate_video_job_refused w imageBase64 audioUrl apiKey nowIdx avatarId
    response errorText s :
  parsed (heygen w AvatarFromImage) "avatar_id" = Some avatarId ->
  heygen w VideoGenerate = Fulfilled response ->
  ok response = false ->
  text response = Fulfilled errorText ->
  generate_video w imageBase64 audioUrl apiKey nowIdx s =
  (Throw (Error ("HeyGen video generation failed: " ++ errorText)),
   record s [avatar_call apiKey imageBase64 (Date_now w nowIdx);
             generate_call apiKey avatarId audioUrl]).
Proof.
  intros Ha Hr Hok Ht.
  destruct (parsed_inv _ _ _ Ha) as (r1 & data1 & d1 & Hr1 & Hok1 & Hj1 & Hd1 & Hf1).
  unfold generate_video. monad_unfold.
  by_eq Hr1. by_eq Hok1. cbn [negb]. by_eq Hj1. by_eq Hd1. by_eq Hf1.
  by_eq Hr. by_eq Hok. cbn [negb]. by_eq Ht. now rewrite record_record.
Qed.

(** X11.  When HeyGen creates the avatar and answers the video-generation
    request with a non-2xx reply of text [errorText], the URL variant
    answers 500 with 'HeyGen video generation failed: ' followed by that
    text; it has made the avatar call and the generation call and then
    logged: no status check is issued. *)
Theorem refused_job_is_not_polled w req reqBody imageBase64 audioUrl avatarId response errorText :
  method req = "POST" ->
  req_json req = Fulfilled reqBody ->
  JS.get reqBody "imageBase64" = inr imageBase64 ->
  JS.get reqBody "audioUrl" = inr audioUrl ->
  JS.truthy imageBase64 = true -> JS.truthy audioUrl = true ->
  configured (env_HEYGEN_API_KEY w) = true ->
  parsed (heygen w AvatarFromImage) "avatar_id" = Some avatarId ->
  heygen w VideoGenerate = Fulfilled response ->
  ok response = false ->
  text response = Fulfilled errorText ->
  let key := env_value (env_HEYGEN_API_KEY w) in
  let error := Error ("HeyGen video generation failed: " ++ errorText) in
  run (Vercel.handler w req) =
    (Return {| status := 500;
               headers := [("Content-Type", "application/json");
                           ("Access-Control-Allow-Origin", "*")];
               body := BodyError error |},
     record initial [avatar_call key imageBase64 (Date_now w 0);
                     generate_call key avatarId audioUrl;
                     ConsoleError "Error in Vercel function:" error]).
Proof.
  intros Hm Hj Hi Ha Hti Hta Hk Hav Hr Hok Ht key error.
  rewrite (vercel_submission w req reqBody imageBase64 audioUrl (Throw error)
             (record initial [avatar_call key imageBase64 (Date_now w 0);
                              generate_call key avatarId audioUrl])); try assumption.
  - cbn [vercel_response vercel_log]. now rewrite record_record.
  - now apply (generate_video_job_refused w _ _ _ _ avatarId response errorText).
Qed.

Lemma refused_job_is_not_polled_witness :
  let error := Error "HeyGen video generation failed: quota exhausted" in
  run (Vercel.handler job_refused full_request) =
    (Return {| status := 500;
               headers := [("Content-Type", "application/json");
                           ("Access-Control-Allow-Origin", "*")];
               body := BodyError error |},
     record initial
       [avatar_call (JS.Str "key") (JS.Str "IMG") 1700000000000;
        generate_call (JS.Str "key") (JS.Str "avatar_42")
                      (JS.Str "https://host/audio.wav");
        ConsoleError "Error in Vercel function:" error]).
Proof.
  apply (refused_job_is_not_polled job_refused full_request full_body
           (JS.Str "IMG") (JS.Str "https://host/audio.wav") (JS.Str "avatar_42")
           (not_ok "Payment Required" "quota exhausted" (Rejected SyntaxError))
           "quota exhausted"); reflexivity.
Defined.

(** X12.  The Supabase function answers 400, with the error 'Missing
    imageBase64, audioUrl, or apiKey' and without any call, to every
    request other than the preflight whose JSON body has a falsy
    [imageBase64], [audioUrl] or [apiKey]: the key travels in the body, and
    its absence is an error of the caller (400), not of the server (500) as
    in the Vercel variants. *)
Theorem supabase_refuses_incomplete_body w req reqBody imageBase64 audioUrl apiKey :
  method req <> "OPTIONS" ->
  req_json req = Fulfilled reqBody ->
  JS.get reqBody "imageBase64" = inr imageBase64 ->
  JS.get reqBody "audioUrl" = inr audioUrl ->
  JS.get reqBody "apiKey" = inr apiKey ->
  JS.truthy imageBase64 = false \/ JS.truthy audioUrl = false \/
  JS.truthy apiKey = false ->
  run (Supabase.serve w req) =
    (Return (supabase_response 400
               (BodyJson (JS.Obj [("error", JS.Str Supabase.missing_input)]))),
     initial).
Proof.
  intros Ho Hj Hi Ha Hk Hmiss.
  assert (Hr : read_request req ["imageBase64"; "audioUrl"; "apiKey"]
               = inr [imageBase64; audioUrl; apiKey])
    by (unfold read_request; cbn [read_fields]; now rewrite Hj, Hi, Ha, Hk).
  now apply (proj1 (supabase_readable w req imageBase64 audioUrl apiKey Ho Hr)).
Qed.

Lemma supabase_refuses_incomplete_body_witness :
  run (Supabase.serve scenario no_key_request) =
    (Return (supabase_response 400
               (BodyJson (JS.Obj [("error", JS.Str Supabase.missing_input)]))),
     initial).
Proof.
  apply (supabase_refuses_incomplete_body scenario no_key_request
           (JS.Obj [("imageBase64", JS.Str "IMG");
                    ("audioUrl", JS.Str "https://host/audio.wav")])
           (JS.Str "IMG") (JS.Str "https://host/audio.wav") JS.Undefined);
    try reflexivity; [discriminate | right; right; reflexivity].
Defined.

(* ===================================================================== *)
(** * Properties of the studio page *)
(* ===================================================================== *)

(** The header [pcmToWav] builds, byte by byte. *)
Lemma pcmToWav_header pcmData sampleRate numChannels :
  let dataSize := (Z.of_nat (length pcmData) * 2)%Z in
  App.pcmToWav pcmData sampleRate numChannels =
  Some {| App.header :=
            wav_header_bytes (dataSize + 36) dataSize sampleRate numChannels
              (Number.mul (Number.mul sampleRate numChannels) 2)
              (Number.mul numChannels 2);
          App.samples := pcmData; App.type := "audio/wav" |}.
Proof.
  intros dataSize. unfold App.pcmToWav, wav_header_bytes.
  fold dataSize.
  generalize (dataSize + 36)%Z (Number.mul (Number.mul sampleRate numChannels) 2)
             (Number.mul numChannels 2).
  clearbody dataSize. intros f r b.
  cbv -[Z.modulo Z.div]. reflexivity.
Qed.

(** A product below 2^53 is exact. *)
Lemma mul_exact a b : (Z.abs (a * b) < 2 ^ 53)%Z -> Number.mul a b = (a * b)%Z.
Proof.
  intros H. unfold Number.mul, Number.round. apply Z.ltb_lt in H. now rewrite H.
Qed.

Lemma value_of_bytes_of n : forall v,
  DataView.value_of (DataView.bytes_of n v) = (v mod 256 ^ Z.of_nat n)%Z.
Proof.
  induction n as [|n IH]; intros v.
  - cbn. now rewrite Z.mod_1_r.
  - cbn [DataView.bytes_of DataView.value_of]. rewrite IH.
    rewrite Nat2Z.inj_succ, Z.pow_succ_r by lia.
    rewrite Z.rem_mul_r by lia. reflexivity.
Qed.

Lemma length_bytes_of n v : length (DataView.bytes_of n v) = n.
Proof. revert v. induction n as [|n IH]; intros v; cbn; [reflexivity|]. now rewrite IH. Qed.

Ltac read_field n v :=
  cbv -[Z.modulo Z.div DataView.value_of Z.pow]; apply f_equal;
  exact (value_of_bytes_of n v).

Lemma wav_header_fields f d s c r b :
  let h := wav_header_bytes f d s c r b in
  length h = 44%nat /\
  DataView.getUint32 h 4 true = Some (f mod 2 ^ 32)%Z /\
  DataView.getUint32 h 16 true = Some 16%Z /\
  DataView.getUint16 h 20 true = Some 1%Z /\
  DataView.getUint16 h 22 true = Some (c mod 2 ^ 16)%Z /\
  DataView.getUint32 h 24 true = Some (s mod 2 ^ 32)%Z /\
  DataView.getUint32 h 28 true = Some (r mod 2 ^ 32)%Z /\
  DataView.getUint16 h 32 true = Some (b mod 2 ^ 16)%Z /\
  DataView.getUint16 h 34 true = Some 16%Z /\
  DataView.getUint32 h 40 true = Some (d mod 2 ^ 32)%Z.
Proof.
  intros h. unfold h, wav_header_bytes.
  split; [reflexivity|].
  split; [read_field 4%nat f|].
  split; [reflexivity|]. split; [reflexivity|].
  split; [read_field 2%nat c|].
  split; [read_field 4%nat s|].
  split; [read_field 4%nat r|].
  split; [read_field 2%nat b|].
  split; [reflexivity|].
  read_field 4%nat d.
Qed.

(** X13.  [pcmToWav] never throws: each of its writes falls inside the
    44-byte header.  The blob it returns is the header followed by the
    samples as given, has type 'audio/wav' and size 44 + 2 * (number of
    samples), and the header carries the tags 'RIFF', 'WAVE', 'fmt ' and
    'data' at offsets 0, 8, 12 and 36. *)
Theorem pcmToWav_stays_in_range pcmData sampleRate numChannels :
  exists blob,
    App.pcmToWav pcmData sampleRate numChannels = Some blob /\
    length (App.header blob) = 44%nat /\
    App.samples blob = pcmData /\
    App.type blob = "audio/wav" /\
    App.size blob = (44 + 2 * Z.of_nat (length pcmData))%Z /\
    App.tag (App.header blob) 0 4 = "RIFF" /\
    App.tag (App.header blob) 8 4 = "WAVE" /\
    App.tag (App.header blob) 12 4 = "fmt " /\
    App.tag (App.header blob) 36 4 = "data".
Proof.
  eexists. split; [apply pcmToWav_header|].
  cbn [App.header App.samples App.type]. repeat split.
Qed.

(** X14.  The two size fields of the header, read back little-endian,
    agree with the blob: the RIFF chunk size at offset 4 is the size of the
    blob minus 8 and the data size at offset 40 is the size of the blob
    minus 44, both modulo 2^32, and exactly those numbers whenever the
    size of the blob minus 8 is below 2^32. *)
Theorem wav_size_fields pcmData sampleRate numChannels :
  exists blob,
    App.pcmToWav pcmData sampleRate numChannels = Some blob /\
    DataView.getUint32 (App.header blob) 4 true
      = Some ((App.size blob - 8) mod 2 ^ 32)%Z /\
    DataView.getUint32 (App.header blob) 40 true
      = Some ((App.size blob - 44) mod 2 ^ 32)%Z /\
    ((App.size blob - 8 < 2 ^ 32)%Z ->
     DataView.getUint32 (App.header blob) 4 true = Some (App.size blob - 8)%Z /\
     DataView.getUint32 (App.header blob) 40 true = Some (App.size blob - 44)%Z).
Proof.
  eexists. split; [apply pcmToWav_header|].
  cbn [App.header].
  set (d := (Z.of_nat (length pcmData) * 2)%Z).
  destruct (wav_header_fields (d + 36) d sampleRate numChannels
              (Number.mul (Number.mul sampleRate numChannels) 2)
              (Number.mul numChannels 2))
    as (Hlen & H4 & _ & _ & _ & _ & _ & _ & _ & H40).
  cbv zeta in *.
  assert (Hsize : App.size
            {| App.header := wav_header_bytes (d + 36) d sampleRate numChannels
                               (Number.mul (Number.mul sampleRate numChannels) 2)
                               (Number.mul numChannels 2);
               App.samples := pcmData; App.type := "audio/wav" |}
          = (44 + d)%Z).
  { unfold App.size. cbn [App.header App.samples]. rewrite Hlen. unfold d. lia. }
  rewrite Hsize, H4, H40.
  replace (44 + d - 8)%Z with (d + 36)%Z by lia.
  replace (44 + d - 44)%Z with d by lia.
  split; [reflexivity|]. split; [reflexivity|].
  intros Hlt. assert (0 <= d)%Z by (unfold d; lia).
  rewrite !Z.mod_small by lia. split; reflexivity.
Qed.

Lemma wav_size_fields_witness :
  exists blob,
    App.pcmToWav [0; 1; -1]%Z 24000 1 = Some blob /\
    DataView.getUint32 (App.header blob) 4 true = Some 42%Z /\
    DataView.getUint32 (App.header blob) 40 true = Some 6%Z /\
    App.size blob = 50%Z.
Proof.
  destruct (wav_size_fields [0; 1; -1]%Z 24000 1) as (blob & E & _ & _ & H).
  exists blob. split; [exact E|].
  injection (eq_trans (eq_sym E) (pcmToWav_header [0; 1; -1]%Z 24000 1)) as ->.
  destruct H as (H4 & H40); [vm_compute; reflexivity|].
  split; [exact H4|]. split; [exact H40|]. reflexivity.
Defined.

(** X15.  The format chunk describes 16-bit PCM when every value fits its
    field: for integers with 0 <= sampleRate < 2^32, 0 <= numChannels,
    2 * numChannels < 2^16 and sampleRate * numChannels * 2 < 2^32, the
    header reads back, in little-endian, chunk size 16, format 1 (PCM), the
    channel count, the sample rate, byte rate = sample rate * block align,
    block align = 2 * channels, and 16 bits per sample. *)
Theorem wav_format_fields pcmData sampleRate numChannels :
  (0 <= sampleRate < 2 ^ 32)%Z ->
  (0 <= numChannels)%Z ->
  (numChannels * 2 < 2 ^ 16)%Z ->
  (sampleRate * numChannels * 2 < 2 ^ 32)%Z ->
  exists blob,
    App.pcmToWav pcmData sampleRate numChannels = Some blob /\
    DataView.getUint32 (App.header blob) 16 true = Some 16%Z /\
    DataView.getUint16 (App.header blob) 20 true = Some 1%Z /\
    DataView.getUint16 (App.header blob) 22 true = Some numChannels /\
    DataView.getUint32 (App.header blob) 24 true = Some sampleRate /\
    DataView.getUint32 (App.header blob) 28 true
      = Some (sampleRate * (numChannels * 2))%Z /\
    DataView.getUint16 (App.header blob) 32 true = Some (numChannels * 2)%Z /\
    DataView.getUint16 (App.header blob) 34 true = Some 16%Z.
Proof.
  intros Hs Hc Hb Hr.
  eexists. split; [apply pcmToWav_header|].
  cbn [App.header].
  set (d := (Z.of_nat (length pcmData) * 2)%Z).
  assert (0 <= sampleRate * numChannels)%Z by (apply Z.mul_nonneg_nonneg; lia).
  rewrite (mul_exact numChannels 2), (mul_exact sampleRate numChannels),
    (mul_exact (sampleRate * numChannels) 2) by (rewrite Z.abs_eq; lia).
  destruct (wav_header_fields (d + 36) d sampleRate numChannels
              (sampleRate * numChannels * 2) (numChannels * 2))
    as (_ & _ & H16 & H20 & H22 & H24 & H28 & H32 & H34 & _).
  cbv zeta in *.
  rewrite H16, H20, H22, H24, H28, H32, H34.
  rewrite !Z.mod_small by lia.
  repeat split. f_equal. lia.
Qed.

Lemma wav_format_fields_witness :
  exists blob,
    App.pcmToWav [0; 1; -1]%Z 24000 1 = Some blob /\
    DataView.getUint32 (App.header blob) 16 true = Some 16%Z /\
    DataView.getUint16 (App.header blob) 20 true = Some 1%Z /\
    DataView.getUint16 (App.header blob) 22 true = Some 1%Z /\
    DataView.getUint32 (App.header blob) 24 true = Some 24000%Z /\
    DataView.getUint32 (App.header blob) 28 true = Some (24000 * (1 * 2))%Z /\
    DataView.getUint16 (App.header blob) 32 true = Some (1 * 2)%Z /\
    DataView.getUint16 (App.header blob) 34 true = Some 16%Z.
Proof.
  apply (wav_format_fields [0; 1; -1]%Z 24000 1); lia.
Defined.

Import Studio.

Lemma progressUpdater_spec p :
  (5 <= p <= 95)%Z ->
  let '(p', page) := progressUpdater p in
  p' = Z.min (p + 5) 95 /\ (10 <= p' <= 95)%Z /\
  generationProgress page = p' /\
  exists m, generationMessage page = Some m /\
            In m (firstn 5 POLLING_MESSAGES_HEYGEN) /\
            generationMessage page = at_index POLLING_MESSAGES_HEYGEN (p' / 20).
Proof.
  intros Hp. unfold progressUpdater.
  change (100 / (Z.of_nat (length POLLING_MESSAGES_HEYGEN) - 1))%Z with 20%Z.
  set (p' := Z.min (p + 5) 95). cbn [generationProgress generationMessage].
  assert (Hp' : (10 <= p' <= 95)%Z) by (unfold p'; lia).
  split; [reflexivity|]. split; [exact Hp'|]. split; [reflexivity|].
  assert (Hq : (0 <= p' / 20 <= 4)%Z).
  { split; [apply Z.div_pos; lia|].
    apply Z.lt_succ_r. apply Z.div_lt_upper_bound; lia. }
  assert (Hc : (p' / 20 = 0 \/ p' / 20 = 1 \/ p' / 20 = 2 \/ p' / 20 = 3 \/
                p' / 20 = 4)%Z) by lia.
  destruct Hc as [E|[E|[E|[E|E]]]]; rewrite E; eexists;
    (split; [reflexivity|]); (split; [cbn; auto 10|reflexivity]).
Qed.

Lemma fire_spec n : forall p page0,
  (5 <= p <= 95)%Z ->
  let '(p', page) := fire (S n) p page0 in
  p' = Z.min (p + 5 * Z.of_nat (S n)) 95 /\
  generationProgress page = p' /\
  exists m, generationMessage page = Some m /\
            In m (firstn 5 POLLING_MESSAGES_HEYGEN) /\
            generationMessage page = at_index POLLING_MESSAGES_HEYGEN (p' / 20).
Proof.
  induction n as [|n IH]; intros p page0 Hp.
  - cbn [fire]. pose proof (progressUpdater_spec p Hp) as H.
    destruct (progressUpdater p) as [p' page].
    destruct H as (-> & Hb & Hg & Hm). split; [lia|]. split; [exact Hg|exact Hm].
  - change (fire (S (S n)) p page0)
      with (let '(p1, page1) := progressUpdater p in fire (S n) p1 page1).
    pose proof (progressUpdater_spec p Hp) as H.
    destruct (progressUpdater p) as [p1 page1].
    destruct H as (-> & Hb & _).
    assert (Hb' : (5 <= Z.min (p + 5) 95 <= 95)%Z) by lia.
    pose proof (IH (Z.min (p + 5) 95) page1 Hb') as H2.
    destruct (fire (S n) (Z.min (p + 5) 95) page1) as [p2 page2].
    destruct H2 as (-> & Hg & Hm). split; [lia|]. split; [exact Hg|exact Hm].
Qed.

(** X16.  The progress ticker of [generateHeyGenVideo] never announces
    completion: after n+1 firings the progress shown is min(10 + 5n, 95),
    never above 95, and the message shown is one of the first five HeyGen
    messages, the one at index floor(progress / 20); it is always defined
    and never 'Your HeyGen video is ready!'. *)
Theorem ticker_never_announces_completion n page0 :
  let '(progress, page) := fire (S n) 5 page0 in
  progress = Z.min (10 + 5 * Z.of_nat n) 95 /\
  generationProgress page = progress /\
  (generationProgress page <= 95)%Z /\
  exists m,
    generationMessage page = Some m /\
    In m (firstn 5 POLLING_MESSAGES_HEYGEN) /\
    m <> "Your HeyGen video is ready!" /\
    generationMessage page = at_index POLLING_MESSAGES_HEYGEN (progress / 20).
Proof.
  pose proof (fire_spec n 5 page0 ltac:(lia)) as H.
  destruct (fire (S n) 5 page0) as [p page].
  destruct H as (-> & Hg & m & Hm & Hin & Hat).
  split; [lia|]. split; [exact Hg|]. split; [lia|].
  exists m. split; [exact Hm|]. split; [exact Hin|]. split; [|exact Hat].
  intros ->. cbn in Hin. repeat (destruct Hin as [Hin|Hin]; [discriminate|]).
  exact Hin.
Qed.

Lemma fire_keeps_below n : forall p page0,
  (5 <= p <= 95)%Z -> (generationProgress page0 <= 95)%Z ->
  (generationProgress (snd (fire n p page0)) <= 95)%Z.
Proof.
  destruct n as [|n]; intros p page0 Hp H0; [exact H0|].
  pose proof (fire_spec n p page0 Hp) as H.
  destruct (fire (S n) p page0) as [p' page]. cbn [snd].
  destruct H as (-> & -> & _). lia.
Qed.

Ltac browser_unfold :=
  unfold generateHeyGenVideo, generateHeyGenVideo_body;
  unfold bindB, try_catchB, declare_progress, setInterval, fetchB, awaitB,
    clearInterval, setGenerationProgress, setGenerationMessage, liftB, retB,
    throwB, did, elapse;
  cbn [react local_progress intervals effects length app fold_right filter
       Nat.eqb negb].

(** X17.  [generateHeyGenVideo] leaves no interval running: however the
    request settles and however often the interval fired, [clearInterval]
    was called (once or twice) when it returns or throws, and exactly one
    request was sent.  It returns only after showing 100 and the last
    message, and, on a page that did not already show more than 95, 100 is
    shown only when the backend answered ok with a JSON body. *)
Theorem generateHeyGenVideo_stops_ticker supabaseUrl heygenApiKey firings reply
    base64 audioUrl page0 :
  (generationProgress page0 <= 95)%Z ->
  let '(o, pg) :=
    generateHeyGenVideo supabaseUrl heygenApiKey firings reply base64 audioUrl page0 in
  ticking pg = false /\
  (1 <= cleared pg <= 2)%nat /\
  sent pg = [backend_call supabaseUrl heygenApiKey base64 audioUrl] /\
  (forall v, o = Return v ->
     cleared pg = 1%nat /\
     shown pg = {| generationProgress := 100;
                   generationMessage := Some "Your HeyGen video is ready!" |}) /\
  (generationProgress (shown pg) = 100%Z ->
   exists response result,
     reply = Fulfilled response /\ ok response = true /\
     json response = Fulfilled result).
Proof.
  intros H0.
  pose proof (fire_keeps_below firings 5 page0 ltac:(lia) H0) as Hf.
  assert (Hlast : last_message = Some "Your HeyGen video is ready!") by reflexivity.
  browser_unfold.
  destruct (fire firings 5 page0) as [p page]. cbn [snd] in Hf.
  destruct reply as [response|e]; cbn -[last_message];
    [destruct (ok response) eqn:Hok; cbn -[last_message];
     (destruct (json response) as [result|e] eqn:Hj; cbn -[last_message]);
     [destruct (JS.get result "videoUrl") as [e|v]; cbn -[last_message]
     |
     |destruct (JS.get result "error") as [e|m]; cbn -[last_message];
      [|destruct (JS.to_string _) as [e|t]; cbn -[last_message]]
     |]
    |];
    repeat split; try lia; try discriminate;
    try (intros _; eauto; fail).
Qed.

Lemma generateHeyGenVideo_stops_ticker_witness :
  let '(o, pg) :=
    generateHeyGenVideo "https://p.supabase.co/functions/v1/heygen-proxy" "key" 30
      (Fulfilled (ok_json (JS.Obj [("videoUrl", JS.Str "https://cdn/out.mp4")])))
      "IMG" "blob:audio"
      {| generationProgress := 5; generationMessage := None |} in
  ticking pg = false /\
  (1 <= cleared pg <= 2)%nat /\
  sent pg = [backend_call "https://p.supabase.co/functions/v1/heygen-proxy" "key"
                          "IMG" "blob:audio"] /\
  (forall v, o = Return v ->
     cleared pg = 1%nat /\
     shown pg = {| generationProgress := 100;
                   generationMessage := Some "Your HeyGen video is ready!" |}) /\
  (generationProgress (shown pg) = 100%Z ->
   exists response result,
     Fulfilled (ok_json (JS.Obj [("videoUrl", JS.Str "https://cdn/out.mp4")]))
       = Fulfilled response /\
     ok response = true /\ json response = Fulfilled result).
Proof.
  apply (generateHeyGenVideo_stops_ticker
           "https://p.supabase.co/functions/v1/heygen-proxy" "key" 30
           (Fulfilled (ok_json (JS.Obj [("videoUrl", JS.Str "https://cdn/out.mp4")])))
           "IMG" "blob:audio"
           {| generationProgress := 5; generationMessage := None |}).
  cbn. lia.
Defined.

(** X18.  The error message of the backend reaches the caller: on a reply
    that is not ok and whose JSON body has the string [error],
    [generateHeyGenVideo] throws an [Error] with that message ('Backend
    request failed.' when it is empty), and the page is left as the last
    firing of the interval left it. *)
Theorem backend_error_reaches_caller supabaseUrl heygenApiKey firings response
    errorData message base64 audioUrl page0 :
  ok response = false ->
  json response = Fulfilled errorData ->
  JS.get errorData "error" = inr (JS.Str message) ->
  fst (generateHeyGenVideo supabaseUrl heygenApiKey firings (Fulfilled response)
         base64 audioUrl page0)
  = Throw (Error (if message =? "" then "Backend request failed." else message)) /\
  shown (snd (generateHeyGenVideo supabaseUrl heygenApiKey firings
                (Fulfilled response) base64 audioUrl page0))
  = snd (fire firings 5 page0).
Proof.
  intros Hok Hj Hm. browser_unfold.
  destruct (fire firings 5 page0) as [p page].
  rewrite Hok. cbn. rewrite Hj. cbn. rewrite Hm. cbn.
  unfold JS.or. cbn [JS.truthy].
  destruct (message =? ""); cbn; split; reflexivity.
Qed.

Lemma backend_error_reaches_caller_witness :
  fst (generateHeyGenVideo "https://p.supabase.co/functions/v1/heygen-proxy" "key" 3
         (Fulfilled (error_reply "Internal Server Error"
            (JS.Obj [("error", JS.Str "HeyGen video generation timed out.")])))
         "IMG" "blob:audio" {| generationProgress := 5; generationMessage := None |})
  = Throw (Error "HeyGen video generation timed out.") /\
  shown (snd (generateHeyGenVideo "https://p.supabase.co/functions/v1/heygen-proxy"
                "key" 3
                (Fulfilled (error_reply "Internal Server Error"
                   (JS.Obj [("error", JS.Str "HeyGen video generation timed out.")])))
                "IMG" "blob:audio"
                {| generationProgress := 5; generationMessage := None |}))
  = {| generationProgress := 20;
       generationMessage := Some "Backend is creating host avatar..." |}.
Proof.
  apply (backend_error_reaches_caller
           "https://p.supabase.co/functions/v1/heygen-proxy" "key" 3
           (error_reply "Internal Server Error"
              (JS.Obj [("error", JS.Str "HeyGen video generation timed out.")]))
           (JS.Obj [("error", JS.Str "HeyGen video generation timed out.")])
           "HeyGen video generation timed out." "IMG" "blob:audio"
           {| generationProgress := 5; generationMessage := None |});
    reflexivity.
Defined.

(** X19.  The request the page sends and the proxies read.  With a
    non-empty image, audio URL and API key, the body [generateHeyGenVideo]
    posts is accepted by the Supabase function and by the URL variant,
    which run steps 1 to 3 on exactly the image and the audio URL sent (the
    Supabase function with the key of the body, the URL variant, once
    configured, with the key of the server); the blob variant, which reads
    [audioBase64], answers the same request 400 without any call when it is
    configured. *)
Theorem studio_request_meets_proxies w supabaseUrl heygenApiKey base64 audioUrl :
  base64 <> "" -> audioUrl <> "" -> heygenApiKey <> "" ->
  exists req,
    delivered (backend_call supabaseUrl heygenApiKey base64 audioUrl) = Some req /\
    (forall o s',
       generate_video w (JS.Str base64) (JS.Str audioUrl) (JS.Str heygenApiKey) 0
         initial = (o, s') ->
       run (Supabase.serve w req) = (supabase_outcome o, record s' (supabase_log o))) /\
    (configured (env_HEYGEN_API_KEY w) = true ->
     forall o s',
       generate_video w (JS.Str base64) (JS.Str audioUrl)
         (env_value (env_HEYGEN_API_KEY w)) 0 initial = (o, s') ->
       run (Vercel.handler w req) = (vercel_response o, record s' (vercel_log o))) /\
    (configured (env_HEYGEN_API_KEY w) = true ->
     configured (env_BLOB_READ_WRITE_TOKEN w) = true ->
     run (VercelBlob.handler w req) =
       (Return (error_response 400 VercelBlob.missing_input), initial)).
Proof.
  intros Hb Ha Hk. apply String.eqb_neq in Hb, Ha, Hk.
  eexists. split; [reflexivity|].
  set (body := JS.Obj [("imageBase64", JS.Str base64);
                       ("audioUrl", JS.Str audioUrl);
                       ("apiKey", JS.Str heygenApiKey)]).
  assert (Ti : JS.truthy (JS.Str base64) = true) by (cbn; now rewrite Hb).
  assert (Ta : JS.truthy (JS.Str audioUrl) = true) by (cbn; now rewrite Ha).
  assert (Tk : JS.truthy (JS.Str heygenApiKey) = true) by (cbn; now rewrite Hk).
  split; [|split].
  - intros o s' Hg.
    refine (proj2 (supabase_readable w _ (JS.Str base64) (JS.Str audioUrl)
                     (JS.Str heygenApiKey) _ _) Ti Ta Tk o s' Hg);
      [cbn; discriminate|reflexivity].
  - intros Hc o s' Hg.
    apply (vercel_submission w _ body (JS.Str base64) (JS.Str audioUrl) o s');
      auto.
  - intros Hc Ht.
    rewrite (blob_refuses w _ body (JS.Str base64) JS.Undefined); auto.
    unfold blob_refusal. now rewrite Hc, Ht.
Qed.

Lemma studio_request_meets_proxies_witness :
  exists req,
    delivered (backend_call "https://p.supabase.co/functions/v1/heygen-proxy"
                            "key" "IMG" "https://host/audio.wav") = Some req /\
    fst (run (Supabase.serve scenario req)) =
      Return (supabase_response 200
                (BodyJson (JS.Obj [("videoUrl", JS.Str "https://cdn/out.mp4")]))) /\
    fst (run (Vercel.handler scenario req)) =
      Return (video_response (JS.Str "https://cdn/out.mp4")) /\
    run (VercelBlob.handler scenario req) =
      (Return (error_response 400 VercelBlob.missing_input), initial).
Proof.
  destruct (studio_request_meets_proxies scenario
              "https://p.supabase.co/functions/v1/heygen-proxy" "key" "IMG"
              "https://host/audio.wav")
    as (req & Hd & HS & HV & HB); try discriminate.
  exists req. split; [exact Hd|].
  split; [|split].
  - erewrite HS; [|apply surjective_pairing]. vm_compute. reflexivity.
  - erewrite HV; [|reflexivity|apply surjective_pairing]. vm_compute. reflexivity.
  - apply HB; reflexivity.
Defined.

Lemma veo_update_ok v : veo_ok v -> veo_ok (veo_update v).
Proof.
  intros (Hp & Hi & Hg & Hm). unfold veo_update.
  change (Z.of_nat (length POLLING_MESSAGES_VEO) - 1)%Z with 5%Z.
  destruct ((Z.min (progress v + 7) 95 >? (msgIndex v + 1) * 15)%Z
            && (msgIndex v <? 5)%Z) eqn:E.
  - apply andb_prop in E as (_ & E). apply Z.ltb_lt in E.
    unfold veo_ok. cbn [progress msgIndex page generationProgress generationMessage].
    repeat split; lia.
  - unfold veo_ok. cbn [progress msgIndex page generationProgress generationMessage].
    repeat split; try lia. exact Hm.
Qed.

Lemma veo_wait_ok polls : forall done v o v',
  veo_ok v -> veo_wait polls done v = Some (o, v') -> veo_ok v'.
Proof.
  induction polls as [|p polls IH]; intros done v o v' Hv; cbn [veo_wait];
    destruct done; try discriminate; try (intros [= <- <-]; exact Hv).
  destruct p as [d|e]; [|intros [= <- <-]; exact Hv].
  apply IH. now apply veo_update_ok.
Qed.

(** X20.  The Veo loop of [startGeneration] keeps the page well-formed:
    whenever the loop ends, because the operation is done or because a call
    failed, and after any number of rounds, the progress shown lies between
    10 and 95 and the message shown is one of the Veo messages after the
    first: the index never leaves the array. *)
Theorem veo_message_stays_defined polls o v :
  veo_wait polls false veo_start = Some (o, v) ->
  (10 <= generationProgress (page v) <= 95)%Z /\
  exists m, generationMessage (page v) = Some m /\
            In m (skipn 1 POLLING_MESSAGES_VEO).
Proof.
  intros H.
  assert (H0 : veo_ok veo_start) by (unfold veo_ok; cbn; repeat split; lia).
  destruct (veo_wait_ok polls false veo_start o v H0 H) as (Hp & Hi & Hg & Hm).
  split; [lia|]. rewrite Hm.
  assert (Hc : (msgIndex v = 1 \/ msgIndex v = 2 \/ msgIndex v = 3 \/
                msgIndex v = 4 \/ msgIndex v = 5)%Z) by lia.
  destruct Hc as [E|[E|[E|[E|E]]]]; rewrite E; eexists;
    (split; [reflexivity|cbn; auto 10]).
Qed.

Lemma veo_message_stays_defined_witness :
  (10 <= 38 <= 95)%Z /\
  exists m, Some "Animating hosts with AI..." = Some m /\
            In m (skipn 1 POLLING_MESSAGES_VEO).
Proof.
  apply (veo_message_stays_defined
           [Fulfilled false; Fulfilled false; Fulfilled false; Fulfilled true]
           (Return tt)
           {| progress := 38; msgIndex := 2;
              page := {| generationProgress := 38;
                         generationMessage := Some "Animating hosts with AI..." |} |}).
  reflexivity.
Defined.
